(** * eas_alsadrv: the MIDI event encoder, the transfer channel and the
      render/pacing loop of [eas_alsadrv.c], embedded in Rocq.

    The C globals the functions touch are gathered in the record [state];
    every call that leaves the program (diagnostics, the EAS rendering
    engine, the ALSA PCM device, the clock) is appended to [trace], in
    program order.  Values returned by the outside world are arguments of
    the functions that receive them.

    Integer conventions: [uint8_t] is a [Z] in [0, 256), stores into a
    [uint8_t] go through [u8]; [unsigned int] wraps through [u32] and
    [snd_pcm_uframes_t] through [u64] (LP64); [int], [long] and [time_t]
    values are plain [Z] where the code keeps them far from their limits. *)

From Stdlib Require Import ZArith List String Lia Bool.
From stdpp Require Import base list.
Import ListNotations.

Local Open Scope Z_scope.

(** ** Machine integers *)

Definition u8 (x : Z) : Z := Z.land x 0xff.
Definition u32 (x : Z) : Z := x mod 2 ^ 32.
Definition u64 (x : Z) : Z := x mod 2 ^ 64.

(** ** Calls to the outside world *)

Inductive clockid_t := CLOCK_MONOTONIC | CLOCK_MONOTONIC_RAW.

Inductive call :=
| fprintf_stderr (format : string) (args : list Z)
| printf (format : string) (args : list string)
| EAS_WriteMIDIStream (bytes : list Z)
| EAS_Render (offset : Z) (numRequested : Z)
| snd_pcm_writei (offset : Z) (frames : Z)
| snd_pcm_pause (enable : Z)
| snd_pcm_state
| snd_pcm_prepare
| snd_pcm_avail_update
| clock_gettime (clock_id : clockid_t)
| nanosleep (nsec : Z)
| sched_get_priority_min
| sched_setscheduler (pid : Z) (sched_priority : Z).

(** ** Program state: the file-scope variables *)

Record state := mkState {
  event_buffer : list Z;        (* static uint8_t event_buffer[65536] *)
  event_read_index : Z;         (* static volatile int *)
  event_write_index : Z;        (* static volatile int *)
  midi_event_written : Z;       (* static volatile int *)
  midi_init_state : Z;          (* static volatile int *)
  subbuf_counter : Z;           (* static unsigned int *)
  trace : list call
}.

Definition set_event_buffer (b : list Z) (st : state) : state :=
  mkState b (event_read_index st) (event_write_index st)
    (midi_event_written st) (midi_init_state st) (subbuf_counter st) (trace st).
Definition set_event_read_index (i : Z) (st : state) : state :=
  mkState (event_buffer st) i (event_write_index st)
    (midi_event_written st) (midi_init_state st) (subbuf_counter st) (trace st).
Definition set_event_write_index (i : Z) (st : state) : state :=
  mkState (event_buffer st) (event_read_index st) i
    (midi_event_written st) (midi_init_state st) (subbuf_counter st) (trace st).
Definition set_midi_event_written (v : Z) (st : state) : state :=
  mkState (event_buffer st) (event_read_index st) (event_write_index st)
    v (midi_init_state st) (subbuf_counter st) (trace st).
Definition set_midi_init_state (v : Z) (st : state) : state :=
  mkState (event_buffer st) (event_read_index st) (event_write_index st)
    (midi_event_written st) v (subbuf_counter st) (trace st).
Definition set_subbuf_counter (v : Z) (st : state) : state :=
  mkState (event_buffer st) (event_read_index st) (event_write_index st)
    (midi_event_written st) (midi_init_state st) v (trace st).
Definition do_call (c : call) (st : state) : state :=
  mkState (event_buffer st) (event_read_index st) (event_write_index st)
    (midi_event_written st) (midi_init_state st) (subbuf_counter st)
    (trace st ++ [c]).

(** The state [start_synth] leaves behind: both indices and the subbuffer
    counter are zeroed, the static arrays are zero-initialised. *)
Definition initial_state : state :=
  mkState (replicate (Z.to_nat 65536) 0) 0 0 0 0 0 [].

(** ** Transfer channel: [write_event] (producer side) *)

(** [&(buf[i])] together with a byte count [n]. *)
Definition span (buf : list Z) (i n : Z) : list Z :=
  take (Z.to_nat n) (drop (Z.to_nat i) buf).

(** Lines 134-141 of [write_event]: the free space, an [unsigned int]. *)
Definition free_space (read_index write_index : Z) : Z :=
  if write_index >=? read_index
  then u32 (65535 - (write_index - read_index))
  else u32 ((read_index - write_index) - 1).

(** The copy loop of [write_event].  The pair (pointer, length) the C
    function receives is the list [event]: [length] is its length. *)
Fixpoint write_loop (event : list Z) (buf : list Z) (write_index : Z)
  : list Z * Z :=
  match event with
  | [] => (buf, write_index)
  | b :: event' =>
      write_loop event' (<[Z.to_nat write_index := b]> buf)
        (Z.land (write_index + 1) 0xffff)
  end.

Definition write_event (event : list Z) (st : state) : state :=
  let length := Z.of_nat (length event) in
  let read_index := event_read_index st in
  let write_index := event_write_index st in
  if length >? free_space read_index write_index then
    do_call (fprintf_stderr "Event buffer overflow\n" []) st
  else
    let '(buf, write_index') := write_loop event (event_buffer st) write_index in
    set_midi_event_written 1
      (set_event_write_index write_index' (set_event_buffer buf st)).

(** The bytes between [read_index] and [write_index], read the way
    [render_subbuffer] reads them: one span, or two when the region wraps. *)
Definition pending_bytes (buf : list Z) (read_index write_index : Z) : list Z :=
  if read_index =? write_index then []
  else if read_index <? write_index
       then span buf read_index (write_index - read_index)
       else span buf read_index (65536 - read_index) ++ span buf 0 write_index.

Definition pending (st : state) : list Z :=
  pending_bytes (event_buffer st) (event_read_index st) (event_write_index st).

(** The spans [render_subbuffer] passes to [EAS_WriteMIDIStream]. *)
Definition drained_spans (st : state) : list (list Z) :=
  let r := event_read_index st in
  let w := event_write_index st in
  if r =? w then []
  else if r <? w then [span (event_buffer st) r (w - r)]
       else [span (event_buffer st) r (65536 - r); span (event_buffer st) 0 w].

(** The invariant of the channel: the array has its 65536 cells and both
    indices point into it. *)
Definition wf (st : state) : Prop :=
  Z.of_nat (length (event_buffer st)) = 65536 /\
  0 <= event_read_index st < 65536 /\
  0 <= event_write_index st < 65536.


(** [write_event] called on one chunk after the other. *)
Definition write_events (chunks : list (list Z)) (st : state) : state :=
  fold_left (fun st chunk => write_event chunk st) chunks st.

(** The bytes a trace hands to the rendering engine through
    [EAS_WriteMIDIStream], in the order of the calls. *)
Definition forwarded (tr : list call) : list Z :=
  flat_map (fun c => match c with
                     | EAS_WriteMIDIStream bytes => bytes
                     | _ => []
                     end) tr.

(** ** Event encoder: [process_event] (producer side) *)

(** [snd_seq_event_t]: the [type] tag together with the member of the
    [data] union that the tag selects.  [note.channel], [note.note],
    [note.velocity] and [control.channel] are [unsigned char];
    [control.param] is [unsigned int] and [control.value] is [int];
    [ext] is the pair ([len], [ptr]), here the list of the bytes.  The
    subscription events carry what [snd_seq_get_any_client_info] finds for
    their sender: the client's name, or nothing when the lookup fails. *)
Inductive snd_seq_event :=
| SND_SEQ_EVENT_NOTEON (channel note velocity : Z)
| SND_SEQ_EVENT_NOTEOFF (channel note velocity : Z)
| SND_SEQ_EVENT_KEYPRESS (channel note velocity : Z)
| SND_SEQ_EVENT_CONTROLLER (channel param value : Z)
| SND_SEQ_EVENT_PGMCHANGE (channel param value : Z)
| SND_SEQ_EVENT_CHANPRESS (channel param value : Z)
| SND_SEQ_EVENT_PITCHBEND (channel param value : Z)
| SND_SEQ_EVENT_CONTROL14 (channel param value : Z)
| SND_SEQ_EVENT_NONREGPARAM (channel param value : Z)
| SND_SEQ_EVENT_REGPARAM (channel param value : Z)
| SND_SEQ_EVENT_SYSEX (ptr : list Z)
| SND_SEQ_EVENT_QFRAME (value : Z)
| SND_SEQ_EVENT_SONGPOS (value : Z)
| SND_SEQ_EVENT_SONGSEL (value : Z)
| SND_SEQ_EVENT_TUNE_REQUEST
| SND_SEQ_EVENT_CLOCK
| SND_SEQ_EVENT_TICK
| SND_SEQ_EVENT_START
| SND_SEQ_EVENT_CONTINUE
| SND_SEQ_EVENT_STOP
| SND_SEQ_EVENT_SENSING
| SND_SEQ_EVENT_RESET
| SND_SEQ_EVENT_PORT_SUBSCRIBED (client_name : option string)
| SND_SEQ_EVENT_PORT_UNSUBSCRIBED (client_name : option string)
| SND_SEQ_EVENT_OTHER (type : Z).

Definition subscription_event (subscribed : bool) (client_name : option string)
  (st : state) : state :=
  match client_name with
  | Some name =>
      if subscribed
      then do_call (printf "Client subscribed: %s\n" [name]) st
      else do_call (printf "Client unsubscribed: %s\n" [name]) st
  | None => do_call (printf "Client unsubscribed\n" []) st
  end.

(** The block that ends every encoding case of [process_event]:
    [if (data[0] != *running_status) { *running_status = data[0];
    write_event(data, length); } else { write_event(data + 1, length - 1); }].
    [data] holds the [length] bytes the case has filled in. *)
Definition write_running (data : list Z) (running_status : Z) (st : state)
  : Z * state :=
  let data0 := hd 0 data in
  if negb (data0 =? running_status)
  then (data0, write_event data st)
  else (running_status, write_event (tl data) st).

(** [process_event (event, &running_status)]: the new [*running_status]
    and the new state.  [PRINT_EVENTS] is not defined. *)
Definition process_event (event : snd_seq_event) (running_status : Z)
  (st : state) : Z * state :=
  match event with
  | SND_SEQ_EVENT_NOTEON channel note velocity =>
      write_running [u8 (Z.lor 0x90 channel); u8 note; u8 velocity]
        running_status st
  | SND_SEQ_EVENT_NOTEOFF channel note velocity =>
      write_running [u8 (Z.lor 0x90 channel); u8 note; 0] running_status st
  | SND_SEQ_EVENT_KEYPRESS _ _ _ => (running_status, st)
  | SND_SEQ_EVENT_CONTROLLER channel param value =>
      write_running [u8 (Z.lor 0xB0 channel); u8 param; u8 value]
        running_status st
  | SND_SEQ_EVENT_PGMCHANGE channel _ value =>
      write_running [u8 (Z.lor 0xC0 channel); u8 value] running_status st
  | SND_SEQ_EVENT_CHANPRESS channel _ value =>
      write_running [u8 (Z.lor 0xD0 channel); u8 value] running_status st
  | SND_SEQ_EVENT_PITCHBEND channel _ value =>
      write_running
        [u8 (Z.lor 0xE0 channel);
         u8 (Z.land (value + 0x2000) 0x7f);
         u8 (Z.land (Z.shiftr (value + 0x2000) 7) 0x7f)]
        running_status st
  | SND_SEQ_EVENT_CONTROL14 channel param value =>
      if (param >=? 0) && (param <? 32) then
        write_running
          [u8 (Z.lor 0xB0 channel);
           u8 param;
           u8 (Z.land (Z.shiftr value 7) 0x7f);
           u8 (param + 32);
           u8 (Z.land value 0x7f)]
          running_status st
      else (running_status, st)
  | SND_SEQ_EVENT_NONREGPARAM _ _ _ => (running_status, st)
  | SND_SEQ_EVENT_REGPARAM channel param value =>
      write_running
        [u8 (Z.lor 0xB0 channel);
         0x65; u8 (Z.land (Z.shiftr param 7) 0x7f);
         0x64; u8 (Z.land param 0x7f);
         0x06; u8 (Z.land (Z.shiftr value 7) 0x7f);
         0x26; u8 (Z.land value 0x7f)]
        running_status st
  | SND_SEQ_EVENT_SYSEX ptr => (0, write_event ptr st)
  | SND_SEQ_EVENT_QFRAME _ | SND_SEQ_EVENT_SONGPOS _ | SND_SEQ_EVENT_SONGSEL _
  | SND_SEQ_EVENT_TUNE_REQUEST | SND_SEQ_EVENT_CLOCK | SND_SEQ_EVENT_TICK
  | SND_SEQ_EVENT_START | SND_SEQ_EVENT_CONTINUE | SND_SEQ_EVENT_STOP
  | SND_SEQ_EVENT_SENSING | SND_SEQ_EVENT_RESET => (running_status, st)
  | SND_SEQ_EVENT_PORT_SUBSCRIBED client_name =>
      (running_status, subscription_event true client_name st)
  | SND_SEQ_EVENT_PORT_UNSUBSCRIBED client_name =>
      (running_status, subscription_event false client_name st)
  | SND_SEQ_EVENT_OTHER type =>
      (running_status,
       do_call (fprintf_stderr "Unhandled event type: %i\n" [type]) st)
  end.

(** The events [midi_thread_proc] hands to [process_event], one after the
    other, each starting from the running status the previous one left. *)
Fixpoint process_events (events : list snd_seq_event) (running_status : Z)
  (st : state) : Z * state :=
  match events with
  | [] => (running_status, st)
  | event :: events' =>
      let '(running_status', st') := process_event event running_status st in
      process_events events' running_status' st'
  end.

(** ** The MIDI thread: [midi_thread_proc] *)

(** [set_thread_scheduler]: the policy is [SCHED_FIFO]; [priority_min] is
    what [sched_get_priority_min] returns. *)
Definition set_thread_scheduler (priority_min : Z) (st : state) : state :=
  let st := do_call sched_get_priority_min st in
  if priority_min >? 0
  then do_call (sched_setscheduler 0 priority_min) st
  else st.

(** [midi_init_state] is written by the main thread while the MIDI thread
    runs.  Each read of it by the MIDI thread comes with the store the
    main thread has made since the thread's previous read, if any. *)
Definition main_thread_store (store : option Z) (st : state) : state :=
  match store with
  | Some v => set_midi_init_state v st
  | None => st
  end.

(** [wait_for_midi_initialization], one element of [stores] for each
    test of its [while].  The result is the rest of [stores], or [None]
    when the thread is still waiting at their end. *)
Fixpoint wait_for_midi_initialization (stores : list (option Z)) (st : state)
  : option (list (option Z)) * state :=
  match stores with
  | [] => (None, st)
  | store :: stores' =>
      let st := main_thread_store store st in
      if midi_init_state st =? 0
      then wait_for_midi_initialization stores'
             (do_call (nanosleep 10000000) st)
      else (Some stores', st)
  end.

(** How far the thread has come when what it is given ends. *)
Inductive thread_stage :=
| Waiting                          (* in [wait_for_midi_initialization] *)
| Looping (running_status : Z)     (* in the [while] of [midi_thread_proc] *)
| Returned (running_status : Z).   (* [return NULL] *)

(** The [while (midi_init_state > 0)] of [midi_thread_proc], one element
    of [stores] for each test of the condition and one element of
    [inputs] for each call of [snd_seq_event_input]: an event, or [None]
    when the call fails (the loop then tests again). *)
Fixpoint midi_thread_loop (stores : list (option Z))
  (inputs : list (option snd_seq_event)) (running_status : Z) (st : state)
  : thread_stage * state :=
  match stores with
  | [] => (Looping running_status, st)
  | store :: stores' =>
      let st := main_thread_store store st in
      if midi_init_state st >? 0 then
        match inputs with
        | [] => (Looping running_status, st)
        | None :: inputs' =>
            midi_thread_loop stores' inputs' running_status st
        | Some event :: inputs' =>
            let '(running_status', st') :=
              process_event event running_status st in
            midi_thread_loop stores' inputs' running_status' st'
        end
      else (Returned running_status, st)
  end.

(** [midi_thread_proc (arg)]: the value stored through [arg] (the
    [initialized] of [start_thread]), the stage reached and the state. *)
Definition midi_thread_proc (priority_min : Z) (stores : list (option Z))
  (inputs : list (option snd_seq_event)) (st : state)
  : Z * thread_stage * state :=
  let st := set_thread_scheduler priority_min st in
  let initialized := 1 in
  match wait_for_midi_initialization stores st with
  | (None, st) => (initialized, Waiting, st)
  | (Some stores, st) =>
      let running_status := 0 in
      let '(stage, st) := midi_thread_loop stores inputs running_status st in
      (initialized, stage, st)
  end.

(** ** Render side: [render_subbuffer], [output_subbuffer], [main_loop] *)

Record timespec := mkTimespec { tv_sec : Z; tv_nsec : Z }.

Inductive snd_pcm_state_t :=
| SND_PCM_STATE_OPEN | SND_PCM_STATE_SETUP | SND_PCM_STATE_PREPARED
| SND_PCM_STATE_RUNNING | SND_PCM_STATE_XRUN | SND_PCM_STATE_DRAINING
| SND_PCM_STATE_PAUSED | SND_PCM_STATE_SUSPENDED
| SND_PCM_STATE_DISCONNECTED.

Definition is_xrun (s : snd_pcm_state_t) : bool :=
  match s with SND_PCM_STATE_XRUN => true | _ => false end.

Definition EAS_SUCCESS : Z := 0.

(** The automatic variables of [main_loop]. *)
Record locals := mkLocals {
  is_paused : Z;
  last_written_time : timespec;
  current_time : timespec;
  monotonic_clock_id : clockid_t
}.

(** What the outside world answers during the start of [main_loop]. *)
Record startup_env := mkStartupEnv {
  probe_ret : Z;                  (* clock_gettime (CLOCK_MONOTONIC_RAW, ..) *)
  probe_time : timespec;
  startup_writei_rets : list Z;   (* snd_pcm_writei, call after call *)
  startup_pause_ret : Z;          (* snd_pcm_pause (midi_pcm, 1) *)
  startup_clock : timespec        (* clock_gettime, when the pause fails *)
}.

(** What the outside world answers during one pass of the [while (1)]. *)
Record tick_env := mkTickEnv {
  clock_ret : timespec;           (* the time clock_gettime stores *)
  pause_ret : Z;                  (* snd_pcm_pause (midi_pcm, 1) *)
  pcmstate_ret : snd_pcm_state_t; (* snd_pcm_state *)
  avail_ret : Z;                  (* snd_pcm_avail_update *)
  render_rets : list (Z * Z);     (* EAS_Render: (res, num_generated) *)
  writei_rets : list Z            (* snd_pcm_writei, call after call *)
}.

Section Render.

(** [static unsigned int], set once by [start_synth]. *)
Variables samples_per_call bytes_per_call num_subbuffers : Z.

(** [render_subbuffer (num)]; [render_ret] is what [EAS_Render] answers:
    its result and [num_generated].  The slot is named by its byte offset
    in [midi_buffer]. *)
Definition render_subbuffer (num : Z) (render_ret : Z * Z) (st : state)
  : Z * state :=
  let read_index := event_read_index st in
  let write_index := event_write_index st in
  let st1 :=
    if negb (read_index =? write_index) then
      let st' :=
        if read_index <? write_index then
          do_call (EAS_WriteMIDIStream
                     (span (event_buffer st) read_index
                        (write_index - read_index))) st
        else
          do_call (EAS_WriteMIDIStream
                     (span (event_buffer st) 0 write_index))
            (do_call (EAS_WriteMIDIStream
                        (span (event_buffer st) read_index
                           (65536 - read_index))) st)
      in
      set_event_read_index write_index st'
    else st in
  let '(res, num_generated) := render_ret in
  let st2 :=
    do_call (EAS_Render (u32 (num * bytes_per_call)) samples_per_call) st1 in
  if negb (res =? EAS_SUCCESS) then (-1, st2)
  else if negb (num_generated =? samples_per_call) then (-2, st2)
  else (0, st2).

(** The [while (remaining)] of [output_subbuffer].  [writei_rets] are the
    values the coming calls of [snd_pcm_writei] return; the result is
    [None] when they run out while the loop still has frames to write. *)
Fixpoint output_loop (writei_rets : list Z) (remaining buf_ptr : Z)
  (st : state) : option (Z * list Z * state) :=
  if remaining =? 0 then Some (0, writei_rets, st)
  else
    match writei_rets with
    | [] => None
    | written :: writei_rets' =>
        let st' := do_call (snd_pcm_writei buf_ptr remaining) st in
        if written <? 0 then Some (-1, writei_rets', st')
        else
          output_loop writei_rets' (u64 (remaining - written))
            (buf_ptr + Z.shiftl written 2) st'
    end.

Definition output_subbuffer (num : Z) (writei_rets : list Z) (st : state)
  : option (Z * list Z * state) :=
  output_loop writei_rets samples_per_call (u32 (num * bytes_per_call)) st.

(** [for (int i = 2; i < num_subbuffers; i++) output_subbuffer (i);]
    over the values [i] takes. *)
Fixpoint prefill_loop (nums : list Z) (writei_rets : list Z) (st : state)
  : option (list Z * state) :=
  match nums with
  | [] => Some (writei_rets, st)
  | i :: nums' =>
      match output_subbuffer i writei_rets st with
      | None => None
      | Some (_, writei_rets', st') => prefill_loop nums' writei_rets' st'
      end
  end.

(** [main_loop] up to its [while (1)].  [l0] is what the stack holds on
    entry: [last_written_time] keeps it when the pause succeeds. *)
Definition main_loop_startup (env : startup_env) (l0 : locals) (st : state)
  : option (locals * state) :=
  let st := do_call (clock_gettime CLOCK_MONOTONIC_RAW) st in
  let current_time := probe_time env in
  let monotonic_clock_id :=
    if negb (probe_ret env =? 0) then CLOCK_MONOTONIC else CLOCK_MONOTONIC_RAW in
  match prefill_loop (seqZ 2 (num_subbuffers - 2)) (startup_writei_rets env) st
  with
  | None => None
  | Some (_, st) =>
      let st := do_call (snd_pcm_pause 1) st in
      let '(l, st) :=
        if startup_pause_ret env =? 0 then
          (mkLocals 1 (last_written_time l0) current_time monotonic_clock_id,
           do_call (printf "PCM playback paused\n" []) st)
        else
          (mkLocals 0 (startup_clock env) current_time monotonic_clock_id,
           do_call (clock_gettime monotonic_clock_id) st) in
      Some (l, set_midi_init_state 1 (set_midi_event_written 0 st))
  end.

(** Lines 1581-1605: the [while (available_frames >= 3 * samples_per_call)];
    the result is the final [available_frames] and the state.
    [available_frames] is a [long], wider than [unsigned int]. *)
Fixpoint drain_loop (render_rets : list (Z * Z)) (writei_rets : list Z)
  (available_frames : Z) (st : state) : option (Z * state) :=
  if available_frames >=? u32 (3 * samples_per_call) then
    match render_rets with
    | [] => None
    | render_ret :: render_rets' =>
        let '(r, st1) := render_subbuffer (subbuf_counter st) render_ret st in
        let st2 :=
          if r <? 0
          then do_call (fprintf_stderr "Error rendering audio data\n" []) st1
          else st1 in
        match output_subbuffer (subbuf_counter st2) writei_rets st2 with
        | None => None
        | Some (o, writei_rets', st3) =>
            if o <? 0 then
              Some (0, do_call (fprintf_stderr "Error writing audio data\n" [])
                         st3)
            else
              let available_frames' := available_frames - samples_per_call in
              let counter := u32 (subbuf_counter st3 + 1) in
              let st4 :=
                set_subbuf_counter
                  (if counter =? num_subbuffers then 0 else counter) st3 in
              drain_loop render_rets' writei_rets' available_frames' st4
        end
    end
  else Some (available_frames, st).

(** Lines 1535-1572 of the loop body: the pause/unpause decisions.  The
    boolean is [false] where the C code says [continue]. *)
Definition tick_pacing (env : tick_env) (l : locals) (st : state)
  : locals * state * bool :=
  let st := do_call (nanosleep 10000000) st in
  if negb (midi_event_written st =? 0) then
    let st := set_midi_event_written 0 st in
    let st := do_call (clock_gettime (monotonic_clock_id l)) st in
    let l := mkLocals (is_paused l) (clock_ret env) (current_time l)
               (monotonic_clock_id l) in
    if negb (is_paused l =? 0) then
      (mkLocals 0 (last_written_time l) (current_time l) (monotonic_clock_id l),
       do_call (printf "PCM playback unpaused\n" [])
         (do_call (snd_pcm_pause 0) st),
       true)
    else (l, st, true)
  else if negb (is_paused l =? 0) then (l, st, false)
  else
    let st := do_call (clock_gettime (monotonic_clock_id l)) st in
    let l := mkLocals (is_paused l) (last_written_time l) (clock_ret env)
               (monotonic_clock_id l) in
    if tv_sec (current_time l) - tv_sec (last_written_time l) >? 60 then
      let st := do_call (snd_pcm_pause 1) st in
      if pause_ret env =? 0 then
        (mkLocals 1 (last_written_time l) (current_time l)
           (monotonic_clock_id l),
         do_call (printf "PCM playback paused\n" []) st,
         false)
      else
        (mkLocals (is_paused l) (current_time l) (current_time l)
           (monotonic_clock_id l),
         st, true)
    else (l, st, true).

(** Lines 1574-1605 of the loop body: underrun recovery and the drain loop. *)
Definition tick_render (env : tick_env) (st : state) : option (Z * state) :=
  let st := do_call snd_pcm_state st in
  let st :=
    if is_xrun (pcmstate_ret env)
    then do_call snd_pcm_prepare
           (do_call (fprintf_stderr "Buffer underrun\n" []) st)
    else st in
  let st := do_call snd_pcm_avail_update st in
  drain_loop (render_rets env) (writei_rets env) (avail_ret env) st.

(** One pass of the [while (1)] of [main_loop]. *)
Definition tick (env : tick_env) (l : locals) (st : state)
  : option (locals * state) :=
  let '(l', st', go_on) := tick_pacing env l st in
  if go_on then
    match tick_render env st' with
    | None => None
    | Some (_, st'') => Some (l', st'')
    end
  else Some (l', st').

(** The two threads together: before each pass of [main_loop], the MIDI
    thread runs [process_event] on the events that arrived while
    [main_loop] slept. *)
Fixpoint run_threads (schedule : list (list snd_seq_event * tick_env))
  (running_status : Z) (l : locals) (st : state)
  : option (Z * locals * state) :=
  match schedule with
  | [] => Some (running_status, l, st)
  | (events, env) :: schedule' =>
      let '(running_status', st1) :=
        process_events events running_status st in
      match tick env l st1 with
      | None => None
      | Some (l', st2) => run_threads schedule' running_status' l' st2
      end
  end.

End Render.

(** ** Vocabulary for the statements about the encoder *)

(** The array [data] that [process_event] fills for the events it encodes
    under running status: the status byte first, the data bytes after it. *)
Definition status_and_data (event : snd_seq_event) : option (list Z) :=
  match event with
  | SND_SEQ_EVENT_NOTEON channel note velocity =>
      Some [u8 (Z.lor 0x90 channel); u8 note; u8 velocity]
  | SND_SEQ_EVENT_NOTEOFF channel note _ =>
      Some [u8 (Z.lor 0x90 channel); u8 note; 0]
  | SND_SEQ_EVENT_CONTROLLER channel param value =>
      Some [u8 (Z.lor 0xB0 channel); u8 param; u8 value]
  | SND_SEQ_EVENT_PGMCHANGE channel _ value =>
      Some [u8 (Z.lor 0xC0 channel); u8 value]
  | SND_SEQ_EVENT_CHANPRESS channel _ value =>
      Some [u8 (Z.lor 0xD0 channel); u8 value]
  | SND_SEQ_EVENT_PITCHBEND channel _ value =>
      Some [u8 (Z.lor 0xE0 channel);
            u8 (Z.land (value + 0x2000) 0x7f);
            u8 (Z.land (Z.shiftr (value + 0x2000) 7) 0x7f)]
  | SND_SEQ_EVENT_CONTROL14 channel param value =>
      if (param >=? 0) && (param <? 32) then
        Some [u8 (Z.lor 0xB0 channel);
              u8 param;
              u8 (Z.land (Z.shiftr value 7) 0x7f);
              u8 (param + 32);
              u8 (Z.land value 0x7f)]
      else None
  | SND_SEQ_EVENT_REGPARAM channel param value =>
      Some [u8 (Z.lor 0xB0 channel);
            0x65; u8 (Z.land (Z.shiftr param 7) 0x7f);
            0x64; u8 (Z.land param 0x7f);
            0x06; u8 (Z.land (Z.shiftr value 7) 0x7f);
            0x26; u8 (Z.land value 0x7f)]
  | _ => None
  end.

(** A note-on or note-off event on channel [c]. *)
Definition note_on_channel (c : Z) (event : snd_seq_event) : Prop :=
  match event with
  | SND_SEQ_EVENT_NOTEON channel _ _
  | SND_SEQ_EVENT_NOTEOFF channel _ _ => channel = c
  | _ => False
  end.

(** The two data bytes of a note event: the note and the velocity, the
    latter 0 for a note-off. *)
Definition note_data (event : snd_seq_event) : list Z :=
  match event with
  | SND_SEQ_EVENT_NOTEON _ note velocity => [u8 note; u8 velocity]
  | SND_SEQ_EVENT_NOTEOFF _ note _ => [u8 note; 0]
  | _ => []
  end.

(** Note and velocity are MIDI data bytes, below 128. *)
Definition seven_bit_note (event : snd_seq_event) : Prop :=
  match event with
  | SND_SEQ_EVENT_NOTEON _ note velocity =>
      0 <= note < 128 /\ 0 <= velocity < 128
  | SND_SEQ_EVENT_NOTEOFF _ note _ => 0 <= note < 128
  | _ => True
  end.

(** ** Vocabulary for the statements about the render loop *)

Definition do_calls (cs : list call) (st : state) : state :=
  mkState (event_buffer st) (event_read_index st) (event_write_index st)
    (midi_event_written st) (midi_init_state st) (subbuf_counter st)
    (trace st ++ cs).

Definition is_snd_pcm_writei (c : call) : bool :=
  match c with snd_pcm_writei _ _ => true | _ => false end.

Definition is_snd_pcm_pause (c : call) : bool :=
  match c with snd_pcm_pause _ => true | _ => false end.

Definition is_EAS_call (c : call) : bool :=
  match c with
  | EAS_Render _ _ | EAS_WriteMIDIStream _ => true
  | _ => false
  end.

(** The calls [output_subbuffer (i)] makes: only [snd_pcm_writei], and,
    unless the period is empty, the first of them asks for the whole
    period at the offset of slot [i]. *)
Definition slot_writes (samples_per_call bytes_per_call : Z)
  (i : Z) (calls : list call) : Prop :=
  forallb is_snd_pcm_writei calls = true /\
  (samples_per_call <> 0 ->
   exists calls' : list call,
     calls = snd_pcm_writei (u32 (i * bytes_per_call)) samples_per_call
               :: calls').

(** The calls of [snd_pcm_writei] that [output_subbuffer] makes when the
    device answers [ws]: each call asks for the frames still missing, at
    the place in [midi_buffer] where they start (4 bytes a frame). *)
Fixpoint writei_calls (ws : list Z) (remaining buf_ptr : Z) : list call :=
  match ws with
  | [] => []
  | w :: ws' =>
      snd_pcm_writei buf_ptr remaining
        :: writei_calls ws' (remaining - w) (buf_ptr + Z.shiftl w 2)
  end.

(** [device_writes ws remaining result]: asked for [remaining] frames, the
    device takes them in the pieces [ws], the last of which completes the
    period ([result] 0) or is an error code ([result] -1). *)
Inductive device_writes : list Z -> Z -> Z -> Prop :=
| device_writes_done : device_writes [] 0 0
| device_writes_error (w remaining : Z) :
    remaining <> 0 -> w < 0 -> device_writes [w] remaining (-1)
| device_writes_partial (w : Z) (ws : list Z) (remaining result : Z) :
    remaining <> 0 -> 0 <= w <= remaining ->
    device_writes ws (remaining - w) result ->
    device_writes (w :: ws) remaining result.

(** The calls lines 1574-1605 of [main_loop] may make. *)
Definition is_render_side_call (c : call) : bool :=
  match c with
  | EAS_WriteMIDIStream _ | EAS_Render _ _ | snd_pcm_writei _ _
  | fprintf_stderr _ _ | snd_pcm_state | snd_pcm_prepare
  | snd_pcm_avail_update => true
  | _ => false
  end.

(** The message [main_loop] prints when [snd_pcm_pause (midi_pcm, 1)] has
    succeeded: it marks a transition to the paused state. *)
Definition is_paused_message (c : call) : bool :=
  match c with
  | printf format _ => String.eqb format "PCM playback paused\n"
  | _ => false
  end.

Definition pause_transitions (calls : list call) : nat :=
  length (List.filter is_paused_message calls).

Definition pause_attempts (calls : list call) : nat :=
  length (List.filter is_snd_pcm_pause calls).

(** A part of a schedule during which no event arrives. *)
Definition idle (schedule : list (list snd_seq_event * tick_env)) : Prop :=
  Forall (fun slot => slot.1 = []) schedule.

(** ** Sequences of channel operations *)

(** One operation on the transfer channel: the producer's [write_event] or
    the consumer's [render_subbuffer]. *)
Inductive channel_op :=
| enqueue (event : list Z)
| dequeue (num : Z) (render_ret : Z * Z).

Section ChannelOps.

Variables samples_per_call bytes_per_call : Z.

Definition channel_step (op : channel_op) (st : state) : state :=
  match op with
  | enqueue event => write_event event st
  | dequeue num render_ret =>
      (render_subbuffer samples_per_call bytes_per_call num render_ret st).2
  end.

Definition channel_run (ops : list channel_op) (st : state) : state :=
  fold_left (fun st op => channel_step op st) ops st.

(** The chunks of [ops] that pass the free-space test of [write_event] at
    the moment they are enqueued, in order. *)
Fixpoint accepted_chunks (ops : list channel_op) (st : state)
  : list (list Z) :=
  match ops with
  | [] => []
  | op :: ops' =>
      match op with
      | enqueue event =>
          if Z.of_nat (length event)
               >? free_space (event_read_index st) (event_write_index st)
          then accepted_chunks ops' (channel_step op st)
          else event :: accepted_chunks ops' (channel_step op st)
      | dequeue _ _ => accepted_chunks ops' (channel_step op st)
      end
  end.

End ChannelOps.

Definition is_enqueue (op : channel_op) : bool :=
  match op with enqueue _ => true | dequeue _ _ => false end.

Definition is_overflow_message (c : call) : bool :=
  match c with
  | fprintf_stderr format _ => String.eqb format "Event buffer overflow\n"
  | _ => false
  end.

(** The bytes that have entered the channel and have not been lost: those
    already handed to the rendering engine, then those still pending. *)
Definition stream (st : state) : list Z :=
  forwarded (trace st) ++ pending st.

(** The value a receiver rebuilds from the two 7-bit data bytes of a 14-bit
    MIDI quantity. *)
Definition decode14 (lsb msb : Z) : Z := lsb + 128 * msb.

(** The events for which [process_event] has no encoding: the cases that
    only [break], and a 14-bit controller outside [0, 32). *)
Definition is_ignored_event (event : snd_seq_event) : bool :=
  match event with
  | SND_SEQ_EVENT_KEYPRESS _ _ _ | SND_SEQ_EVENT_NONREGPARAM _ _ _
  | SND_SEQ_EVENT_QFRAME _ | SND_SEQ_EVENT_SONGPOS _ | SND_SEQ_EVENT_SONGSEL _
  | SND_SEQ_EVENT_TUNE_REQUEST | SND_SEQ_EVENT_CLOCK | SND_SEQ_EVENT_TICK
  | SND_SEQ_EVENT_START | SND_SEQ_EVENT_CONTINUE | SND_SEQ_EVENT_STOP
  | SND_SEQ_EVENT_SENSING | SND_SEQ_EVENT_RESET => true
  | SND_SEQ_EVENT_CONTROL14 _ param _ => negb ((param >=? 0) && (param <? 32))
  | _ => false
  end.

(** The events that print a message and encode nothing. *)
Definition is_logged_event (event : snd_seq_event) : bool :=
  match event with
  | SND_SEQ_EVENT_PORT_SUBSCRIBED _ | SND_SEQ_EVENT_PORT_UNSUBSCRIBED _
  | SND_SEQ_EVENT_OTHER _ => true
  | _ => false
  end.

(** A call of [EAS_Render] that fills one of the [num_subbuffers] slots of
    [midi_buffer] with one period: the slot's index is in range and its
    [bytes_per_call] bytes end within the 65536 bytes of the buffer. *)
Definition renders_into_pool (samples_per_call bytes_per_call num_subbuffers : Z)
  (c : call) : Prop :=
  match c with
  | EAS_Render offset numRequested =>
      numRequested = samples_per_call /\
      (exists i : Z, 0 <= i < num_subbuffers /\ offset = i * bytes_per_call) /\
      0 <= offset /\ offset + bytes_per_call <= 65536
  | _ => True
  end.

(** A message on stdout or stderr. *)
Definition is_message (c : call) : bool :=
  match c with
  | printf _ _ | fprintf_stderr _ _ => true
  | _ => false
  end.

(** The part of the state the producer leaves alone: the read index, the
    subbuffer counter, [midi_init_state] and what the engine was sent. *)
Definition consumer_side_kept (st st' : state) : Prop :=
  event_read_index st' = event_read_index st /\
  subbuf_counter st' = subbuf_counter st /\
  midi_init_state st' = midi_init_state st /\
  forwarded (trace st') = forwarded (trace st).

(** The part of the state the consumer leaves alone: the array, the write
    index and [midi_init_state]. *)
Definition producer_side_kept (st st' : state) : Prop :=
  event_buffer st' = event_buffer st /\
  event_write_index st' = event_write_index st /\
  midi_init_state st' = midi_init_state st.

(** A call of [snd_pcm_writei] that asks for the frames of a period that
    are still missing: it ends where the period of [samples_per_call]
    frames that starts at [base] ends, 4 bytes a frame. *)
Definition completes_period (samples_per_call base : Z) (c : call) : Prop :=
  match c with
  | snd_pcm_writei offset frames =>
      0 < frames <= samples_per_call /\
      offset + 4 * frames = base + 4 * samples_per_call
  | _ => False
  end.

Definition sum_frames (ws : list Z) : Z := fold_right Z.add 0 ws.

(** ** The DLS file callbacks: [dls_read_at], [dls_get_size] *)

(** [dls_file_handle_t]: the mapped file, [dls_size] bytes at
    [dls_address]. *)
Record dls_file_handle_t := mkDlsHandle {
  dls_address : list Z;
  dls_size : Z
}.

(** The file is mapped whole: [mmap] was given [dls_size] as length. *)
Definition dls_mapped (handle : dls_file_handle_t) : Prop :=
  Z.of_nat (length (dls_address handle)) = dls_size handle.

(** [dls_read_at (handle, buf, offset, size)]: the bytes [memcpy] stores
    in [buf] and the value returned.  With a negative [size] that is not
    clamped, [memcpy] is called with a huge count: no result. *)
Definition dls_read_at (handle : dls_file_handle_t) (offset size : Z)
  : option (list Z * Z) :=
  let dls_size := dls_size handle in
  if (offset <? 0) || (offset >=? dls_size) then Some ([], 0)
  else
    let size := if size >? dls_size - offset then dls_size - offset else size in
    if size <? 0 then None
    else Some (span (dls_address handle) offset size, size).

Definition dls_get_size (handle : dls_file_handle_t) : Z := dls_size handle.

(** ** The command line: [read_arguments] *)

From Stdlib Require Import Ascii.

(** The file-scope variables [read_arguments] sets. *)
Record settings := mkSettings {
  polyphony : Z;
  master_volume : Z;
  daemonize : Z;
  reverb_preset : Z;
  reverb_wet : Z;
  chorus_preset : Z;
  chorus_rate : Z;
  chorus_depth : Z;
  chorus_level : Z;
  dls_filepath : option string
}.

(** What [read_arguments] starts from. *)
Definition default_settings : settings :=
  mkSettings 0 (-1) 0 0 (-1) 0 (-1) (-1) (-1) None.

(** [read_arguments] returns with the settings, or calls [usage], which
    prints the help and exits with status 1. *)
Inductive parse_result :=
| Parsed (s : settings)
| Usage.

Section ReadArguments.

(** [atoi] of the C library. *)
Variable atoi : string -> Z.





End ReadArguments.





(** What [atoi] returns on a string that starts with decimal digits: the
    number they spell, up to the first other character.  It stands for the
    function of the C library in the examples. *)
Fixpoint decimal_digits (s : string) (acc : Z) : Z :=
  match s with
  | EmptyString => acc
  | String c s' =>
      let d := Z.of_N (N_of_ascii c) - 48 in
      if (0 <=? d) && (d <=? 9) then decimal_digits s' (10 * acc + d)
      else acc
  end.

Definition atoi_digits (s : string) : Z := decimal_digits s 0.

(** ** Passes of [main_loop] after an event *)

(** The device has at least three periods free: the inner loop of
    [main_loop] runs. *)
Definition has_room (samples_per_call : Z) (env : tick_env) : Prop :=
  avail_ret env >= u32 (3 * samples_per_call).

(** The clock of the pass is not more than 60 whole seconds after
    [since]: the comparison of line 1558 does not hold. *)
Definition within_idle_threshold (since : timespec) (env : tick_env) : Prop :=
  tv_sec (clock_ret env) - tv_sec since <= 60.

(** ** The geometry of the staging buffer: [start_synth], lines 958-972 *)

(** The fields of [S_EAS_LIB_CONFIG] that [start_synth] reads. *)
Record S_EAS_LIB_CONFIG := mkEasConfig {
  numChannels : Z;
  sampleRate : Z;
  mixBufferSize : Z
}.

(** The [static unsigned int] variables set by [start_synth]. *)
Record geometry := mkGeometry {
  geo_num_channels : Z;
  geo_frequency : Z;
  geo_samples_per_call : Z;
  geo_bytes_per_call : Z;
  geo_num_subbuffers : Z
}.

Inductive start_synth_geometry_result :=
| Unsupported (message : call)      (* [return -1] *)
| Supported (g : geometry).         (* [start_synth] goes on to [EAS_Init] *)

(** Lines 958-972.  [sizeof_EAS_PCM] is [sizeof (EAS_PCM)], a [size_t]
    from the headers of the EAS library.  The three products and the
    quotient are computed as C does: [unsigned int] times [unsigned int]
    wraps at 32 bits, the product with the [size_t] is truncated by the
    store into [bytes_per_call], the quotient of the two [int64_t] values
    by the store into [num_subbuffers].  A division by zero has no
    result. *)
Definition start_synth_geometry (sizeof_EAS_PCM : Z) (eas_config : S_EAS_LIB_CONFIG)
  : option start_synth_geometry_result :=
  let num_channels := u32 (numChannels eas_config) in
  let frequency := u32 (sampleRate eas_config) in
  let samples_per_call := u32 (mixBufferSize eas_config) in
  let bytes_per_call :=
    u32 (u64 (u32 (samples_per_call * num_channels) * sizeof_EAS_PCM)) in
  if 11025 * samples_per_call =? 0 then None
  else
    let num_subbuffers :=
      u32 ((4096 * frequency) / (11025 * samples_per_call)) in
    if bytes_per_call =? 0 then None
    else
      let num_subbuffers :=
        if num_subbuffers >? 65536 / bytes_per_call
        then 65536 / bytes_per_call
        else num_subbuffers in
      if num_subbuffers <? 4 then
        Some (Unsupported
                (fprintf_stderr "Unsupported EAS parameters: %i, %i, %i\n"
                   [num_channels; frequency; samples_per_call]))
      else
        Some (Supported
                (mkGeometry num_channels frequency samples_per_call
                   bytes_per_call num_subbuffers)).

(** [buffer_size = samples_per_call * num_subbuffers] of [set_hw_params]:
    an [unsigned int] product stored in a [snd_pcm_uframes_t]. *)
Definition hw_buffer_size (g : geometry) : Z :=
  u64 (u32 (geo_samples_per_call g * geo_num_subbuffers g)).

(** ** Giving up root: [drop_privileges] *)

(** The system calls of [drop_privileges] that change something. *)
Inductive sys_call :=
| setgid (gid : Z)
| setuid (uid : Z)
| print_dropped                    (* printf ("Dropped root privileges\n") *)
| chdir (path : string)
| setenv (name value : string).

(** [struct passwd], the fields read. *)
Record passwd := mkPasswd {
  pw_gid : Z;
  pw_dir : string
}.

(** [struct stat], the fields read; [is_dir] is
    [(st_mode & S_IFMT) == S_IFDIR]. *)
Record stat_t := mkStat {
  is_dir : bool;
  st_uid : Z
}.

(** What the system answers to [drop_privileges]. *)
Record privileges_env := mkPrivilegesEnv {
  getuid_ret : Z;
  SUDO_UID : option string;        (* secure_getenv *)
  PKEXEC_UID : option string;
  getgid_ret : Z;
  SUDO_GID : option string;
  getpwuid : Z -> option passwd;
  setgid_ret : Z;
  setuid_ret : Z;
  XDG_RUNTIME_DIR : option string; (* getenv *)
  XDG_CONFIG_HOME : option string;
  stat : string -> option stat_t   (* [None]: stat () fails *)
}.

Section DropPrivileges.

(** [strtoll (s, NULL, 10)]: the [long long] value and [errno]. *)
Variable strtoll : string -> Z * Z.

(** [snprintf (buf, 32, "/run/user/%lli", uid)]. *)
Variable run_user_dir : Z -> string.

(** [xdg_dir == NULL || *xdg_dir == 0]. *)
Definition unset_or_empty (value : option string) : bool :=
  match value with
  | None => true
  | Some value => String.eqb value EmptyString
  end.

(** Lines 1323-1369: after the two identities are set. *)
Definition define_environment (env : privileges_env) (uid : Z)
  : list sys_call :=
  if unset_or_empty (XDG_RUNTIME_DIR env) then
    let buf := run_user_dir uid in
    match stat env buf with
    | Some statbuf =>
        if is_dir statbuf && (st_uid statbuf =? uid) then
          setenv "XDG_RUNTIME_DIR" buf ::
          (if unset_or_empty (XDG_CONFIG_HOME env) then
             match getpwuid env uid with
             | Some passwdbuf => [setenv "XDG_CONFIG_HOME" (pw_dir passwdbuf)]
             | None => []
             end
           else [])
        else []
    | None => []
    end
  else [].

(** [drop_privileges]: the value returned and the calls made, in order.
    [uid_t] and [gid_t] are 32-bit unsigned: what is read into a variable
    of these types goes through [u32]. *)
Definition drop_privileges (env : privileges_env) : Z * list sys_call :=
  if negb (u32 (getuid_ret env) =? 0) then (0, [])
  else
    let sudo_id :=
      match SUDO_UID env with
      | Some sudo_id => Some sudo_id
      | None => PKEXEC_UID env
      end in
    match sudo_id with
    | None => (-1, [])
    | Some sudo_id =>
        let '(llid, errno) := strtoll sudo_id in
        let uid := u32 llid in
        if negb (errno =? 0) || (uid =? 0) || negb (llid =? uid) then (-2, [])
        else
          let gid := u32 (getgid_ret env) in
          let gid_or_error :=
            if gid =? 0 then
              match SUDO_GID env with
              | None =>
                  let gid :=
                    match getpwuid env uid with
                    | Some passwdbuf => u32 (pw_gid passwdbuf)
                    | None => gid
                    end in
                  if gid =? 0 then inr (-3) else inl gid
              | Some sudo_id =>
                  let '(llid, errno) := strtoll sudo_id in
                  let gid := u32 llid in
                  if negb (errno =? 0) || (gid =? 0) || negb (llid =? gid)
                  then inr (-4)
                  else inl gid
              end
            else inl gid in
          match gid_or_error with
          | inr error => (error, [])
          | inl gid =>
              if negb (setgid_ret env =? 0) then (-5, [setgid gid])
              else if negb (setuid_ret env =? 0)
                   then (-6, [setgid gid; setuid uid])
              else
                (0, [setgid gid; setuid uid; print_dropped; chdir "/"]
                      ++ define_environment env uid)
          end
    end.

End DropPrivileges.

Definition is_setuid (c : sys_call) : bool :=
  match c with setuid _ => true | _ => false end.

Definition is_setgid (c : sys_call) : bool :=
  match c with setgid _ => true | _ => false end.

(** A call that sets an identity sets one that is not root's and that fits
    the 32 bits of [uid_t] and [gid_t]. *)
Definition sets_no_root_identity (c : sys_call) : Prop :=
  match c with
  | setuid id | setgid id => 0 < id < 2 ^ 32
  | _ => True
  end.

(** ** The order of start-up and shutdown: [main] *)

(** The functions [main] calls, the start-up ones with the value they
    return, and its store into [midi_init_state]. *)
Inductive main_call :=
| start_synth (ret : Z)
| run_as_daemon (ret : Z)
| start_thread (ret : Z)
| open_pcm_output (ret : Z)
| open_midi_port (ret : Z)
| main_loop
| store_midi_init_state (v : Z)
| close_pcm_output
| stop_synth.

(** What the start-up functions return. *)
Record main_env := mkMainEnv {
  start_synth_ret : Z;
  run_as_daemon_ret : Z;
  start_thread_ret : Z;
  open_pcm_output_ret : Z;
  open_midi_port_ret : Z
}.

(** [main] returns an exit status, or is still in [main_loop], whose
    [while (1)] has no way out: the only [break] of its body leaves the
    inner [while]. *)
Inductive main_result :=
| Exits (status : Z)
| In_main_loop.

(** [main], after [read_arguments] has returned [parsed]: the result and
    the calls made, in order.  [usage] exits with status 1.  Lines
    1649-1653, after the call of [main_loop], are never reached. *)
Definition main (parsed : parse_result) (env : main_env)
  : main_result * list main_call :=
  match parsed with
  | Usage => (Exits 1, [])
  | Parsed s =>
      let tr := [start_synth (start_synth_ret env)] in
      if start_synth_ret env <? 0 then (Exits 2, tr)
      else
        let daemon_failed :=
          negb (daemonize s =? 0) && (run_as_daemon_ret env <? 0) in
        let tr :=
          if negb (daemonize s =? 0)
          then tr ++ [run_as_daemon (run_as_daemon_ret env)]
          else tr in
        if daemon_failed then (Exits 3, tr ++ [stop_synth])
        else
          let tr := tr ++ [start_thread (start_thread_ret env)] in
          if start_thread_ret env <? 0 then (Exits 4, tr ++ [stop_synth])
          else
            let tr := tr ++ [open_pcm_output (open_pcm_output_ret env)] in
            if open_pcm_output_ret env <? 0
            then (Exits 5, tr ++ [store_midi_init_state (-1); stop_synth])
            else
              let tr := tr ++ [open_midi_port (open_midi_port_ret env)] in
              if open_midi_port_ret env <? 0
              then (Exits 6,
                    tr ++ [store_midi_init_state (-1); close_pcm_output;
                           stop_synth])
              else (In_main_loop, tr ++ [main_loop])
  end.

(** The shutdown function of a start-up call that has succeeded; the MIDI
    thread is detached and has none: it is told to stop through
    [midi_init_state]. *)
Definition shutdown_of (c : main_call) : option main_call :=
  match c with
  | start_synth ret => if ret <? 0 then None else Some stop_synth
  | open_pcm_output ret => if ret <? 0 then None else Some close_pcm_output
  | _ => None
  end.

Definition is_shutdown (c : main_call) : bool :=
  match c with
  | close_pcm_output | stop_synth => true
  | _ => false
  end.

(** The value a start-up call has returned. *)
Definition returned (c : main_call) : option Z :=
  match c with
  | start_synth ret | run_as_daemon ret | start_thread ret
  | open_pcm_output ret | open_midi_port ret => Some ret
  | _ => None
  end.

(** A start-up call that has failed. *)
Definition has_failed (c : main_call) : bool :=
  match returned c with
  | Some ret => ret <? 0
  | None => false
  end.

(** The exit status [main] gives to the failure of a start-up call. *)
Definition status_of (c : main_call) : Z :=
  match c with
  | start_synth _ => 2
  | run_as_daemon _ => 3
  | start_thread _ => 4
  | open_pcm_output _ => 5
  | open_midi_port _ => 6
  | _ => 0
  end.

Definition thread_started (c : main_call) : bool :=
  match c with
  | start_thread ret => negb (ret <? 0)
  | _ => false
  end.

(** A start-up call. *)
Definition is_startup (c : main_call) : bool :=
  match returned c with
  | Some _ => true
  | None => false
  end.

(** A shutdown call, or the store that tells the MIDI thread to stop. *)
Definition is_shutdown_or_stop (c : main_call) : bool :=
  match c with
  | store_midi_init_state _ => true
  | _ => is_shutdown c
  end.

(** ** Facts about the channel *)

Section ChannelFacts.

Lemma land_ffff (x : Z) : Z.land x 0xffff = x mod 65536.
Proof. change 0xffff with (Z.ones 16). rewrite Z.land_ones by lia. reflexivity. Qed.

Lemma u32_small (x : Z) : 0 <= x < 2 ^ 32 -> u32 x = x.
Proof. intros H. unfold u32. apply Z.mod_small. exact H. Qed.

Lemma free_space_spec (r w : Z) :
  0 <= r < 65536 -> 0 <= w < 65536 ->
  free_space r w = 65535 - (w - r) mod 65536.
Proof.
  intros Hr Hw. unfold free_space.
  destruct (Z.geb_spec w r) as [Hge | Hlt]; rewrite u32_small by lia;
    Z.div_mod_to_equations; lia.
Qed.

(** Writing cell [i + n] extends the span of [n] cells that starts at [i]. *)
Lemma take_drop_insert_snoc (buf : list Z) (i n : nat) (b : Z) :
  (i + n < length buf)%nat ->
  take (S n) (drop i (<[(i + n)%nat := b]> buf)) = take n (drop i buf) ++ [b].
Proof.
  intros Hlen.
  rewrite drop_insert_ge by lia.
  replace (i + n - i)%nat with n by lia.
  rewrite (take_S_r _ n b).
  - rewrite take_insert_ge by lia. reflexivity.
  - apply list_lookup_insert_eq. rewrite length_drop. lia.
Qed.

Lemma span_all (buf : list Z) (r : Z) :
  Z.of_nat (length buf) = 65536 -> 0 <= r ->
  span buf r (65536 - r) = drop (Z.to_nat r) buf.
Proof.
  intros Hlen Hr. unfold span. apply take_ge. rewrite length_drop. lia.
Qed.

Lemma span_push (buf : list Z) (r n b : Z) :
  0 <= r -> 0 <= n -> r + n < Z.of_nat (length buf) ->
  span (<[Z.to_nat (r + n) := b]> buf) r (n + 1) = span buf r n ++ [b].
Proof.
  intros Hr Hn Hlen. unfold span.
  replace (Z.to_nat (n + 1)) with (S (Z.to_nat n)) by lia.
  replace (Z.to_nat (r + n)) with (Z.to_nat r + Z.to_nat n)%nat by lia.
  apply take_drop_insert_snoc. lia.
Qed.

Lemma span_nil (buf : list Z) (r : Z) : span buf r 0 = [].
Proof. reflexivity. Qed.

(** One iteration of the copy loop appends its byte to the pending region,
    as long as a free cell is left. *)
Lemma pending_bytes_push (buf : list Z) (r w b : Z) :
  Z.of_nat (length buf) = 65536 ->
  0 <= r < 65536 -> 0 <= w < 65536 ->
  1 <= free_space r w ->
  pending_bytes (<[Z.to_nat w := b]> buf) r (Z.land (w + 1) 0xffff)
  = pending_bytes buf r w ++ [b].
Proof.
  intros Hlen Hr Hw Hfree.
  rewrite free_space_spec in Hfree by assumption.
  rewrite land_ffff. unfold pending_bytes.
  destruct (Z.eq_dec w 65535) as [-> | Hw'].
  - (* the write index wraps to 0 *)
    change ((65535 + 1) mod 65536) with 0.
    assert (0 < r) by (Z.div_mod_to_equations; lia).
    destruct (Z.eqb_spec r 0) as [? | _]; [lia |].
    destruct (Z.ltb_spec r 0) as [? | _]; [lia |].
    rewrite span_nil, app_nil_r.
    replace (65536 - r) with ((65535 - r) + 1) by lia.
    replace 65535 with (r + (65535 - r)) at 1 by lia.
    rewrite span_push by lia.
    destruct (Z.eqb_spec r 65535) as [-> | Hne]; [reflexivity |].
    destruct (Z.ltb_spec r 65535) as [_ | ?]; [reflexivity | lia].
  - rewrite (Z.mod_small (w + 1)) by lia.
    destruct (Z.eqb_spec r (w + 1)) as [? | _];
      [exfalso; Z.div_mod_to_equations; lia |].
    destruct (Z.ltb_spec r (w + 1)) as [Hle | Hgt].
    + (* one span, growing to the right *)
      replace (w + 1 - r) with ((w - r) + 1) by lia.
      replace w with (r + (w - r)) at 1 by lia.
      rewrite span_push by lia.
      destruct (Z.eqb_spec r w) as [-> | Hne];
        [rewrite Z.sub_diag; reflexivity |].
      destruct (Z.ltb_spec r w) as [_ | ?]; [reflexivity | lia].
    + (* two spans: the second one grows *)
      destruct (Z.eqb_spec r w) as [? | _]; [lia |].
      destruct (Z.ltb_spec r w) as [? | _]; [lia |].
      rewrite !span_all by (rewrite ?length_insert; lia).
      rewrite drop_insert_lt by lia.
      rewrite <- app_assoc. f_equal.
      replace w with (0 + w) at 1 by lia.
      apply span_push; lia.
Qed.

Lemma free_space_push (r w : Z) :
  0 <= r < 65536 -> 0 <= w < 65536 -> 1 <= free_space r w ->
  free_space r (Z.land (w + 1) 0xffff) = free_space r w - 1.
Proof.
  intros Hr Hw Hfree. rewrite land_ffff.
  assert (0 <= (w + 1) mod 65536 < 65536) by (apply Z.mod_pos_bound; lia).
  rewrite !free_space_spec in * by assumption.
  Z.div_mod_to_equations; lia.
Qed.

Lemma write_loop_spec (event : list Z) :
  forall (buf : list Z) (r w : Z),
    Z.of_nat (length buf) = 65536 ->
    0 <= r < 65536 -> 0 <= w < 65536 ->
    Z.of_nat (length event) <= free_space r w ->
    Z.of_nat (length (write_loop event buf w).1) = 65536 /\
    (write_loop event buf w).2 = (w + Z.of_nat (length event)) mod 65536 /\
    free_space r (write_loop event buf w).2
      = free_space r w - Z.of_nat (length event) /\
    pending_bytes (write_loop event buf w).1 r (write_loop event buf w).2
      = pending_bytes buf r w ++ event.
Proof.
  induction event as [| b event IH]; intros buf r w Hlen Hr Hw Hfit.
  - simpl. rewrite Z.add_0_r, Z.mod_small, Z.sub_0_r, app_nil_r by lia. auto.
  - simpl length in *. simpl write_loop.
    assert (Hw' : 0 <= Z.land (w + 1) 0xffff < 65536)
      by (rewrite land_ffff; apply Z.mod_pos_bound; lia).
    destruct (IH (<[Z.to_nat w := b]> buf) r (Z.land (w + 1) 0xffff))
      as (H1 & H2 & H3 & H4); try assumption.
    + rewrite length_insert. exact Hlen.
    + rewrite free_space_push by lia. lia.
    + repeat split.
      * exact H1.
      * rewrite H2, land_ffff, Zplus_mod_idemp_l. f_equal. lia.
      * rewrite H3, free_space_push by lia. lia.
      * rewrite H4, pending_bytes_push by (assumption || lia).
        rewrite <- app_assoc. reflexivity.
Qed.

(** *** What [write_event] does, in the two cases of its guard *)

Lemma write_event_overflow (event : list Z) (st : state) :
  Z.of_nat (length event)
    > free_space (event_read_index st) (event_write_index st) ->
  write_event event st
  = do_call (fprintf_stderr "Event buffer overflow\n" []) st.
Proof.
  intros H. unfold write_event.
  destruct (Z.gtb_spec (Z.of_nat (length event))
              (free_space (event_read_index st) (event_write_index st)));
    [reflexivity | lia].
Qed.

Lemma write_event_fits (event : list Z) (st : state) :
  wf st ->
  Z.of_nat (length event)
    <= free_space (event_read_index st) (event_write_index st) ->
  wf (write_event event st) /\
  pending (write_event event st) = pending st ++ event /\
  event_read_index (write_event event st) = event_read_index st /\
  event_write_index (write_event event st)
    = (event_write_index st + Z.of_nat (length event)) mod 65536 /\
  free_space (event_read_index st) (event_write_index (write_event event st))
    = free_space (event_read_index st) (event_write_index st)
      - Z.of_nat (length event) /\
  midi_event_written (write_event event st) = 1 /\
  trace (write_event event st) = trace st.
Proof.
  intros (Hlen & Hr & Hw) Hfit. unfold write_event.
  destruct (Z.gtb_spec (Z.of_nat (length event))
              (free_space (event_read_index st) (event_write_index st)));
    [lia |].
  destruct (write_loop_spec event (event_buffer st) (event_read_index st)
              (event_write_index st) Hlen Hr Hw Hfit) as (H1 & H2 & H3 & H4).
  destruct (write_loop event (event_buffer st) (event_write_index st))
    as [buf w'] eqn:E.
  simpl in *. unfold wf, pending. simpl.
  repeat split; try assumption; try lia.
  - rewrite H2. apply Z.mod_pos_bound. lia.
  - rewrite H2. apply Z.mod_pos_bound. lia.
Qed.

Lemma span_length (buf : list Z) (i n : Z) :
  0 <= i -> 0 <= n -> i + n <= Z.of_nat (length buf) ->
  Z.of_nat (length (span buf i n)) = n.
Proof.
  intros Hi Hn Hlen. unfold span. rewrite length_take, length_drop. lia.
Qed.

(** The occupied bytes are the distance between the indices, modulo the
    capacity; the free space is what is left of capacity - 1. *)
Lemma pending_length (st : state) :
  wf st ->
  Z.of_nat (length (pending st))
  = (event_write_index st - event_read_index st) mod 65536.
Proof.
  intros (Hlen & Hr & Hw). unfold pending, pending_bytes.
  destruct (Z.eqb_spec (event_read_index st) (event_write_index st)) as [-> | Hne].
  - rewrite Z.sub_diag. reflexivity.
  - destruct (Z.ltb_spec (event_read_index st) (event_write_index st)).
    + rewrite span_length by lia. rewrite Z.mod_small by lia. reflexivity.
    + rewrite length_app, Nat2Z.inj_add, !span_length by lia.
      Z.div_mod_to_equations; lia.
Qed.

Lemma free_space_pending (st : state) :
  wf st ->
  free_space (event_read_index st) (event_write_index st)
  = 65536 - 1 - Z.of_nat (length (pending st)).
Proof.
  intros Hwf. rewrite (pending_length st Hwf).
  destruct Hwf as (_ & Hr & Hw). rewrite free_space_spec by assumption. lia.
Qed.

Lemma write_events_fit (chunks : list (list Z)) :
  forall st : state,
    wf st ->
    Z.of_nat (length (concat chunks))
      <= free_space (event_read_index st) (event_write_index st) ->
    wf (write_events chunks st) /\
    pending (write_events chunks st) = pending st ++ concat chunks /\
    event_read_index (write_events chunks st) = event_read_index st /\
    trace (write_events chunks st) = trace st.
Proof.
  induction chunks as [| chunk chunks IH]; intros st Hwf Hfit.
  - simpl. rewrite app_nil_r. auto.
  - simpl concat in *. rewrite length_app, Nat2Z.inj_add in Hfit.
    destruct (write_event_fits chunk st Hwf) as (W1 & W2 & W3 & W4 & W5 & W6 & W7);
      [lia |].
    change (write_events (chunk :: chunks) st)
      with (write_events chunks (write_event chunk st)).
    destruct (IH (write_event chunk st) W1) as (I1 & I2 & I3 & I4).
    + rewrite W3, W5. lia.
    + repeat split; try apply I1.
      * rewrite I2, W2, <- app_assoc. reflexivity.
      * rewrite I3, W3. reflexivity.
      * rewrite I4, W7. reflexivity.
Qed.

Lemma forwarded_app (tr1 tr2 : list call) :
  forwarded (tr1 ++ tr2) = forwarded tr1 ++ forwarded tr2.
Proof. unfold forwarded. apply flat_map_app. Qed.

End ChannelFacts.

(** ** Facts about [render_subbuffer] *)

Section RenderFacts.

Variables samples_per_call bytes_per_call num_subbuffers : Z.

Lemma drained_spans_pending (st : state) :
  concat (drained_spans st) = pending st.
Proof.
  unfold drained_spans, pending, pending_bytes.
  destruct (event_read_index st =? event_write_index st); [reflexivity |].
  destruct (event_read_index st <? event_write_index st); simpl;
    rewrite ?app_nil_r; reflexivity.
Qed.

Lemma drained_spans_count (st : state) : (length (drained_spans st) <= 2)%nat.
Proof.
  unfold drained_spans.
  destruct (event_read_index st =? event_write_index st); [simpl; lia |].
  destruct (event_read_index st <? event_write_index st); simpl; lia.
Qed.

Lemma forwarded_spans (spans : list (list Z)) :
  forwarded (map EAS_WriteMIDIStream spans) = concat spans.
Proof.
  induction spans as [| s spans IH]; [reflexivity |].
  simpl. unfold forwarded in *. simpl. rewrite IH. reflexivity.
Qed.

Lemma render_subbuffer_drains (num : Z) (render_ret : Z * Z) (st : state) :
  let st' := (render_subbuffer samples_per_call bytes_per_call num render_ret st).2 in
  trace st' = trace st ++ map EAS_WriteMIDIStream (drained_spans st)
                ++ [EAS_Render (u32 (num * bytes_per_call)) samples_per_call] /\
  event_read_index st' = event_write_index st /\
  event_write_index st' = event_write_index st /\
  event_buffer st' = event_buffer st /\
  subbuf_counter st' = subbuf_counter st /\
  midi_event_written st' = midi_event_written st /\
  midi_init_state st' = midi_init_state st.
Proof.
  unfold render_subbuffer, drained_spans. destruct render_ret as [res num_generated].
  destruct (Z.eqb_spec (event_read_index st) (event_write_index st)) as [E | _];
    [| destruct (event_read_index st <? event_write_index st)];
    destruct (negb (res =? EAS_SUCCESS));
    try destruct (negb (num_generated =? samples_per_call));
    simpl; rewrite <- ?app_assoc; auto 10.
Qed.

End RenderFacts.


(** ** Well-formed states used in the examples *)

Lemma wf_initial_state : wf initial_state.
Proof.
  unfold wf. cbn [initial_state event_buffer event_read_index event_write_index].
  rewrite length_replicate. lia.
Qed.

Lemma wf_set_indices (r w : Z) (st : state) :
  wf st -> 0 <= r < 65536 -> 0 <= w < 65536 ->
  wf (set_event_write_index w (set_event_read_index r st)).
Proof.
  intros (Hlen & _ & _) Hr Hw. unfold wf.
  cbn [set_event_write_index set_event_read_index event_buffer
       event_read_index event_write_index].
  auto.
Qed.

Ltac indices :=
  cbn [set_event_write_index set_event_read_index initial_state
       event_read_index event_write_index].

(** ** The claims about the transfer channel *)

(** C1 (amended): for every byte sequence passed to [write_event] whose
    length exceeds the current free space (capacity minus one minus the
    occupied bytes), the call leaves the buffer contents, the write index
    and the read index unchanged (no partial write) and emits the
    diagnostic "Event buffer overflow" on stderr.  Nothing is counted: the
    diagnostic is the only effect, every variable of the program keeps its
    value. *)
Theorem write_event_overflow_no_partial_write (event : list Z) (st : state) :
  wf st ->
  Z.of_nat (length event) > 65536 - 1 - Z.of_nat (length (pending st)) ->
  event_buffer (write_event event st) = event_buffer st /\
  event_write_index (write_event event st) = event_write_index st /\
  event_read_index (write_event event st) = event_read_index st /\
  trace (write_event event st)
    = trace st ++ [fprintf_stderr "Event buffer overflow\n" []] /\
  midi_event_written (write_event event st) = midi_event_written st /\
  midi_init_state (write_event event st) = midi_init_state st /\
  subbuf_counter (write_event event st) = subbuf_counter st.
Proof.
  intros Hwf Hlen. rewrite <- free_space_pending in Hlen by assumption.
  rewrite write_event_overflow by assumption. simpl. auto 10.
Qed.

Lemma write_event_overflow_no_partial_write_witness :
  let st := set_event_write_index 0 (set_event_read_index 1 initial_state) in
  event_buffer (write_event [0x90; 60; 100] st) = event_buffer st /\
  event_write_index (write_event [0x90; 60; 100] st) = 0 /\
  event_read_index (write_event [0x90; 60; 100] st) = 1 /\
  trace (write_event [0x90; 60; 100] st)
    = [fprintf_stderr "Event buffer overflow\n" []].
Proof.
  intros st.
  assert (Hwf : wf st) by (apply wf_set_indices; [apply wf_initial_state | lia | lia]).
  destruct (write_event_overflow_no_partial_write [0x90; 60; 100] st Hwf)
    as (H1 & H2 & H3 & H4 & _).
  - rewrite (pending_length st Hwf). unfold st. indices.
    change ((0 - 1) mod 65536) with 65535. cbn [length]. lia.
  - repeat split; assumption.
Defined.

(** C1, as stated, fails: an overflowing [write_event] increments no
    counter.  With the read index at 1 and the write index at 0 the channel
    is full; after the dropped call no integer variable of the program is
    one more than before. *)
Lemma write_event_overflow_increments_nothing :
  let st := set_event_write_index 0 (set_event_read_index 1 initial_state) in
  let st' := write_event [0x90; 60; 100] st in
  wf st /\
  Z.of_nat (length [0x90; 60; 100]) > 65536 - 1 - Z.of_nat (length (pending st)) /\
  ~ (exists counter : state -> Z,
        In counter [event_read_index; event_write_index; midi_event_written;
                    midi_init_state; subbuf_counter] /\
        counter st' = counter st + 1).
Proof.
  intros st st'.
  assert (Hwf : wf st) by (apply wf_set_indices; [apply wf_initial_state | lia | lia]).
  assert (Hlen : Z.of_nat (length [0x90; 60; 100])
                 > 65536 - 1 - Z.of_nat (length (pending st)))
    by (rewrite (pending_length st Hwf); unfold st; indices;
        change ((0 - 1) mod 65536) with 65535; cbn [length]; lia).
  split; [exact Hwf | split; [exact Hlen |]].
  intros (counter & Hin & Hinc).
  unfold st' in Hinc. rewrite write_event_overflow in Hinc
    by (rewrite free_space_pending by exact Hwf; exact Hlen).
  cbn [In] in Hin.
  destruct Hin as [<- | [<- | [<- | [<- | [<- | []]]]]];
    cbn [do_call event_read_index event_write_index midi_event_written
         midi_init_state subbuf_counter] in Hinc; lia.
Qed.

(** C2: for any sequence of byte chunks enqueued with [write_event] between
    two dequeues (the channel is empty when the first chunk arrives) whose
    total size is less than capacity - 1 = 65535, the bytes that
    [render_subbuffer] forwards to [EAS_WriteMIDIStream] are the
    concatenation of the chunks, in order, nothing lost or repeated, in at
    most two spans, and the read index then equals the write index that was
    read; the position of the indices, hence wrapping, plays no role. *)
Theorem enqueue_dequeue_roundtrip
  (samples_per_call bytes_per_call num : Z) (render_ret : Z * Z)
  (chunks : list (list Z)) (st : state) :
  wf st ->
  event_read_index st = event_write_index st ->
  Z.of_nat (length (concat chunks)) < 65536 - 1 ->
  let st1 := write_events chunks st in
  let st2 := (render_subbuffer samples_per_call bytes_per_call num render_ret st1).2 in
  forwarded (trace st2) = forwarded (trace st) ++ concat chunks /\
  (exists spans : list (list Z),
      (length spans <= 2)%nat /\ concat spans = concat chunks /\
      trace st2 = trace st ++ map EAS_WriteMIDIStream spans
                    ++ [EAS_Render (u32 (num * bytes_per_call)) samples_per_call]) /\
  event_read_index st2 = event_write_index st1 /\
  event_write_index st2 = event_write_index st1 /\
  pending st2 = [].
Proof.
  intros Hwf Hempty Hlen st1 st2.
  assert (Hp0 : pending st = []).
  { unfold pending, pending_bytes. rewrite Hempty, Z.eqb_refl. reflexivity. }
  destruct (write_events_fit chunks st Hwf) as (W1 & W2 & W3 & W4).
  { rewrite free_space_pending, Hp0 by assumption. simpl. lia. }
  fold st1 in W1, W2, W3, W4. rewrite Hp0 in W2. simpl in W2.
  destruct (render_subbuffer_drains samples_per_call bytes_per_call num render_ret st1)
    as (R1 & R2 & R3 & R4 & _).
  fold st2 in R1, R2, R3, R4.
  repeat split.
  - rewrite R1, !forwarded_app, forwarded_spans, drained_spans_pending, W2, W4.
    simpl. rewrite app_nil_r. reflexivity.
  - exists (drained_spans st1). split; [apply drained_spans_count |].
    rewrite drained_spans_pending, W2, R1, W4. auto.
  - exact R2.
  - exact R3.
  - unfold pending, pending_bytes. rewrite R2, R3, Z.eqb_refl. reflexivity.
Qed.

(** The round trip at a place where the occupied region crosses the end of
    the array: five bytes enqueued from index 65534 on. *)
Lemma enqueue_dequeue_roundtrip_witness :
  let st := set_event_write_index 65534 (set_event_read_index 65534 initial_state) in
  let st1 := write_events [[0x90; 60; 100]; [64; 90]] st in
  let st2 := (render_subbuffer 128 512 0 (0, 128) st1).2 in
  forwarded (trace st2) = [0x90; 60; 100; 64; 90] /\
  event_write_index st1 = 3 /\ event_read_index st2 = 3.
Proof.
  intros st st1 st2.
  assert (Hwf : wf st) by (apply wf_set_indices; [apply wf_initial_state | lia | lia]).
  destruct (enqueue_dequeue_roundtrip 128 512 0 (0, 128)
              [[0x90; 60; 100]; [64; 90]] st Hwf)
    as (H1 & _ & H3 & _); [reflexivity | cbn [concat length app]; lia |].
  fold st1 in H1, H3. fold st2 in H1, H3.
  split; [exact H1 |].
  assert (E : event_write_index st1 = 3) by (vm_compute; reflexivity).
  split; [exact E | rewrite H3; exact E].
Defined.

(** ** Facts about the encoder *)

Section EncoderFacts.

Lemma u8_mod (x : Z) : u8 x = x mod 256.
Proof. unfold u8. change 0xff with (Z.ones 8). rewrite Z.land_ones by lia. reflexivity. Qed.

Lemma u8_small (x : Z) : 0 <= x < 256 -> u8 x = x.
Proof. intros H. rewrite u8_mod. apply Z.mod_small. exact H. Qed.

Lemma u8_range (x : Z) : 0 <= u8 x < 256.
Proof. rewrite u8_mod. apply Z.mod_pos_bound. lia. Qed.

Lemma u8_lor (a b : Z) : 0 <= a < 256 -> 0 <= b < 256 -> u8 (Z.lor a b) = Z.lor a b.
Proof.
  intros Ha Hb. unfold u8. rewrite Z.land_lor_distr_l.
  fold (u8 a). fold (u8 b). rewrite !u8_small by assumption. reflexivity.
Qed.

Lemma u8_land_7f (x : Z) : u8 (Z.land x 0x7f) = Z.land x 0x7f.
Proof.
  apply u8_small. change 0x7f with (Z.ones 7). rewrite Z.land_ones by lia.
  pose proof (Z.mod_pos_bound x (2 ^ 7)). lia.
Qed.

Lemma lor_lower (a b : Z) : 0 <= b -> a <= Z.lor a b.
Proof.
  intros Hb. pose proof (Z.sub_lor_l_same_l b a) as H.
  assert (0 <= Z.land b (Z.lnot a)) by (apply Z.land_nonneg; auto).
  lia.
Qed.

Lemma lor_range (a b : Z) :
  0 <= a < 256 -> 0 <= b < 256 -> a <= Z.lor a b < 256.
Proof.
  intros Ha Hb. split; [apply lor_lower; lia |].
  rewrite <- (u8_lor a b) by assumption. apply u8_range.
Qed.

Lemma write_running_spec (status : Z) (data : list Z) (running_status : Z)
  (st : state) :
  write_running (status :: data) running_status st
  = (status,
     write_event (if running_status =? status then data else status :: data) st).
Proof.
  unfold write_running. simpl hd. simpl tl. rewrite Z.eqb_sym.
  destruct (Z.eqb_spec running_status status) as [-> | _]; reflexivity.
Qed.

Lemma process_event_status_and_data (event : snd_seq_event) (data : list Z)
  (running_status : Z) (st : state) :
  status_and_data event = Some data ->
  process_event event running_status st = write_running data running_status st.
Proof.
  destruct event; simpl; try discriminate; try (intros [= <-]; reflexivity).
  destruct ((param >=? 0) && (param <? 32)); [intros [= <-]; reflexivity | discriminate].
Qed.

Lemma note_data_length (c : Z) (event : snd_seq_event) :
  note_on_channel c event -> length (note_data event) = 2%nat.
Proof. destruct event; simpl; intros H; try contradiction; reflexivity. Qed.

Lemma note_status_and_data (c : Z) (event : snd_seq_event) :
  note_on_channel c event ->
  status_and_data event = Some (u8 (Z.lor 0x90 c) :: note_data event).
Proof. destruct event; simpl; intros H; try contradiction; subst; reflexivity. Qed.

(** Once the running status is that of the channel's note-on, every
    further note event passes its two data bytes only. *)
Lemma note_events_running (c : Z) (events : list snd_seq_event) :
  forall st : state,
    Forall (note_on_channel c) events ->
    process_events events (u8 (Z.lor 0x90 c)) st
    = (u8 (Z.lor 0x90 c), write_events (map note_data events) st).
Proof.
  induction events as [| event events IH]; intros st Hall; [reflexivity |].
  inversion Hall as [| ? ? Hev Hrest]; subst.
  simpl process_events.
  rewrite (process_event_status_and_data _ _ _ _ (note_status_and_data c event Hev)).
  rewrite write_running_spec, Z.eqb_refl.
  rewrite IH by assumption. reflexivity.
Qed.

Lemma concat_note_data_length (c : Z) (events : list snd_seq_event) :
  Forall (note_on_channel c) events ->
  Z.of_nat (length (concat (map note_data events)))
  = 2 * Z.of_nat (length events).
Proof.
  induction 1 as [| event events Hev _ IH]; [reflexivity |].
  simpl map. simpl concat. rewrite length_app, (note_data_length c event Hev).
  simpl length. lia.
Qed.

Lemma note_data_below_status (event : snd_seq_event) (status : Z) :
  seven_bit_note event -> 128 <= status ->
  count_occ Z.eq_dec (note_data event) status = 0%nat.
Proof.
  intros H7 Hs. apply count_occ_not_In. intros Hin.
  destruct event; simpl in *; try contradiction;
    rewrite ?u8_small in Hin by lia; intuition lia.
Qed.

Lemma concat_note_data_no_status (events : list snd_seq_event) (status : Z) :
  Forall seven_bit_note events -> 128 <= status ->
  count_occ Z.eq_dec (concat (map note_data events)) status = 0%nat.
Proof.
  intros Hall Hs. induction Hall as [| event events H7 _ IH]; [reflexivity |].
  simpl map. simpl concat. rewrite count_occ_app, IH.
  rewrite note_data_below_status by assumption. reflexivity.
Qed.

Lemma write_event_midi_init_state (event : list Z) (st : state) :
  midi_init_state (write_event event st) = midi_init_state st.
Proof.
  unfold write_event.
  destruct (Z.of_nat (length event)
              >? free_space (event_read_index st) (event_write_index st));
    [reflexivity |].
  destruct (write_loop event (event_buffer st) (event_write_index st)).
  reflexivity.
Qed.

Lemma process_event_midi_init_state (event : snd_seq_event)
  (running_status : Z) (st : state) :
  midi_init_state (process_event event running_status st).2
  = midi_init_state st.
Proof.
  destruct event; cbn [process_event snd]; try reflexivity;
    unfold write_running;
    try (destruct (negb _); cbn [snd]; apply write_event_midi_init_state);
    try apply write_event_midi_init_state.
  - destruct ((param >=? 0) && (param <? 32)); [| reflexivity].
    destruct (negb _); cbn [snd]; apply write_event_midi_init_state.
  - destruct client_name; reflexivity.
  - destruct client_name; reflexivity.
Qed.

End EncoderFacts.

(** ** The claims about the encoder *)

(** C3 (amended): for every non-empty sequence of note-on and note-off
    events on one channel [c], processed by [process_event] from
    [running_status = 0], the chunks handed to [write_event] are the
    status byte [0x90 | c] followed by the two data bytes of the first
    event, then the two data bytes of each further event: the status byte
    is emitted once for the run.  When the bytes fit, they are what the
    channel gains; with 7-bit notes and velocities the value [0x90 | c]
    occurs exactly once among them.  In particular note-on (0, 60, 100)
    then note-on (0, 64, 90) emit [0x90, 60, 100] then [64, 90]. *)
Theorem note_run_emits_status_once (c : Z) (event : snd_seq_event)
  (events : list snd_seq_event) (st : state) :
  0 <= c < 256 ->
  Forall (note_on_channel c) (event :: events) ->
  let status := Z.lor 0x90 c in
  let chunks := (status :: note_data event) :: map note_data events in
  process_events (event :: events) 0 st = (status, write_events chunks st) /\
  (wf st ->
   1 + 2 * Z.of_nat (length (event :: events))
     <= free_space (event_read_index st) (event_write_index st) ->
   pending (process_events (event :: events) 0 st).2
   = pending st ++ status :: note_data event ++ concat (map note_data events)) /\
  (Forall seven_bit_note (event :: events) ->
   count_occ Z.eq_dec (concat chunks) status = 1%nat) /\
  (forall st0 : state,
      process_event (SND_SEQ_EVENT_NOTEON 0 60 100) 0 st0
      = (0x90, write_event [0x90; 60; 100] st0) /\
      process_event (SND_SEQ_EVENT_NOTEON 0 64 90) 0x90
        (write_event [0x90; 60; 100] st0)
      = (0x90, write_event [64; 90] (write_event [0x90; 60; 100] st0))).
Proof.
  intros Hc Hall status chunks.
  inversion Hall as [| ? ? Hev Hrest]; subst.
  pose proof (lor_range 0x90 c ltac:(lia) Hc) as Hstatus. fold status in Hstatus.
  assert (Hrun : process_events (event :: events) 0 st
                 = (status, write_events chunks st)).
  { simpl process_events.
    rewrite (process_event_status_and_data _ _ _ _ (note_status_and_data c event Hev)).
    rewrite write_running_spec.
    rewrite u8_lor by lia. fold status.
    destruct (Z.eqb_spec 0 status) as [E | _]; [lia |].
    unfold status at 1. rewrite <- (u8_lor 0x90 c) by lia.
    rewrite note_events_running by assumption.
    rewrite u8_lor by lia. reflexivity. }
  split; [exact Hrun |]. split; [| split].
  - intros Hwf Hfit. rewrite Hrun. cbn [snd].
    destruct (write_events_fit chunks st Hwf) as (_ & W2 & _).
    + unfold chunks. simpl concat. simpl length.
      rewrite length_app, Nat2Z.inj_succ, Nat2Z.inj_add.
      rewrite (concat_note_data_length c events Hrest).
      rewrite (note_data_length c event Hev).
      simpl length in Hfit. lia.
    + rewrite W2. reflexivity.
  - intros H7. inversion H7 as [| ? ? H7e H7r]; subst.
    unfold chunks. simpl concat.
    rewrite count_occ_cons_eq by reflexivity.
    rewrite count_occ_app.
    rewrite note_data_below_status by (assumption || lia).
    rewrite concat_note_data_no_status by (assumption || lia).
    reflexivity.
  - intros st0. split; reflexivity.
Qed.

Lemma note_run_emits_status_once_witness :
  (process_events
     [SND_SEQ_EVENT_NOTEON 0 60 100; SND_SEQ_EVENT_NOTEON 0 64 90]
     0 initial_state).1 = 0x90 /\
  pending
    (process_events
       [SND_SEQ_EVENT_NOTEON 0 60 100; SND_SEQ_EVENT_NOTEON 0 64 90]
       0 initial_state).2 = [0x90; 60; 100; 64; 90] /\
  count_occ Z.eq_dec [0x90; 60; 100; 64; 90] 0x90 = 1%nat.
Proof.
  assert (Hall : Forall (note_on_channel 0)
                   [SND_SEQ_EVENT_NOTEON 0 60 100; SND_SEQ_EVENT_NOTEON 0 64 90])
    by (repeat constructor).
  assert (H7 : Forall seven_bit_note
                 [SND_SEQ_EVENT_NOTEON 0 60 100; SND_SEQ_EVENT_NOTEON 0 64 90])
    by (repeat constructor; simpl; lia).
  destruct (note_run_emits_status_once 0 _ _ initial_state ltac:(lia) Hall)
    as (H1 & H2 & H3 & _).
  split; [rewrite H1; reflexivity |]. split.
  - rewrite H2; [reflexivity | apply wf_initial_state |].
    cbn [initial_state event_read_index event_write_index length].
    vm_compute. discriminate.
  - exact (H3 H7).
Defined.

(** C3, as stated, fails: an event that does not fit is dropped whole, its
    status byte included, and the events after it in the run are enqueued
    without one.  With two bytes free, note-on (0, 60, 100) then note-on
    (0, 64, 90): the first is dropped, the channel gains [64, 90], and the
    status byte 0x90 is not among the bytes enqueued. *)
Lemma note_run_overflow_loses_the_status_byte :
  let st := set_event_write_index 65533 (set_event_read_index 0 initial_state) in
  let run :=
    process_events
      [SND_SEQ_EVENT_NOTEON 0 60 100; SND_SEQ_EVENT_NOTEON 0 64 90] 0 st in
  wf st /\
  free_space (event_read_index st) (event_write_index st) = 2 /\
  pending run.2 = pending st ++ [64; 90] /\
  ~ (exists enqueued : list Z,
        pending run.2 = pending st ++ enqueued /\
        count_occ Z.eq_dec enqueued (Z.lor 0x90 0) = 1%nat).
Proof.
  intros st run.
  assert (Hwf : wf st) by (apply wf_set_indices; [apply wf_initial_state | lia | lia]).
  assert (Hfree : free_space (event_read_index st) (event_write_index st) = 2)
    by (unfold st; indices; vm_compute; reflexivity).
  set (st1 := do_call (fprintf_stderr "Event buffer overflow\n" []) st).
  assert (E1 : process_event (SND_SEQ_EVENT_NOTEON 0 60 100) 0 st = (0x90, st1)).
  { rewrite (process_event_status_and_data _ [0x90; 60; 100]) by reflexivity.
    rewrite write_running_spec. cbn [Z.eqb].
    rewrite write_event_overflow by (rewrite Hfree; cbn [length]; lia).
    reflexivity. }
  assert (E2 : process_event (SND_SEQ_EVENT_NOTEON 0 64 90) 0x90 st1
               = (0x90, write_event [64; 90] st1)).
  { rewrite (process_event_status_and_data _ [0x90; 64; 90]) by reflexivity.
    rewrite write_running_spec. reflexivity. }
  assert (Hrun : pending run.2 = pending st ++ [64; 90]).
  { unfold run. cbn [process_events]. rewrite E1, E2. cbn [snd].
    destruct (write_event_fits [64; 90] st1 Hwf) as (_ & W2 & _);
      [| exact W2].
    change (free_space (event_read_index st1) (event_write_index st1))
      with (free_space (event_read_index st) (event_write_index st)).
    rewrite Hfree. cbn [length]. lia. }
  split; [exact Hwf |]. split; [exact Hfree |]. split; [exact Hrun |].
  intros (enqueued & Heq & Hcount).
  rewrite Hrun in Heq. apply app_inv_head in Heq. subst enqueued.
  vm_compute in Hcount. discriminate Hcount.
Qed.

(** C6: for every raw system-exclusive event, [process_event] hands the
    payload to [write_event] as it is and sets [running_status] to 0,
    whatever it was; so a note-on, a system-exclusive block and the same
    note-on again emit the status byte 0x90 with both note-ons. *)
Theorem sysex_passes_through_and_resets (ptr : list Z) (running_status : Z)
  (st : state) :
  process_event (SND_SEQ_EVENT_SYSEX ptr) running_status st
  = (0, write_event ptr st) /\
  (wf st ->
   Z.of_nat (length ptr)
     <= free_space (event_read_index st) (event_write_index st) ->
   pending (write_event ptr st) = pending st ++ ptr) /\
  process_events
    [SND_SEQ_EVENT_NOTEON 0 60 100; SND_SEQ_EVENT_SYSEX ptr;
     SND_SEQ_EVENT_NOTEON 0 60 100] 0 st
  = (0x90, write_events [[0x90; 60; 100]; ptr; [0x90; 60; 100]] st) /\
  (wf st ->
   6 + Z.of_nat (length ptr)
     <= free_space (event_read_index st) (event_write_index st) ->
   pending
     (process_events
        [SND_SEQ_EVENT_NOTEON 0 60 100; SND_SEQ_EVENT_SYSEX ptr;
         SND_SEQ_EVENT_NOTEON 0 60 100] 0 st).2
   = pending st ++ [0x90; 60; 100] ++ ptr ++ [0x90; 60; 100]).
Proof.
  assert (Hrun : process_events
            [SND_SEQ_EVENT_NOTEON 0 60 100; SND_SEQ_EVENT_SYSEX ptr;
             SND_SEQ_EVENT_NOTEON 0 60 100] 0 st
          = (0x90, write_events [[0x90; 60; 100]; ptr; [0x90; 60; 100]] st))
    by reflexivity.
  split; [reflexivity |]. split; [| split; [exact Hrun |]].
  - intros Hwf Hfit. apply (write_event_fits ptr st Hwf Hfit).
  - intros Hwf Hfit. rewrite Hrun. cbn [snd].
    destruct (write_events_fit [[0x90; 60; 100]; ptr; [0x90; 60; 100]] st Hwf)
      as (_ & W2 & _).
    + cbn [concat app length]. rewrite !length_app. cbn [length]. lia.
    + rewrite W2. cbn [concat]. rewrite app_nil_r. reflexivity.
Qed.

Lemma sysex_passes_through_and_resets_witness :
  pending
    (process_events
       [SND_SEQ_EVENT_NOTEON 0 60 100; SND_SEQ_EVENT_SYSEX [0xF0; 0x7E; 0xF7];
        SND_SEQ_EVENT_NOTEON 0 60 100] 0 initial_state).2
  = [0x90; 60; 100; 0xF0; 0x7E; 0xF7; 0x90; 60; 100].
Proof.
  destruct (sysex_passes_through_and_resets [0xF0; 0x7E; 0xF7] 0 initial_state)
    as (_ & _ & _ & H).
  rewrite H; [reflexivity | apply wf_initial_state |].
  cbn [initial_state event_read_index event_write_index length].
  vm_compute. discriminate.
Defined.

(** C7: for every 14-bit control-change event with controller number in
    [0, 32), [process_event] emits the bytes 0xB0 | channel, param,
    (value >> 7) & 0x7f, param + 32, value & 0x7f: five bytes, or the last
    four when the running status is already 0xB0 | channel.  Controller 1
    with value 0x1234 on channel 0 emits
    [0xB0, 1, (0x1234 >> 7) & 0x7f, 33, 0x1234 & 0x7f]. *)
Theorem control14_encoding (channel param value running_status : Z)
  (st : state) :
  0 <= channel < 256 ->
  0 <= param < 32 ->
  let status := Z.lor 0xB0 channel in
  let data := [param; Z.land (Z.shiftr value 7) 0x7f;
               param + 32; Z.land value 0x7f] in
  let emitted := if running_status =? status then data else status :: data in
  process_event (SND_SEQ_EVENT_CONTROL14 channel param value) running_status st
  = (status, write_event emitted st) /\
  length emitted = (if running_status =? status then 4%nat else 5%nat) /\
  (wf st ->
   5 <= free_space (event_read_index st) (event_write_index st) ->
   pending
     (process_event (SND_SEQ_EVENT_CONTROL14 channel param value)
        running_status st).2
   = pending st ++ emitted) /\
  process_event (SND_SEQ_EVENT_CONTROL14 0 1 0x1234) 0 st
  = (0xB0,
     write_event [0xB0; 1; Z.land (Z.shiftr 0x1234 7) 0x7f; 33;
                  Z.land 0x1234 0x7f] st).
Proof.
  intros Hc Hp status data emitted.
  assert (Hrun : process_event (SND_SEQ_EVENT_CONTROL14 channel param value)
                   running_status st = (status, write_event emitted st)).
  { unfold process_event.
    destruct (Z.geb_spec param 0); [| lia].
    destruct (Z.ltb_spec param 32); [| lia].
    simpl andb. cbv iota.
    rewrite write_running_spec.
    rewrite u8_lor, !u8_land_7f, !u8_small by lia. reflexivity. }
  split; [exact Hrun |]. split; [| split].
  - unfold emitted. destruct (running_status =? status); reflexivity.
  - intros Hwf Hfit. rewrite Hrun. cbn [snd].
    apply (write_event_fits emitted st Hwf).
    unfold emitted. destruct (running_status =? status); simpl length; lia.
  - reflexivity.
Qed.

Lemma control14_encoding_witness :
  pending (process_event (SND_SEQ_EVENT_CONTROL14 0 1 0x1234) 0 initial_state).2
  = [0xB0; 1; 0x24; 33; 0x34].
Proof.
  destruct (control14_encoding 0 1 0x1234 0 initial_state ltac:(lia) ltac:(lia))
    as (_ & _ & H & _).
  rewrite H; [reflexivity | apply wf_initial_state |].
  cbn [initial_state event_read_index event_write_index].
  vm_compute. discriminate.
Defined.

(** C8: for every note-off event on channel [c] with note [n] and any
    velocity, [process_event] does what it does for the note-on event with
    the same channel and note and velocity 0: the status byte is
    [0x90 | c], under the same running-status compression, and it is never
    [0x80 | c]. *)
Theorem noteoff_is_noteon_velocity_zero (c n velocity running_status : Z)
  (st : state) :
  0 <= c < 16 ->
  0 <= n < 256 ->
  let status := Z.lor 0x90 c in
  let emitted := if running_status =? status then [n; 0] else [status; n; 0] in
  process_event (SND_SEQ_EVENT_NOTEOFF c n velocity) running_status st
  = process_event (SND_SEQ_EVENT_NOTEON c n 0) running_status st /\
  process_event (SND_SEQ_EVENT_NOTEOFF c n velocity) running_status st
  = (status, write_event emitted st) /\
  (wf st ->
   3 <= free_space (event_read_index st) (event_write_index st) ->
   pending
     (process_event (SND_SEQ_EVENT_NOTEOFF c n velocity) running_status st).2
   = pending st ++ emitted) /\
  status <> Z.lor 0x80 c.
Proof.
  intros Hc Hn status emitted.
  assert (Hne : status <> Z.lor 0x80 c).
  { unfold status. intros E.
    apply (f_equal (fun x => Z.testbit x 4)) in E.
    rewrite !Z.lor_spec in E.
    assert (Hbit : Z.testbit c 4 = false).
    { apply Z.bits_above_log2; [lia |].
      destruct (Z.eq_dec c 0) as [-> | ?]; [simpl; lia |].
      apply Z.log2_lt_pow2; lia. }
    rewrite Hbit in E. discriminate E. }
  assert (Hrun : process_event (SND_SEQ_EVENT_NOTEOFF c n velocity)
                   running_status st = (status, write_event emitted st)).
  { unfold process_event. rewrite write_running_spec.
    rewrite u8_lor, u8_small by lia. reflexivity. }
  split; [reflexivity |]. split; [exact Hrun |]. split; [| exact Hne].
  intros Hwf Hfit. rewrite Hrun. cbn [snd].
  apply (write_event_fits emitted st Hwf).
  unfold emitted. destruct (running_status =? status); cbn [length]; lia.
Qed.

Lemma noteoff_is_noteon_velocity_zero_witness :
  process_event (SND_SEQ_EVENT_NOTEOFF 0 60 64) 0 initial_state
  = process_event (SND_SEQ_EVENT_NOTEON 0 60 0) 0 initial_state /\
  pending (process_event (SND_SEQ_EVENT_NOTEOFF 0 60 64) 0 initial_state).2
  = [0x90; 60; 0] /\
  pending (process_event (SND_SEQ_EVENT_NOTEOFF 0 60 64) 0x90 initial_state).2
  = [60; 0].
Proof.
  destruct (noteoff_is_noteon_velocity_zero 0 60 64 0 initial_state
              ltac:(lia) ltac:(lia)) as (H1 & _ & H3 & _).
  destruct (noteoff_is_noteon_velocity_zero 0 60 64 0x90 initial_state
              ltac:(lia) ltac:(lia)) as (_ & _ & H3' & _).
  split; [exact H1 |]. split.
  - rewrite H3; [reflexivity | apply wf_initial_state |].
    cbn [initial_state event_read_index event_write_index].
    vm_compute. discriminate.
  - rewrite H3'; [reflexivity | apply wf_initial_state |].
    cbn [initial_state event_read_index event_write_index].
    vm_compute. discriminate.
Defined.

(** C10: [process_event] sets [running_status] to the new status byte
    before it calls [write_event].  When a channel-voice event whose status
    byte differs from [running_status] does not fit in the free space, its
    bytes are dropped whole, the channel is left as it was, yet
    [running_status] is the new status byte; the next event with that
    status byte is then enqueued without a status byte, although no status
    byte for it has entered the channel. *)
Theorem overflow_keeps_new_running_status (event next : snd_seq_event)
  (status : Z) (data data' : list Z) (running_status : Z) (st : state) :
  wf st ->
  status_and_data event = Some (status :: data) ->
  status <> running_status ->
  Z.of_nat (length (status :: data))
    > free_space (event_read_index st) (event_write_index st) ->
  let rs1 := (process_event event running_status st).1 in
  let st1 := (process_event event running_status st).2 in
  rs1 = status /\
  st1 = do_call (fprintf_stderr "Event buffer overflow\n" []) st /\
  pending st1 = pending st /\
  (status_and_data next = Some (status :: data') ->
   Z.of_nat (length data')
     <= free_space (event_read_index st) (event_write_index st) ->
   (process_event next rs1 st1).1 = status /\
   (process_event next rs1 st1).2 = write_event data' st1 /\
   pending (process_event next rs1 st1).2 = pending st ++ data').
Proof.
  intros Hwf Hev Hne Hover rs1 st1.
  assert (Hrun : process_event event running_status st
                 = (status, do_call (fprintf_stderr "Event buffer overflow\n" []) st)).
  { rewrite (process_event_status_and_data _ _ _ _ Hev), write_running_spec.
    destruct (Z.eqb_spec running_status status) as [E | _]; [congruence |].
    rewrite write_event_overflow by assumption. reflexivity. }
  unfold rs1, st1. rewrite Hrun. cbn [fst snd].
  split; [reflexivity |]. split; [reflexivity |]. split; [reflexivity |].
  intros Hnext Hfit.
  rewrite (process_event_status_and_data _ _ _ _ Hnext), write_running_spec.
  rewrite Z.eqb_refl. cbn [fst snd].
  split; [reflexivity |]. split; [reflexivity |].
  apply (write_event_fits data' (do_call _ st)); assumption.
Qed.

(** Two free cells: the three bytes of the first note-on are dropped, the
    second note-on leaves its two data bytes behind whatever was pending,
    with no status byte before them. *)
Lemma overflow_keeps_new_running_status_witness :
  let st := set_event_write_index 65533 (set_event_read_index 0 initial_state) in
  let rs1 := (process_event (SND_SEQ_EVENT_NOTEON 0 60 100) 0 st).1 in
  let st1 := (process_event (SND_SEQ_EVENT_NOTEON 0 60 100) 0 st).2 in
  rs1 = 0x90 /\
  pending st1 = pending st /\
  pending (process_event (SND_SEQ_EVENT_NOTEON 0 64 90) rs1 st1).2
  = pending st ++ [64; 90].
Proof.
  intros st.
  assert (Hwf : wf st) by (apply wf_set_indices; [apply wf_initial_state | lia | lia]).
  destruct (overflow_keeps_new_running_status
              (SND_SEQ_EVENT_NOTEON 0 60 100) (SND_SEQ_EVENT_NOTEON 0 64 90)
              0x90 [60; 100] [64; 90] 0 st Hwf)
    as (H1 & _ & H3 & H4).
  - reflexivity.
  - lia.
  - unfold st. indices. vm_compute. reflexivity.
  - destruct H4 as (_ & _ & H6).
    + reflexivity.
    + unfold st. indices. vm_compute. discriminate.
    + repeat split; assumption.
Defined.


(** ** Facts about [output_subbuffer] and the loops of [main_loop] *)

Section LoopFacts.

Variables samples_per_call bytes_per_call num_subbuffers : Z.

Lemma do_calls_nil (st : state) : do_calls [] st = st.
Proof. destruct st. unfold do_calls. simpl. rewrite app_nil_r. reflexivity. Qed.

Lemma do_calls_cons (c : call) (cs : list call) (st : state) :
  do_calls (c :: cs) st = do_calls cs (do_call c st).
Proof. unfold do_calls, do_call. simpl. rewrite <- app_assoc. reflexivity. Qed.

Lemma do_calls_app (cs cs' : list call) (st : state) :
  do_calls (cs ++ cs') st = do_calls cs' (do_calls cs st).
Proof. unfold do_calls. simpl. rewrite app_assoc. reflexivity. Qed.

Lemma output_loop_zero (writei_rets : list Z) (buf_ptr : Z) (st : state) :
  output_loop writei_rets 0 buf_ptr st = Some (0, writei_rets, st).
Proof. destruct writei_rets; reflexivity. Qed.

Lemma output_loop_cons (written : Z) (writei_rets : list Z)
  (remaining buf_ptr : Z) (st : state) :
  remaining <> 0 ->
  output_loop (written :: writei_rets) remaining buf_ptr st
  = if written <? 0
    then Some (-1, writei_rets, do_call (snd_pcm_writei buf_ptr remaining) st)
    else output_loop writei_rets (u64 (remaining - written))
           (buf_ptr + Z.shiftl written 2)
           (do_call (snd_pcm_writei buf_ptr remaining) st).
Proof.
  intros Hne. simpl.
  destruct (Z.eqb_spec remaining 0); [contradiction | reflexivity].
Qed.

(** Whatever the device answers, the loop of [output_subbuffer] only calls
    [snd_pcm_writei]; the first call asks for the whole period. *)
Lemma output_loop_calls (writei_rets : list Z) :
  forall (remaining buf_ptr : Z) (st : state) (o : Z) (rest : list Z)
         (st' : state),
    output_loop writei_rets remaining buf_ptr st = Some (o, rest, st') ->
    exists calls : list call,
      st' = do_calls calls st /\
      forallb is_snd_pcm_writei calls = true /\
      (o = 0 \/ o = -1) /\
      (remaining <> 0 ->
       exists calls', calls = snd_pcm_writei buf_ptr remaining :: calls').
Proof.
  induction writei_rets as [| written writei_rets IH];
    intros remaining buf_ptr st o rest st' Hrun.
  - simpl in Hrun. destruct (Z.eqb_spec remaining 0); [| discriminate].
    injection Hrun as <- <- <-. exists []. rewrite do_calls_nil.
    repeat split; auto. contradiction.
  - destruct (Z.eq_dec remaining 0) as [-> | Hne].
    + rewrite output_loop_zero in Hrun. injection Hrun as <- <- <-.
      exists []. rewrite do_calls_nil. repeat split; auto. contradiction.
    + rewrite output_loop_cons in Hrun by assumption.
      destruct (written <? 0).
      * injection Hrun as <- <- <-.
        exists [snd_pcm_writei buf_ptr remaining].
        repeat split; auto. intros _. eexists. reflexivity.
      * apply IH in Hrun. destruct Hrun as (calls & -> & Hall & Ho & _).
        exists (snd_pcm_writei buf_ptr remaining :: calls).
        rewrite do_calls_cons. repeat split; auto.
        intros _. eexists. reflexivity.
Qed.

(** Partial writes are retried until the period is complete or the device
    reports an error. *)
Lemma output_loop_device_writes (ws : list Z) (remaining result : Z) :
  device_writes ws remaining result ->
  forall (rest : list Z) (buf_ptr : Z) (st : state),
    0 <= remaining < 2 ^ 64 ->
    output_loop (ws ++ rest) remaining buf_ptr st
    = Some (result, rest, do_calls (writei_calls ws remaining buf_ptr) st).
Proof.
  induction 1 as [| w remaining Hne Hw | w ws remaining result Hne Hw Hdev IH];
    intros rest buf_ptr st Hrange.
  - simpl app. rewrite output_loop_zero, do_calls_nil. reflexivity.
  - simpl app. rewrite output_loop_cons by assumption.
    destruct (Z.ltb_spec w 0); [| lia]. reflexivity.
  - simpl app. rewrite output_loop_cons by assumption.
    destruct (Z.ltb_spec w 0); [lia |].
    unfold u64. rewrite Z.mod_small by lia.
    rewrite IH by lia. simpl writei_calls. rewrite do_calls_cons. reflexivity.
Qed.

Lemma output_subbuffer_accepting (num : Z) (rest : list Z) (st : state) :
  0 < samples_per_call < 2 ^ 64 ->
  output_subbuffer samples_per_call bytes_per_call num
    (samples_per_call :: rest) st
  = Some (0, rest,
          do_call (snd_pcm_writei (u32 (num * bytes_per_call)) samples_per_call)
            st).
Proof.
  intros Hspc. unfold output_subbuffer.
  assert (Hdev : device_writes [samples_per_call] samples_per_call 0).
  { apply device_writes_partial; [lia | lia |].
    rewrite Z.sub_diag. apply device_writes_done. }
  rewrite (output_loop_device_writes _ _ _ Hdev rest) by lia.
  reflexivity.
Qed.

Lemma prefill_loop_calls (nums : list Z) :
  forall (writei_rets rest : list Z) (st st' : state),
    prefill_loop samples_per_call bytes_per_call nums writei_rets st
    = Some (rest, st') ->
    exists per_slot : list (list call),
      st' = do_calls (concat per_slot) st /\
      Forall2 (slot_writes samples_per_call bytes_per_call) nums per_slot.
Proof.
  induction nums as [| i nums IH]; intros writei_rets rest st st' Hrun.
  - injection Hrun as <- <-. exists []. cbn [concat]. rewrite do_calls_nil.
    split; [reflexivity | constructor].
  - simpl in Hrun.
    destruct (output_subbuffer samples_per_call bytes_per_call i writei_rets st)
      as [[[o rets1] st1] |] eqn:Hout; [| discriminate].
    apply output_loop_calls in Hout.
    destruct Hout as (calls1 & -> & Hall1 & _ & Hfirst).
    apply IH in Hrun. destruct Hrun as (per_slot & -> & Hall2).
    exists (calls1 :: per_slot). cbn [concat]. rewrite do_calls_app.
    split; [reflexivity |]. constructor; [| exact Hall2].
    split; assumption.
Qed.

Lemma writes_are_not_EAS_calls (calls : list call) :
  forallb is_snd_pcm_writei calls = true -> existsb is_EAS_call calls = false.
Proof.
  induction calls as [| c calls IH]; [reflexivity |].
  cbn [forallb existsb]. intros H. apply andb_prop in H. destruct H as [Hc Hcs].
  rewrite (IH Hcs). destruct c; try discriminate Hc; reflexivity.
Qed.

Lemma slot_writes_not_EAS_calls (nums : list Z) (per_slot : list (list call)) :
  Forall2 (slot_writes samples_per_call bytes_per_call) nums per_slot ->
  existsb is_EAS_call (concat per_slot) = false.
Proof.
  induction 1 as [| i calls nums per_slot [Hall _] _ IH]; [reflexivity |].
  cbn [concat]. rewrite existsb_app, IH, writes_are_not_EAS_calls by assumption.
  reflexivity.
Qed.

Lemma prefill_loop_accepting (nums : list Z) :
  forall (rest : list Z) (st : state),
    0 < samples_per_call < 2 ^ 64 ->
    prefill_loop samples_per_call bytes_per_call nums
      (replicate (length nums) samples_per_call ++ rest) st
    = Some (rest,
            do_calls
              (map (fun i => snd_pcm_writei (u32 (i * bytes_per_call))
                               samples_per_call) nums) st).
Proof.
  induction nums as [| i nums IH]; intros rest st Hspc.
  - simpl. rewrite do_calls_nil. reflexivity.
  - cbn [length replicate app prefill_loop].
    rewrite output_subbuffer_accepting by assumption.
    rewrite IH by assumption. cbn [map]. rewrite do_calls_cons. reflexivity.
Qed.

End LoopFacts.

(** ** The claims about the start of [main_loop] *)

(** C4 (amended): at startup, before its tick loop, [main_loop] writes the
    subbuffers with indices 2 to N - 1 to the device as they are, without
    rendering into them: between the probe of the clock and the pause only
    [snd_pcm_writei] is called, the rendering engine is not, and the
    channel is not drained.  It then attempts an initial pause of the
    output device.  With a device that takes a whole period per call the
    writes are one call per subbuffer, in the order 2, ..., N - 1, and the
    pause attempt is reached. *)
Theorem startup_prefill_writes_then_pause
  (samples_per_call bytes_per_call num_subbuffers : Z)
  (env : startup_env) (l0 : locals) (st : state) :
  let final :=
    if startup_pause_ret env =? 0
    then printf "PCM playback paused\n" []
    else clock_gettime
           (if negb (probe_ret env =? 0)
            then CLOCK_MONOTONIC else CLOCK_MONOTONIC_RAW) in
  (forall (l : locals) (st' : state),
      main_loop_startup samples_per_call bytes_per_call num_subbuffers env l0 st
      = Some (l, st') ->
      exists per_slot : list (list call),
        trace st' = trace st ++ [clock_gettime CLOCK_MONOTONIC_RAW]
                      ++ concat per_slot ++ [snd_pcm_pause 1; final] /\
        Forall2 (slot_writes samples_per_call bytes_per_call)
          (seqZ 2 (num_subbuffers - 2)) per_slot /\
        existsb is_EAS_call
          ([clock_gettime CLOCK_MONOTONIC_RAW] ++ concat per_slot
             ++ [snd_pcm_pause 1; final]) = false /\
        pending st' = pending st /\
        is_paused l = (if startup_pause_ret env =? 0 then 1 else 0)) /\
  (forall rest : list Z,
      0 < samples_per_call < 2 ^ 64 ->
      startup_writei_rets env
      = replicate (Z.to_nat (num_subbuffers - 2)) samples_per_call ++ rest ->
      exists (l : locals) (st' : state),
        main_loop_startup samples_per_call bytes_per_call num_subbuffers env l0 st
        = Some (l, st') /\
        trace st'
        = trace st ++ [clock_gettime CLOCK_MONOTONIC_RAW]
            ++ map (fun i => snd_pcm_writei (u32 (i * bytes_per_call))
                               samples_per_call)
                 (seqZ 2 (num_subbuffers - 2))
            ++ [snd_pcm_pause 1; final]).
Proof.
  intros final. split.
  - intros l st' Hrun. unfold main_loop_startup in Hrun.
    destruct (prefill_loop _ _ _ _ _) as [[rest st1] |] eqn:Hpre; [| discriminate].
    apply prefill_loop_calls in Hpre. destruct Hpre as (per_slot & -> & Hall).
    exists per_slot.
    pose proof (slot_writes_not_EAS_calls _ _ _ _ Hall) as HnoEAS.
    assert (Hno : existsb is_EAS_call
                    ([clock_gettime CLOCK_MONOTONIC_RAW] ++ concat per_slot
                       ++ [snd_pcm_pause 1; final]) = false).
    { cbn [app existsb is_EAS_call orb]. rewrite existsb_app, HnoEAS.
      unfold final. destruct (startup_pause_ret env =? 0); reflexivity. }
    unfold final in *.
    destruct (startup_pause_ret env =? 0); injection Hrun as <- <-;
      cbn; rewrite <- !app_assoc; auto.
  - intros rest Hspc Hrets. unfold main_loop_startup. rewrite Hrets.
    rewrite <- (length_seqZ 2 (num_subbuffers - 2)).
    rewrite prefill_loop_accepting by assumption.
    unfold final.
    destruct (startup_pause_ret env =? 0); eexists; eexists;
      (split; [reflexivity |]); cbn; rewrite <- !app_assoc; reflexivity.
Qed.

Lemma startup_prefill_writes_then_pause_witness :
  exists (l : locals) (st' : state),
    main_loop_startup 128 512 4
      (mkStartupEnv 0 (mkTimespec 10 0) [128; 128] 0 (mkTimespec 10 5))
      (mkLocals 0 (mkTimespec 0 0) (mkTimespec 0 0) CLOCK_MONOTONIC)
      initial_state
    = Some (l, st') /\
    trace st'
    = [clock_gettime CLOCK_MONOTONIC_RAW;
       snd_pcm_writei 1024 128; snd_pcm_writei 1536 128;
       snd_pcm_pause 1; printf "PCM playback paused\n" []].
Proof.
  destruct (startup_prefill_writes_then_pause 128 512 4
              (mkStartupEnv 0 (mkTimespec 10 0) [128; 128] 0 (mkTimespec 10 5))
              (mkLocals 0 (mkTimespec 0 0) (mkTimespec 0 0) CLOCK_MONOTONIC)
              initial_state) as (_ & H).
  destruct (H [] ltac:(lia) eq_refl) as (l & st' & Hrun & Htrace).
  exists l, st'. split; [exact Hrun | exact Htrace].
Defined.

(** C4, as stated, fails: the start of [main_loop] renders nothing.  With
    four subbuffers and a device that takes whole periods, it reaches the
    pause attempt having written subbuffers 2 and 3, and [EAS_Render] is
    not among its calls. *)
Lemma startup_prefill_renders_nothing :
  let env := mkStartupEnv 0 (mkTimespec 10 0) [128; 128] 0 (mkTimespec 10 5) in
  let l0 := mkLocals 0 (mkTimespec 0 0) (mkTimespec 0 0) CLOCK_MONOTONIC in
  option_map (fun r => trace r.2)
    (main_loop_startup 128 512 4 env l0 initial_state)
  = Some [clock_gettime CLOCK_MONOTONIC_RAW;
          snd_pcm_writei 1024 128; snd_pcm_writei 1536 128;
          snd_pcm_pause 1; printf "PCM playback paused\n" []] /\
  ~ (exists (l : locals) (st' : state) (offset frames : Z),
        main_loop_startup 128 512 4 env l0 initial_state = Some (l, st') /\
        In (EAS_Render offset frames) (trace st')).
Proof.
  intros env l0.
  assert (H : option_map (fun r => trace r.2)
                (main_loop_startup 128 512 4 env l0 initial_state)
              = Some [clock_gettime CLOCK_MONOTONIC_RAW;
                      snd_pcm_writei 1024 128; snd_pcm_writei 1536 128;
                      snd_pcm_pause 1; printf "PCM playback paused\n" []])
    by (vm_compute; reflexivity).
  split; [exact H |].
  intros (l & st' & offset & frames & Hrun & Hin).
  rewrite Hrun in H. cbn [option_map snd] in H. injection H as H.
  rewrite H in Hin. cbn [In] in Hin.
  repeat (destruct Hin as [Hin | Hin]; [discriminate Hin |]). exact Hin.
Qed.

(** ** The claims about the drain loop of [main_loop] *)

Section DrainFacts.

Variables samples_per_call bytes_per_call num_subbuffers : Z.

Lemma drain_loop_stop (render_rets : list (Z * Z)) (writei_rets : list Z)
  (available_frames : Z) (st : state) :
  available_frames < u32 (3 * samples_per_call) ->
  drain_loop samples_per_call bytes_per_call num_subbuffers
    render_rets writei_rets available_frames st
  = Some (available_frames, st).
Proof.
  intros Hlt. destruct render_rets; simpl;
    destruct (Z.geb_spec available_frames (u32 (3 * samples_per_call)));
    (lia || reflexivity).
Qed.

Lemma render_subbuffer_result (num : Z) (render_ret : Z * Z) (st : state) :
  let r := (render_subbuffer samples_per_call bytes_per_call num render_ret st).1 in
  (r = 0 \/ r = -1 \/ r = -2) /\
  (r < 0 <-> render_ret.1 <> EAS_SUCCESS \/ render_ret.2 <> samples_per_call).
Proof.
  unfold render_subbuffer. destruct render_ret as [res num_generated].
  cbn [fst snd].
  destruct (Z.eqb_spec res EAS_SUCCESS);
    destruct (Z.eqb_spec num_generated samples_per_call);
    cbn [negb fst]; split; auto; split; intros; try lia; tauto.
Qed.

Lemma drain_loop_cons (render_ret : Z * Z) (render_rets : list (Z * Z))
  (writei_rets : list Z) (available_frames : Z) (st : state) :
  available_frames >= u32 (3 * samples_per_call) ->
  drain_loop samples_per_call bytes_per_call num_subbuffers
    (render_ret :: render_rets) writei_rets available_frames st
  = let r := (render_subbuffer samples_per_call bytes_per_call
                (subbuf_counter st) render_ret st).1 in
    let st1 := (render_subbuffer samples_per_call bytes_per_call
                  (subbuf_counter st) render_ret st).2 in
    let st2 :=
      if r <? 0
      then do_call (fprintf_stderr "Error rendering audio data\n" []) st1
      else st1 in
    match output_subbuffer samples_per_call bytes_per_call
            (subbuf_counter st2) writei_rets st2 with
    | None => None
    | Some (o, writei_rets', st3) =>
        if o <? 0 then
          Some (0, do_call (fprintf_stderr "Error writing audio data\n" []) st3)
        else
          drain_loop samples_per_call bytes_per_call num_subbuffers
            render_rets writei_rets' (available_frames - samples_per_call)
            (set_subbuf_counter
               (if u32 (subbuf_counter st3 + 1) =? num_subbuffers
                then 0 else u32 (subbuf_counter st3 + 1)) st3)
    end.
Proof.
  intros Hge. cbn [drain_loop].
  destruct (Z.geb_spec available_frames (u32 (3 * samples_per_call))); [| lia].
  destruct (render_subbuffer samples_per_call bytes_per_call
              (subbuf_counter st) render_ret st) as [r st1].
  reflexivity.
Qed.

Lemma advance_counter (c : Z) :
  0 <= c < num_subbuffers -> num_subbuffers < 2 ^ 32 ->
  (if u32 (c + 1) =? num_subbuffers then 0 else u32 (c + 1))
  = (c + 1) mod num_subbuffers.
Proof.
  intros Hc HN. rewrite u32_small by lia.
  destruct (Z.eqb_spec (c + 1) num_subbuffers) as [E | Hne].
  - rewrite E, Z.mod_same by lia. reflexivity.
  - rewrite Z.mod_small by lia. reflexivity.
Qed.

(** With an engine that renders whole periods and a device that takes
    them, the loop runs [k] times, [k] being the number of periods by which
    the available frames reach or pass three periods. *)
Lemma drain_loop_accepting (k : nat) :
  forall (rr : list (Z * Z)) (wr : list Z) (available_frames : Z) (st : state),
    0 < samples_per_call -> 3 * samples_per_call < 2 ^ 32 ->
    0 <= subbuf_counter st < num_subbuffers -> num_subbuffers < 2 ^ 32 ->
    available_frames < 3 * samples_per_call + Z.of_nat k * samples_per_call ->
    (k <> 0%nat ->
     3 * samples_per_call + (Z.of_nat k - 1) * samples_per_call
       <= available_frames) ->
    exists st' : state,
      drain_loop samples_per_call bytes_per_call num_subbuffers
        (replicate k (EAS_SUCCESS, samples_per_call) ++ rr)
        (replicate k samples_per_call ++ wr) available_frames st
      = Some (available_frames - Z.of_nat k * samples_per_call, st') /\
      subbuf_counter st'
      = (subbuf_counter st + Z.of_nat k) mod num_subbuffers.
Proof.
  induction k as [| k IH]; intros rr wr available_frames st Hspc H3 Hc HN Hhi Hlo.
  - exists st. cbn [replicate app]. rewrite drain_loop_stop.
    + rewrite Z.add_0_r, Z.mod_small by lia. split; [f_equal; f_equal; lia | reflexivity].
    + rewrite u32_small by lia. lia.
  - cbn [replicate app].
    rewrite drain_loop_cons by (rewrite u32_small by lia; lia).
    cbv zeta.
    destruct (render_subbuffer_result (subbuf_counter st)
                (EAS_SUCCESS, samples_per_call) st) as (Hr & Hneg).
    destruct (render_subbuffer_drains samples_per_call bytes_per_call
                (subbuf_counter st) (EAS_SUCCESS, samples_per_call) st)
      as (_ & _ & _ & _ & R5 & _).
    set (r := (render_subbuffer samples_per_call bytes_per_call
                 (subbuf_counter st) (EAS_SUCCESS, samples_per_call) st).1) in *.
    set (st1 := (render_subbuffer samples_per_call bytes_per_call
                   (subbuf_counter st) (EAS_SUCCESS, samples_per_call) st).2) in *.
    assert (Hr0 : r = 0).
    { cbn [fst snd] in Hneg.
      destruct (Z.ltb_spec r 0) as [Hlt | ?]; [| lia].
      apply Hneg in Hlt. destruct Hlt; contradiction. }
    rewrite Hr0. change (0 <? 0) with false. cbv iota.
    rewrite output_subbuffer_accepting by lia.
    change (0 <? 0) with false. cbv iota.
    cbn [do_call subbuf_counter]. rewrite R5, advance_counter by assumption.
    destruct (IH rr wr (available_frames - samples_per_call)
                (set_subbuf_counter
                   ((subbuf_counter st + 1) mod num_subbuffers)
                   (do_call
                      (snd_pcm_writei (u32 (subbuf_counter st * bytes_per_call))
                         samples_per_call) st1)))
      as (st' & Hrun & Hcnt); try assumption.
    + cbn. apply Z.mod_pos_bound. lia.
    + lia.
    + lia.
    + exists st'. rewrite Hrun. split; [f_equal; f_equal; lia |].
      rewrite Hcnt. cbn [set_subbuf_counter subbuf_counter].
      rewrite Zplus_mod_idemp_l. f_equal. lia.
Qed.

End DrainFacts.

(** C5 (amended): in a tick of [main_loop] the inner loop runs while the
    available frames are at least three periods ([>=], not [>]).  An
    iteration forwards the pending bytes of the channel to the rendering
    engine, has it render one period into the slot [subbuf_counter] (a
    failure or a frame count other than the period is reported as
    "Error rendering audio data", and the slot is written all the same),
    writes the slot to the device, asking again for the frames a partial
    write left over; when the device reports an error the loop ends with
    an available-frame budget of zero, otherwise it goes on with
    [subbuf_counter] advanced modulo N and one period less available. *)
Theorem drain_loop_iteration
  (samples_per_call bytes_per_call num_subbuffers : Z)
  (render_ret : Z * Z) (render_rets : list (Z * Z)) (writei_rets : list Z)
  (available_frames : Z) (st : state) :
  wf st ->
  0 <= subbuf_counter st < num_subbuffers ->
  num_subbuffers < 2 ^ 32 ->
  let c := subbuf_counter st in
  let r := (render_subbuffer samples_per_call bytes_per_call c render_ret st).1 in
  let st1 := (render_subbuffer samples_per_call bytes_per_call c render_ret st).2 in
  let st2 :=
    if r <? 0
    then do_call (fprintf_stderr "Error rendering audio data\n" []) st1
    else st1 in
  (forall rets : list (Z * Z),
      available_frames < u32 (3 * samples_per_call) ->
      drain_loop samples_per_call bytes_per_call num_subbuffers
        rets writei_rets available_frames st
      = Some (available_frames, st)) /\
  (available_frames >= u32 (3 * samples_per_call) ->
   trace st1
   = trace st ++ map EAS_WriteMIDIStream (drained_spans st)
       ++ [EAS_Render (u32 (c * bytes_per_call)) samples_per_call] /\
   forwarded (trace st1) = forwarded (trace st) ++ pending st /\
   pending st1 = [] /\
   (r < 0 <-> render_ret.1 <> EAS_SUCCESS \/ render_ret.2 <> samples_per_call) /\
   (forall (ws rest : list Z) (result : Z),
       device_writes ws samples_per_call result ->
       0 <= samples_per_call < 2 ^ 64 ->
       writei_rets = ws ++ rest ->
       let st3 :=
         do_calls (writei_calls ws samples_per_call (u32 (c * bytes_per_call)))
           st2 in
       (result = -1 ->
        drain_loop samples_per_call bytes_per_call num_subbuffers
          (render_ret :: render_rets) writei_rets available_frames st
        = Some (0, do_call (fprintf_stderr "Error writing audio data\n" [])
                     st3)) /\
       (result = 0 ->
        drain_loop samples_per_call bytes_per_call num_subbuffers
          (render_ret :: render_rets) writei_rets available_frames st
        = drain_loop samples_per_call bytes_per_call num_subbuffers
            render_rets rest (available_frames - samples_per_call)
            (set_subbuf_counter ((c + 1) mod num_subbuffers) st3)))).
Proof.
  intros Hwf Hc HN c r st1 st2.
  split; [intros rets Hlt; apply drain_loop_stop; exact Hlt |].
  intros Hge.
  destruct (render_subbuffer_drains samples_per_call bytes_per_call c render_ret st)
    as (R1 & R2 & R3 & R4 & R5 & _).
  fold st1 in R1, R2, R3, R4, R5.
  split; [exact R1 |]. split; [| split; [| split]].
  - rewrite R1, !forwarded_app, forwarded_spans, drained_spans_pending.
    cbn. rewrite app_nil_r. reflexivity.
  - unfold pending, pending_bytes. rewrite R2, R3, Z.eqb_refl. reflexivity.
  - apply render_subbuffer_result.
  - intros ws rest result Hdev Hspc -> st3.
    assert (Hc2 : subbuf_counter st2 = c).
    { unfold st2. destruct (r <? 0); cbn; exact R5. }
    assert (Hstep :
      drain_loop samples_per_call bytes_per_call num_subbuffers
        (render_ret :: render_rets) (ws ++ rest) available_frames st
      = if result <? 0
        then Some (0, do_call (fprintf_stderr "Error writing audio data\n" [])
                        st3)
        else drain_loop samples_per_call bytes_per_call num_subbuffers
               render_rets rest (available_frames - samples_per_call)
               (set_subbuf_counter
                  (if u32 (subbuf_counter st3 + 1) =? num_subbuffers
                   then 0 else u32 (subbuf_counter st3 + 1)) st3)).
    { rewrite drain_loop_cons by assumption. cbv zeta.
      fold c. fold r. fold st1. fold st2.
      rewrite Hc2. unfold output_subbuffer.
      rewrite (output_loop_device_writes _ _ _ Hdev rest) by lia.
      fold st3. reflexivity. }
    split; intros ->; rewrite Hstep; [reflexivity |].
    change (0 <? 0) with false. cbv iota.
    assert (Hc3 : subbuf_counter st3 = c) by (unfold st3; cbn; exact Hc2).
    rewrite Hc3, advance_counter by assumption. reflexivity.
Qed.

Lemma u32_three_periods_of_128 : u32 (3 * 128) = 384.
Proof. reflexivity. Qed.

Lemma drain_loop_iteration_witness :
  option_map (fun r => (r.1, subbuf_counter r.2, trace r.2))
    (drain_loop 128 512 4 [(0, 127)] [100; 28] 384 initial_state)
  = Some (256, 1,
          [EAS_Render 0 128;
           fprintf_stderr "Error rendering audio data\n" [];
           snd_pcm_writei 0 128; snd_pcm_writei 400 28]).
Proof.
  destruct (drain_loop_iteration 128 512 4 (0, 127) [] [100; 28] 384
              initial_state wf_initial_state)
    as (_ & H); [cbn; lia | lia |].
  destruct H as (_ & _ & _ & _ & H);
    [rewrite u32_three_periods_of_128; lia |].
  destruct (H [100; 28] [] 0) as (_ & H0).
  - apply device_writes_partial; [lia | lia |].
    apply device_writes_partial; [lia | lia |].
    apply device_writes_done.
  - lia.
  - reflexivity.
  - rewrite (H0 eq_refl). vm_compute. reflexivity.
Defined.

(** C5, as stated, fails: with exactly three periods available (384 frames
    of 128), which does not exceed three periods, the loop still runs once:
    it renders and writes slot 0, advances [subbuf_counter] to 1 and leaves
    256 frames of budget. *)
Lemma drain_loop_runs_at_three_periods :
  ~ (384 > 3 * 128) /\
  option_map (fun r => (r.1, subbuf_counter r.2, trace r.2))
    (drain_loop 128 512 4 [(0, 128)] [128] 384 initial_state)
  = Some (256, 1, [EAS_Render 0 128; snd_pcm_writei 0 128]).
Proof. split; [lia | vm_compute; reflexivity]. Qed.

(** ** Facts about one pass of the loop of [main_loop] *)

Section TickFacts.

Variables samples_per_call bytes_per_call num_subbuffers : Z.

Lemma pause_transitions_app (cs cs' : list call) :
  pause_transitions (cs ++ cs') = (pause_transitions cs + pause_transitions cs')%nat.
Proof. unfold pause_transitions. rewrite List.filter_app, length_app. reflexivity. Qed.

Lemma render_side_no_pause (calls : list call) :
  forallb is_render_side_call calls = true ->
  pause_transitions calls = 0%nat /\ pause_attempts calls = 0%nat.
Proof.
  induction calls as [| c calls IH]; [auto |].
  cbn [forallb]. intros H. apply andb_prop in H. destruct H as [Hc Hcs].
  destruct (IH Hcs) as [IH1 IH2].
  unfold pause_transitions, pause_attempts in *.
  destruct c; try discriminate Hc; cbn; auto.
Qed.

Lemma writei_is_render_side (calls : list call) :
  forallb is_snd_pcm_writei calls = true ->
  forallb is_render_side_call calls = true.
Proof.
  induction calls as [| c calls IH]; [auto |].
  cbn [forallb]. intros H. apply andb_prop in H. destruct H as [Hc Hcs].
  rewrite (IH Hcs). destruct c; try discriminate Hc; reflexivity.
Qed.

Lemma drained_spans_render_side (spans : list (list Z)) :
  forallb is_render_side_call (map EAS_WriteMIDIStream spans) = true.
Proof. induction spans as [| s spans IH]; [reflexivity | exact IH]. Qed.

(** The drain loop only talks to the rendering engine, the device's write
    call and stderr, and leaves [midi_event_written] alone. *)
Lemma drain_loop_calls (render_rets : list (Z * Z)) :
  forall (writei_rets : list Z) (available_frames : Z) (st : state)
         (a : Z) (st' : state),
    drain_loop samples_per_call bytes_per_call num_subbuffers
      render_rets writei_rets available_frames st = Some (a, st') ->
    midi_event_written st' = midi_event_written st /\
    exists calls : list call,
      trace st' = trace st ++ calls /\
      forallb is_render_side_call calls = true.
Proof.
  induction render_rets as [| render_ret render_rets IH];
    intros writei_rets available_frames st a st' Hrun.
  - simpl in Hrun.
    destruct (available_frames >=? u32 (3 * samples_per_call)); [discriminate |].
    injection Hrun as <- <-. split; [reflexivity |].
    exists []. rewrite app_nil_r. auto.
  - destruct (Z.geb_spec available_frames (u32 (3 * samples_per_call)))
      as [Hge | Hlt].
    + rewrite drain_loop_cons in Hrun by lia. cbv zeta in Hrun.
      destruct (render_subbuffer_drains samples_per_call bytes_per_call
                  (subbuf_counter st) render_ret st)
        as (R1 & _ & _ & _ & _ & R6 & _).
      set (r := (render_subbuffer samples_per_call bytes_per_call
                   (subbuf_counter st) render_ret st).1) in *.
      set (st1 := (render_subbuffer samples_per_call bytes_per_call
                     (subbuf_counter st) render_ret st).2) in *.
      set (st2 := if r <? 0
                  then do_call (fprintf_stderr "Error rendering audio data\n" [])
                         st1
                  else st1) in *.
      assert (H2 : midi_event_written st2 = midi_event_written st /\
                   exists calls2, trace st2 = trace st ++ calls2 /\
                                  forallb is_render_side_call calls2 = true).
      { unfold st2. destruct (r <? 0); cbn; rewrite R6, R1;
          (split; [reflexivity |]); eexists;
          rewrite <- ?app_assoc; (split; [reflexivity |]);
          rewrite !forallb_app, drained_spans_render_side; reflexivity. }
      destruct H2 as (H2w & calls2 & H2t & H2c).
      destruct (output_subbuffer samples_per_call bytes_per_call
                  (subbuf_counter st2) writei_rets st2)
        as [[[o rets3] st3] |] eqn:Hout; [| discriminate].
      apply output_loop_calls in Hout.
      destruct Hout as (calls3 & -> & H3c & _).
      apply writei_is_render_side in H3c.
      destruct (o <? 0).
      * injection Hrun as <- <-. cbn. split; [exact H2w |].
        exists (calls2 ++ calls3 ++ [fprintf_stderr "Error writing audio data\n" []]).
        rewrite H2t, <- !app_assoc. split; [reflexivity |].
        rewrite !forallb_app, H2c, H3c. reflexivity.
      * apply IH in Hrun. destruct Hrun as (Hw & calls4 & Ht & Hc4).
        cbn in Hw, Ht. split; [rewrite Hw; exact H2w |].
        exists (calls2 ++ calls3 ++ calls4).
        rewrite Ht, H2t, <- !app_assoc. split; [reflexivity |].
        rewrite !forallb_app, H2c, H3c, Hc4. reflexivity.
    + rewrite drain_loop_stop in Hrun by lia.
      injection Hrun as <- <-. split; [reflexivity |].
      exists []. rewrite app_nil_r. auto.
Qed.

Lemma tick_render_calls (env : tick_env) (st : state) (a : Z) (st' : state) :
  tick_render samples_per_call bytes_per_call num_subbuffers env st
  = Some (a, st') ->
  midi_event_written st' = midi_event_written st /\
  exists calls : list call,
    trace st' = trace st ++ calls /\
    forallb is_render_side_call calls = true.
Proof.
  unfold tick_render. intros Hrun.
  apply drain_loop_calls in Hrun. destruct Hrun as (Hw & calls & Ht & Hc).
  destruct (is_xrun (pcmstate_ret env)); cbn in Hw, Ht;
    (split; [exact Hw |]); eexists; rewrite Ht, <- !app_assoc;
    (split; [reflexivity |]); cbn [app forallb is_render_side_call andb];
    exact Hc.
Qed.

Lemma tick_pacing_paused (env : tick_env) (l : locals) (st : state) :
  midi_event_written st = 0 -> is_paused l <> 0 ->
  tick_pacing env l st = (l, do_call (nanosleep 10000000) st, false).
Proof.
  intros Hw Hp. unfold tick_pacing.
  cbn [do_call midi_event_written]. rewrite Hw. cbn [Z.eqb negb].
  destruct (Z.eqb_spec (is_paused l) 0); [contradiction | reflexivity].
Qed.

Lemma tick_pacing_active (env : tick_env) (l : locals) (st : state) :
  midi_event_written st = 0 -> is_paused l = 0 ->
  tick_pacing env l st
  = let st1 := do_calls [nanosleep 10000000;
                         clock_gettime (monotonic_clock_id l)] st in
    if tv_sec (clock_ret env) - tv_sec (last_written_time l) >? 60 then
      if pause_ret env =? 0 then
        (mkLocals 1 (last_written_time l) (clock_ret env) (monotonic_clock_id l),
         do_calls [snd_pcm_pause 1; printf "PCM playback paused\n" []] st1,
         false)
      else
        (mkLocals 0 (clock_ret env) (clock_ret env) (monotonic_clock_id l),
         do_calls [snd_pcm_pause 1] st1, true)
    else
      (mkLocals 0 (last_written_time l) (clock_ret env) (monotonic_clock_id l),
       st1, true).
Proof.
  intros Hw Hp. unfold tick_pacing.
  cbn [do_call midi_event_written]. rewrite Hw, Hp. cbn [Z.eqb negb].
  cbn [current_time last_written_time is_paused monotonic_clock_id].
  destruct (tv_sec (clock_ret env) - tv_sec (last_written_time l) >? 60);
    [destruct (pause_ret env =? 0) |];
    unfold do_calls, do_call; cbn; rewrite <- ?app_assoc; reflexivity.
Qed.

(** One pass without new events: the flag stays down; a paused loop only
    sleeps; an active loop goes to paused at most once, its last two calls
    then being the pause and its message. *)
Lemma tick_idle (env : tick_env) (l l' : locals) (st st' : state) :
  midi_event_written st = 0 ->
  tick samples_per_call bytes_per_call num_subbuffers env l st = Some (l', st') ->
  midi_event_written st' = 0 /\
  exists new : list call,
    trace st' = trace st ++ new /\
    (is_paused l <> 0 -> l' = l /\ new = [nanosleep 10000000]) /\
    (is_paused l = 0 ->
     (is_paused l' = 0 /\ pause_transitions new = 0%nat) \/
     (is_paused l' = 1 /\
      exists before : list call,
        new = before ++ [snd_pcm_pause 1; printf "PCM playback paused\n" []] /\
        pause_transitions before = 0%nat)).
Proof.
  intros Hw Hrun. unfold tick in Hrun.
  destruct (Z.eq_dec (is_paused l) 0) as [Hp | Hp].
  - rewrite tick_pacing_active in Hrun by assumption. cbv zeta in Hrun.
    destruct (tv_sec (clock_ret env) - tv_sec (last_written_time l) >? 60);
      [destruct (pause_ret env =? 0) |].
    + injection Hrun as <- <-. split; [exact Hw |].
      eexists. split; [cbn; rewrite <- app_assoc; reflexivity |].
      split; [contradiction |]. intros _. right. split; [reflexivity |].
      exists [nanosleep 10000000; clock_gettime (monotonic_clock_id l)].
      split; reflexivity.
    + destruct (tick_render _ _ _ _ _) as [[a st2] |] eqn:Hr; [| discriminate].
      injection Hrun as <- <-.
      apply tick_render_calls in Hr. destruct Hr as (Hw2 & calls & Ht & Hc).
      cbn in Hw2, Ht. split; [rewrite Hw2; exact Hw |].
      eexists. split; [rewrite Ht, <- !app_assoc; reflexivity |].
      split; [contradiction |]. intros _. left. split; [reflexivity |].
      rewrite !pause_transitions_app.
      destruct (render_side_no_pause calls Hc) as [-> _]. reflexivity.
    + destruct (tick_render _ _ _ _ _) as [[a st2] |] eqn:Hr; [| discriminate].
      injection Hrun as <- <-.
      apply tick_render_calls in Hr. destruct Hr as (Hw2 & calls & Ht & Hc).
      cbn in Hw2, Ht. split; [rewrite Hw2; exact Hw |].
      eexists. split; [rewrite Ht, <- !app_assoc; reflexivity |].
      split; [contradiction |]. intros _. left. split; [reflexivity |].
      rewrite !pause_transitions_app.
      destruct (render_side_no_pause calls Hc) as [-> _]. reflexivity.
  - rewrite tick_pacing_paused in Hrun by assumption.
    injection Hrun as <- <-. split; [exact Hw |].
    exists [nanosleep 10000000]. split; [reflexivity |].
    split; [auto | contradiction].
Qed.

(** A whole stretch without events. *)
Lemma run_threads_idle (schedule : list (list snd_seq_event * tick_env)) :
  forall (rs rs' : Z) (l lf : locals) (st stf : state),
    idle schedule ->
    midi_event_written st = 0 ->
    run_threads samples_per_call bytes_per_call num_subbuffers schedule rs l st
    = Some (rs', lf, stf) ->
    exists new : list call,
      trace stf = trace st ++ new /\
      (is_paused l <> 0 ->
       lf = l /\ new = replicate (length schedule) (nanosleep 10000000)) /\
      (is_paused l = 0 ->
       (is_paused lf = 0 /\ pause_transitions new = 0%nat) \/
       (is_paused lf = 1 /\
        exists (before : list call) (k : nat),
          new = before ++ [snd_pcm_pause 1; printf "PCM playback paused\n" []]
                  ++ replicate k (nanosleep 10000000) /\
          pause_transitions before = 0%nat)).
Proof.
  induction schedule as [| [events env] schedule IH];
    intros rs rs' l lf st stf Hidle Hw Hrun.
  - injection Hrun as <- <- <-. exists []. rewrite app_nil_r.
    split; [reflexivity |]. split; [auto |]. intros Hp. left. auto.
  - inversion Hidle as [| ? ? Hev Hrest]; subst. cbn in Hev. subst events.
    cbn [run_threads process_events] in Hrun.
    destruct (tick samples_per_call bytes_per_call num_subbuffers env l st)
      as [[l1 st1] |] eqn:Htick; [| discriminate].
    destruct (tick_idle env l l1 st st1 Hw Htick) as (Hw1 & new1 & Ht1 & Hp1 & Ha1).
    destruct (IH rs rs' l1 lf st1 stf Hrest Hw1 Hrun) as (new2 & Ht2 & Hp2 & Ha2).
    exists (new1 ++ new2). split; [rewrite Ht2, Ht1, app_assoc; reflexivity |].
    split.
    + intros Hp. destruct (Hp1 Hp) as [-> ->].
      destruct (Hp2 Hp) as [-> ->]. auto.
    + intros Ha. destruct (Ha1 Ha) as [[Hl1 Hn1] | [Hl1 (before & -> & Hb)]].
      * destruct (Ha2 Hl1) as [[Hlf Hn2] | [Hlf (before2 & k & -> & Hb2)]].
        -- left. split; [exact Hlf |].
           rewrite pause_transitions_app, Hn1, Hn2. reflexivity.
        -- right. split; [exact Hlf |].
           exists (new1 ++ before2), k. rewrite <- app_assoc.
           split; [reflexivity |].
           rewrite pause_transitions_app, Hn1, Hb2. reflexivity.
      * assert (Hne : is_paused l1 <> 0) by lia.
        destruct (Hp2 Hne) as [-> ->].
        right. split; [exact Hl1 |].
        exists before, (length schedule). rewrite <- app_assoc.
        split; [reflexivity | exact Hb].
Qed.

End TickFacts.

(** ** The pause state machine of [main_loop] *)

(** The pause state machine of [main_loop], the time elapsed being
    the difference of the [tv_sec] of the clock and of the last recorded
    activity.  A pass that finds the new-event flag raised records the
    current time as the last activity and leaves the loop active, without
    a pause attempt.  A pass that finds it down: when the loop is active
    and more than 60 seconds have elapsed, it attempts to pause the
    device; on success the loop is paused and the rest of the pass is
    skipped; on failure it stays active and the current time becomes the
    last activity, so that the next attempt comes only when more than 60
    further seconds have elapsed.  While paused it only sleeps.  Over any
    stretch without events the loop goes from active to paused at most
    once, and after that transition it makes no further call to the
    device. *)
Theorem idle_pause_state_machine
  (samples_per_call bytes_per_call num_subbuffers : Z)
  (env : tick_env) (l : locals) (st : state) :
  let elapsed := tv_sec (clock_ret env) - tv_sec (last_written_time l) in
  let l' := (tick_pacing env l st).1.1 in
  let st' := (tick_pacing env l st).1.2 in
  let go_on := (tick_pacing env l st).2 in
  (midi_event_written st <> 0 ->
   trace st'
   = trace st ++ [nanosleep 10000000; clock_gettime (monotonic_clock_id l)]
       ++ (if is_paused l =? 0 then []
           else [snd_pcm_pause 0; printf "PCM playback unpaused\n" []]) /\
   midi_event_written st' = 0 /\
   is_paused l' = 0 /\ go_on = true /\
   last_written_time l' = clock_ret env) /\
  (midi_event_written st = 0 -> is_paused l = 0 -> elapsed > 60 ->
   trace st'
   = trace st ++ [nanosleep 10000000; clock_gettime (monotonic_clock_id l);
                  snd_pcm_pause 1]
       ++ (if pause_ret env =? 0 then [printf "PCM playback paused\n" []]
           else []) /\
   (pause_ret env = 0 ->
    is_paused l' = 1 /\ go_on = false /\
    last_written_time l' = last_written_time l) /\
   (pause_ret env <> 0 ->
    is_paused l' = 0 /\ go_on = true /\
    last_written_time l' = clock_ret env /\
    forall (env2 : tick_env) (st2 : state),
      midi_event_written st2 = 0 ->
      trace (tick_pacing env2 l' st2).1.2
      = trace st2 ++ [nanosleep 10000000;
                      clock_gettime (monotonic_clock_id l)]
          ++ (if tv_sec (clock_ret env2) - tv_sec (clock_ret env) >? 60
              then snd_pcm_pause 1
                     :: (if pause_ret env2 =? 0
                         then [printf "PCM playback paused\n" []] else [])
              else []))) /\
  (midi_event_written st = 0 -> is_paused l = 0 -> elapsed <= 60 ->
   trace st' = trace st ++ [nanosleep 10000000;
                            clock_gettime (monotonic_clock_id l)] /\
   is_paused l' = 0 /\ go_on = true /\
   last_written_time l' = last_written_time l) /\
  (midi_event_written st = 0 -> is_paused l <> 0 ->
   l' = l /\ st' = do_call (nanosleep 10000000) st /\ go_on = false) /\
  (midi_event_written st = 0 ->
   forall (schedule : list (list snd_seq_event * tick_env)) (rs rs' : Z)
          (lf : locals) (stf : state),
      idle schedule ->
      run_threads samples_per_call bytes_per_call num_subbuffers
        schedule rs l st = Some (rs', lf, stf) ->
      exists new : list call,
        trace stf = trace st ++ new /\
        (is_paused l <> 0 ->
         lf = l /\ new = replicate (length schedule) (nanosleep 10000000)) /\
        (is_paused l = 0 ->
         (is_paused lf = 0 /\ pause_transitions new = 0%nat) \/
         (is_paused lf = 1 /\
          exists (before : list call) (k : nat),
            new = before
                    ++ [snd_pcm_pause 1; printf "PCM playback paused\n" []]
                    ++ replicate k (nanosleep 10000000) /\
            pause_transitions before = 0%nat))).
Proof.
  intros elapsed l' st' go_on.
  split; [| split; [| split; [| split]]].
  - intros Hw. unfold l', st', go_on, tick_pacing.
    cbn [do_call midi_event_written].
    destruct (Z.eqb_spec (midi_event_written st) 0); [contradiction |].
    cbn [negb is_paused].
    destruct (Z.eqb_spec (is_paused l) 0) as [Hp | Hp];
      cbn; rewrite <- ?app_assoc; auto.
  - intros Hw Hp Hel. unfold l', st', go_on.
    rewrite tick_pacing_active by assumption. cbv zeta.
    destruct (Z.gtb_spec (tv_sec (clock_ret env) - tv_sec (last_written_time l)) 60);
      [| unfold elapsed in Hel; lia].
    destruct (Z.eqb_spec (pause_ret env) 0) as [Hok | Hfail].
    + cbn. rewrite <- !app_assoc. split; [reflexivity |].
      split; [auto | contradiction].
    + cbn. rewrite <- !app_assoc. split; [reflexivity |].
      split; [contradiction |]. intros _.
      repeat split.
      intros env2 st2 Hw2.
      rewrite tick_pacing_active by (assumption || reflexivity).
      cbv zeta. cbn [last_written_time monotonic_clock_id].
      destruct (tv_sec (clock_ret env2) - tv_sec (clock_ret env) >? 60);
        [destruct (pause_ret env2 =? 0) |];
        cbn; rewrite <- ?app_assoc; reflexivity.
  - intros Hw Hp Hel. unfold l', st', go_on.
    rewrite tick_pacing_active by assumption. cbv zeta.
    destruct (Z.gtb_spec (tv_sec (clock_ret env) - tv_sec (last_written_time l)) 60);
      [unfold elapsed in Hel; lia |].
    cbn. auto.
  - intros Hw Hp. unfold l', st', go_on.
    rewrite tick_pacing_paused by assumption. cbn. auto.
  - intros Hw schedule rs rs' lf stf Hidle Hrun.
    apply (run_threads_idle samples_per_call bytes_per_call num_subbuffers
             schedule rs rs' l lf st stf Hidle Hw Hrun).
Qed.

(** An idle stretch of six passes, the last activity at second 0: nothing
    at second 30; a refused pause at 61; nothing at 100; an accepted pause
    at 122; then two passes asleep. *)
Lemma idle_pause_state_machine_witness :
  let quiet t p := mkTickEnv (mkTimespec t 0) p SND_PCM_STATE_RUNNING 0 [] [] in
  let schedule :=
    [([], quiet 30 0); ([], quiet 61 (-1)); ([], quiet 100 0);
     ([], quiet 122 0); ([], quiet 200 0); ([], quiet 300 0)] in
  let l := mkLocals 0 (mkTimespec 0 0) (mkTimespec 0 0) CLOCK_MONOTONIC in
  exists (rs' : Z) (lf : locals) (stf : state) (new : list call),
    run_threads 128 512 4 schedule 0 l initial_state = Some (rs', lf, stf) /\
    trace stf = trace initial_state ++ new /\
    is_paused lf = 1 /\ pause_transitions new = 1%nat /\
    pause_attempts new = 2%nat.
Proof.
  intros quiet schedule l.
  assert (E : option_map (fun r => (is_paused r.1.2, trace r.2))
                (run_threads 128 512 4 schedule 0 l initial_state)
              = Some (1, [nanosleep 10000000; clock_gettime CLOCK_MONOTONIC;
                          snd_pcm_state; snd_pcm_avail_update;
                          nanosleep 10000000; clock_gettime CLOCK_MONOTONIC;
                          snd_pcm_pause 1; snd_pcm_state; snd_pcm_avail_update;
                          nanosleep 10000000; clock_gettime CLOCK_MONOTONIC;
                          snd_pcm_state; snd_pcm_avail_update;
                          nanosleep 10000000; clock_gettime CLOCK_MONOTONIC;
                          snd_pcm_pause 1; printf "PCM playback paused\n" [];
                          nanosleep 10000000; nanosleep 10000000]))
    by (vm_compute; reflexivity).
  destruct (run_threads 128 512 4 schedule 0 l initial_state)
    as [[[rs' lf] stf] |] eqn:Hrun; [| discriminate E].
  destruct (idle_pause_state_machine 128 512 4 (quiet 30 0) l initial_state)
    as (_ & _ & _ & _ & H).
  destruct (H eq_refl schedule 0 rs' lf stf) as (new & Ht & _ & Ha).
  - repeat constructor.
  - exact Hrun.
  - exists rs', lf, stf, new. split; [reflexivity |]. split; [exact Ht |].
    cbn [option_map fst snd] in E. injection E as E1 E2.
    rewrite E2 in Ht. cbn [initial_state trace app] in Ht. subst new.
    split; [exact E1 |]. split; reflexivity.
Defined.

(** C9, where the code departs from it: the last activity was recorded at
    0 s, the loop is active, no event has arrived and the clock reads 60 s
    and 900000000 ns.  More than 60 seconds have elapsed, yet the pass
    makes no pause attempt and the loop stays active: line 1558 compares
    the [tv_sec] fields and leaves [tv_nsec] out.  A second later the
    attempt is made. *)
Lemma no_pause_attempt_at_60_9_seconds :
  let l := mkLocals 0 (mkTimespec 0 0) (mkTimespec 0 0) CLOCK_MONOTONIC in
  let at_60_9 :=
    mkTickEnv (mkTimespec 60 900000000) 0 SND_PCM_STATE_RUNNING 0 [] [] in
  let at_61_9 :=
    mkTickEnv (mkTimespec 61 900000000) 0 SND_PCM_STATE_RUNNING 0 [] [] in
  let nanoseconds (t : timespec) := tv_sec t * 1000000000 + tv_nsec t in
  nanoseconds (clock_ret at_60_9) - nanoseconds (last_written_time l)
    > 60 * 1000000000 /\
  midi_event_written initial_state = 0 /\
  is_paused l = 0 /\
  trace (tick_pacing at_60_9 l initial_state).1.2
  = [nanosleep 10000000; clock_gettime CLOCK_MONOTONIC] /\
  pause_attempts (trace (tick_pacing at_60_9 l initial_state).1.2) = 0%nat /\
  is_paused (tick_pacing at_60_9 l initial_state).1.1 = 0 /\
  (tick_pacing at_60_9 l initial_state).2 = true /\
  trace (tick_pacing at_61_9 l initial_state).1.2
  = [nanosleep 10000000; clock_gettime CLOCK_MONOTONIC; snd_pcm_pause 1;
     printf "PCM playback paused\n" []].
Proof.
  intros l at_60_9 at_61_9 nanoseconds.
  split; [vm_compute; reflexivity |].
  repeat split; vm_compute; reflexivity.
Qed.

(** * Further properties of the code *)

(** ** The transfer channel under any sequence of operations *)

Section ChannelInvariants.

Variables samples_per_call bytes_per_call : Z.

Lemma wf_do_call (c : call) (st : state) : wf st -> wf (do_call c st).
Proof. intros H. exact H. Qed.

Lemma write_event_wf (event : list Z) (st : state) :
  wf st -> wf (write_event event st).
Proof.
  intros Hwf.
  destruct (Z_gt_le_dec (Z.of_nat (length event))
              (free_space (event_read_index st) (event_write_index st)))
    as [Hover | Hfit].
  - rewrite write_event_overflow by assumption. exact Hwf.
  - apply (write_event_fits event st Hwf Hfit).
Qed.

Lemma forwarded_snoc_other (tr : list call) (c : call) :
  (forall bytes, c <> EAS_WriteMIDIStream bytes) ->
  forwarded (tr ++ [c]) = forwarded tr.
Proof.
  intros Hc. rewrite forwarded_app. unfold forwarded at 2. cbn [flat_map].
  destruct c; rewrite ?app_nil_r; try reflexivity.
  exfalso. exact (Hc bytes eq_refl).
Qed.

(** What a call of [write_event] does to the stream of bytes: it appends
    the chunk when it fits, and nothing otherwise. *)
Lemma write_event_stream (event : list Z) (st : state) :
  wf st ->
  stream (write_event event st)
  = stream st
      ++ (if Z.of_nat (length event)
               >? free_space (event_read_index st) (event_write_index st)
          then [] else event).
Proof.
  intros Hwf. unfold stream.
  destruct (Z.gtb_spec (Z.of_nat (length event))
              (free_space (event_read_index st) (event_write_index st)))
    as [Hover | Hfit].
  - rewrite write_event_overflow by lia. rewrite app_nil_r.
    cbn [do_call trace]. rewrite forwarded_snoc_other by discriminate.
    reflexivity.
  - destruct (write_event_fits event st Hwf Hfit) as (_ & W2 & _ & _ & _ & _ & W7).
    rewrite W2, W7, app_assoc. reflexivity.
Qed.

Lemma render_subbuffer_wf (num : Z) (render_ret : Z * Z) (st : state) :
  wf st ->
  wf (render_subbuffer samples_per_call bytes_per_call num render_ret st).2.
Proof.
  intros (Hlen & Hr & Hw).
  destruct (render_subbuffer_drains samples_per_call bytes_per_call num
              render_ret st) as (_ & R2 & R3 & R4 & _).
  unfold wf. rewrite R2, R3, R4. auto.
Qed.

Lemma render_subbuffer_stream (num : Z) (render_ret : Z * Z) (st : state) :
  let st' := (render_subbuffer samples_per_call bytes_per_call num render_ret st).2 in
  forwarded (trace st') = forwarded (trace st) ++ pending st /\
  pending st' = [] /\
  stream st' = stream st.
Proof.
  intros st'.
  destruct (render_subbuffer_drains samples_per_call bytes_per_call num
              render_ret st) as (R1 & R2 & R3 & _).
  fold st' in R1, R2, R3.
  assert (Hf : forwarded (trace st') = forwarded (trace st) ++ pending st).
  { rewrite R1, !forwarded_app, forwarded_spans, drained_spans_pending.
    cbn. rewrite app_nil_r. reflexivity. }
  assert (Hp : pending st' = []).
  { unfold pending, pending_bytes. rewrite R2, R3, Z.eqb_refl. reflexivity. }
  repeat split; try assumption.
  unfold stream. rewrite Hf, Hp, app_nil_r. reflexivity.
Qed.

Lemma stream_eq (st : state) :
  stream st = forwarded (trace st) ++ pending st.
Proof. reflexivity. Qed.

Lemma overflow_messages_app (tr1 tr2 : list call) :
  length (List.filter is_overflow_message (tr1 ++ tr2))
  = (length (List.filter is_overflow_message tr1)
     + length (List.filter is_overflow_message tr2))%nat.
Proof. rewrite List.filter_app, length_app. reflexivity. Qed.

Lemma render_subbuffer_no_overflow_message (num : Z) (render_ret : Z * Z)
  (st : state) :
  length (List.filter is_overflow_message
            (trace (render_subbuffer samples_per_call bytes_per_call num
                      render_ret st).2))
  = length (List.filter is_overflow_message (trace st)).
Proof.
  destruct (render_subbuffer_drains samples_per_call bytes_per_call num
              render_ret st) as (R1 & _).
  rewrite R1, !overflow_messages_app.
  assert (H : forall spans,
             length (List.filter is_overflow_message
                       (map EAS_WriteMIDIStream spans)) = 0%nat)
    by (induction spans; [reflexivity | assumption]).
  rewrite H. cbn. lia.
Qed.

End ChannelInvariants.

(** Whatever the interleaving of [write_event] and [render_subbuffer]
    calls, the channel invariant holds throughout, the bytes forwarded to
    the engine followed by the bytes still pending are the initial ones
    followed by the accepted chunks in order, and there is exactly one
    overflow message for each chunk that was not accepted. *)
Theorem channel_is_a_fifo (samples_per_call bytes_per_call : Z)
  (ops : list channel_op) (st : state) :
  wf st ->
  let st' := channel_run samples_per_call bytes_per_call ops st in
  let accepted := accepted_chunks samples_per_call bytes_per_call ops st in
  wf st' /\
  stream st' = stream st ++ concat accepted /\
  (length (List.filter is_overflow_message (trace st'))
   = length (List.filter is_overflow_message (trace st))
     + (length (List.filter is_enqueue ops) - length accepted))%nat /\
  (length accepted <= length (List.filter is_enqueue ops))%nat.
Proof.
  revert st. induction ops as [| op ops IH]; intros st Hwf.
  - cbn [channel_run fold_left accepted_chunks concat List.filter length].
    rewrite app_nil_r. split; [exact Hwf |]. split; [reflexivity |].
    split; lia.
  - cbn zeta.
    change (channel_run samples_per_call bytes_per_call (op :: ops) st)
      with (channel_run samples_per_call bytes_per_call ops
              (channel_step samples_per_call bytes_per_call op st)).
    destruct op as [event | num render_ret].
    + pose proof (write_event_wf event st Hwf) as Hwf1.
      pose proof (write_event_stream event st Hwf) as Hs1.
      destruct (IH (write_event event st) Hwf1) as (I1 & I2 & I3 & I4).
      cbn [channel_step accepted_chunks List.filter is_enqueue length] in *.
      destruct (Z.gtb_spec (Z.of_nat (length event))
                  (free_space (event_read_index st) (event_write_index st)))
        as [Hover | Hfit]; cbv iota in *; cbn [length] in *.
      * split; [exact I1 |]. split; [rewrite I2, Hs1, app_nil_r; reflexivity |].
        split; [| lia]. rewrite I3.
        assert (Ht : trace (write_event event st)
                     = trace st ++ [fprintf_stderr "Event buffer overflow\n" []])
          by (rewrite write_event_overflow by lia; reflexivity).
        rewrite Ht, overflow_messages_app. cbn. lia.
      * split; [exact I1 |].
        split; [rewrite I2, Hs1; cbn [concat]; rewrite <- app_assoc; reflexivity |].
        split; [| cbn [length]; lia]. rewrite I3.
        destruct (write_event_fits event st Hwf Hfit) as (_ & _ & _ & _ & _ & _ & ->).
        cbn [length]. lia.
    + pose proof (render_subbuffer_wf samples_per_call bytes_per_call num
                    render_ret st Hwf) as Hwf1.
      destruct (render_subbuffer_stream samples_per_call bytes_per_call num
                  render_ret st) as (_ & _ & Hs1).
      destruct (IH _ Hwf1) as (I1 & I2 & I3 & I4).
      cbn [channel_step accepted_chunks List.filter is_enqueue] in *.
      split; [exact I1 |]. split; [rewrite I2, Hs1; reflexivity |].
      split; [| exact I4]. rewrite I3.
      rewrite render_subbuffer_no_overflow_message. reflexivity.
Qed.

(** Three rounds around the end of the array: chunks enqueued from index
    65530 on, a dequeue, a chunk that no longer fits after 65535 bytes. *)
Lemma channel_is_a_fifo_witness :
  let st := set_event_write_index 65530 (set_event_read_index 65530 initial_state) in
  let ops := [enqueue [1; 2; 3; 4]; dequeue 0 (0, 128);
              enqueue [5; 6; 7; 8]; enqueue (replicate (Z.to_nat 65532) 9);
              dequeue 1 (0, 128)] in
  forwarded (trace (channel_run 128 512 ops st)) = [1; 2; 3; 4; 5; 6; 7; 8] /\
  pending (channel_run 128 512 ops st) = [].
Proof.
  intros st ops.
  assert (Hwf : wf st) by (apply wf_set_indices; [apply wf_initial_state | lia | lia]).
  destruct (channel_is_a_fifo 128 512 ops st Hwf) as (_ & H2 & _).
  assert (Hp : pending (channel_run 128 512 ops st) = [])
    by (vm_compute; reflexivity).
  assert (Ha : accepted_chunks 128 512 ops st = [[1; 2; 3; 4]; [5; 6; 7; 8]])
    by (vm_compute; reflexivity).
  assert (Hs0 : stream st = []) by (vm_compute; reflexivity).
  rewrite Hs0, Ha in H2. rewrite stream_eq, Hp, app_nil_r in H2.
  split; [exact H2 | exact Hp].
Defined.

(** The capacity of the channel is 65535 bytes, one less than the array:
    a longer chunk is dropped whatever the state; a chunk of exactly 65535
    bytes fits an empty channel, which is then full until the consumer
    runs: any further non-empty chunk is dropped, and after one
    [render_subbuffer] a chunk of up to 65535 bytes fits again. *)
Theorem channel_capacity_is_65535
  (samples_per_call bytes_per_call num : Z) (render_ret : Z * Z)
  (event next : list Z) (st : state) :
  wf st ->
  (Z.of_nat (length event) > 65535 ->
   write_event event st
   = do_call (fprintf_stderr "Event buffer overflow\n" []) st) /\
  (pending st = [] -> Z.of_nat (length event) = 65535 -> next <> [] ->
   Z.of_nat (length next) <= 65535 ->
   let full := write_event event st in
   pending full = event /\
   write_event next full
   = do_call (fprintf_stderr "Event buffer overflow\n" []) full /\
   pending
     (write_event next
        (render_subbuffer samples_per_call bytes_per_call num render_ret full).2)
   = next).
Proof.
  intros Hwf. split.
  - intros Hlong. apply write_event_overflow.
    rewrite free_space_pending by assumption. lia.
  - intros Hempty Hlen Hnext Hnlen full.
    destruct (write_event_fits event st Hwf) as (W1 & W2 & _).
    { rewrite free_space_pending, Hempty by assumption. cbn [length]. lia. }
    fold full in W1, W2. rewrite Hempty in W2. cbn [app] in W2.
    split; [exact W2 |]. split.
    + apply write_event_overflow.
      rewrite (free_space_pending full W1), W2.
      destruct next; [contradiction | cbn [length]; lia].
    + pose proof (render_subbuffer_wf samples_per_call bytes_per_call num
                    render_ret full W1) as Hwf2.
      destruct (render_subbuffer_stream samples_per_call bytes_per_call num
                  render_ret full) as (_ & Hp & _).
      destruct (write_event_fits next _ Hwf2) as (_ & W2' & _).
      { rewrite free_space_pending, Hp by assumption. cbn [length]. lia. }
      rewrite W2', Hp. reflexivity.
Qed.

Lemma channel_capacity_is_65535_witness :
  let st := set_event_write_index 40000 (set_event_read_index 40000 initial_state) in
  let full := write_event (replicate (Z.to_nat 65535) 7) st in
  pending full = replicate (Z.to_nat 65535) 7 /\
  write_event [0x90] full
  = do_call (fprintf_stderr "Event buffer overflow\n" []) full /\
  pending (write_event [0x90] (render_subbuffer 128 512 0 (0, 128) full).2)
  = [0x90].
Proof.
  intros st.
  assert (Hwf : wf st) by (apply wf_set_indices; [apply wf_initial_state | lia | lia]).
  destruct (channel_capacity_is_65535 128 512 0 (0, 128)
              (replicate (Z.to_nat 65535) 7) [0x90] st Hwf) as (_ & H).
  apply H.
  - unfold pending, pending_bytes, st. indices. reflexivity.
  - rewrite length_replicate. lia.
  - discriminate.
  - cbn [length]. lia.
Defined.

(** [render_subbuffer] empties the channel whatever [EAS_Render] answers:
    the pending bytes are handed to the engine before the rendering and are
    not handed again by the next call.  Its result tells the two failures
    apart: -1 when [EAS_Render] fails, -2 when it succeeds with a frame
    count other than the period, 0 otherwise. *)
Theorem render_subbuffer_drains_whatever_the_result
  (samples_per_call bytes_per_call num num' : Z)
  (render_ret render_ret' : Z * Z) (st : state) :
  wf st ->
  let r := (render_subbuffer samples_per_call bytes_per_call num render_ret st).1 in
  let st1 := (render_subbuffer samples_per_call bytes_per_call num render_ret st).2 in
  let st2 := (render_subbuffer samples_per_call bytes_per_call num' render_ret' st1).2 in
  (r = -1 <-> render_ret.1 <> EAS_SUCCESS) /\
  (r = -2 <-> render_ret.1 = EAS_SUCCESS /\ render_ret.2 <> samples_per_call) /\
  (r = 0 <-> render_ret.1 = EAS_SUCCESS /\ render_ret.2 = samples_per_call) /\
  forwarded (trace st1) = forwarded (trace st) ++ pending st /\
  pending st1 = [] /\
  free_space (event_read_index st1) (event_write_index st1) = 65535 /\
  forwarded (trace st2) = forwarded (trace st1) /\
  trace st2 = trace st1 ++ [EAS_Render (u32 (num' * bytes_per_call)) samples_per_call].
Proof.
  intros Hwf r st1 st2.
  destruct (render_subbuffer_stream samples_per_call bytes_per_call num
              render_ret st) as (Hf & Hp & _).
  fold st1 in Hf, Hp.
  pose proof (render_subbuffer_wf samples_per_call bytes_per_call num
                render_ret st Hwf) as Hwf1. fold st1 in Hwf1.
  destruct (render_subbuffer_stream samples_per_call bytes_per_call num'
              render_ret' st1) as (Hf2 & _).
  fold st2 in Hf2. rewrite Hp, app_nil_r in Hf2.
  assert (Hcodes :
    (r = -1 <-> render_ret.1 <> EAS_SUCCESS) /\
    (r = -2 <-> render_ret.1 = EAS_SUCCESS /\ render_ret.2 <> samples_per_call) /\
    (r = 0 <-> render_ret.1 = EAS_SUCCESS /\ render_ret.2 = samples_per_call)).
  { unfold r, render_subbuffer. destruct render_ret as [res num_generated].
    cbn [fst snd].
    destruct (Z.eqb_spec res EAS_SUCCESS);
      destruct (Z.eqb_spec num_generated samples_per_call);
      cbn [negb fst]; repeat split; intros; try lia; try tauto;
        intuition (try lia; try congruence). }
  destruct Hcodes as (C1 & C2 & C3).
  split; [exact C1 |]. split; [exact C2 |]. split; [exact C3 |].
  split; [exact Hf |]. split; [exact Hp |].
  split; [rewrite free_space_pending, Hp by assumption; reflexivity |].
  split; [exact Hf2 |].
  destruct (render_subbuffer_drains samples_per_call bytes_per_call num'
              render_ret' st1) as (R1 & _).
  fold st2 in R1. rewrite R1.
  assert (Hd : drained_spans st1 = []).
  { destruct (render_subbuffer_drains samples_per_call bytes_per_call num
                render_ret st) as (_ & R2 & R3 & _).
    fold st1 in R2, R3. unfold drained_spans. rewrite R2, R3, Z.eqb_refl.
    reflexivity. }
  rewrite Hd. reflexivity.
Qed.

Lemma render_subbuffer_drains_whatever_the_result_witness :
  let st := write_event [0x90; 60; 100] initial_state in
  (render_subbuffer 128 512 0 (-4, 0) st).1 = -1 /\
  forwarded (trace (render_subbuffer 128 512 0 (-4, 0) st).2) = [0x90; 60; 100] /\
  forwarded
    (trace (render_subbuffer 128 512 1 (0, 128)
              (render_subbuffer 128 512 0 (-4, 0) st).2).2)
  = [0x90; 60; 100].
Proof.
  intros st.
  assert (Hwf : wf st) by (apply write_event_wf, wf_initial_state).
  destruct (render_subbuffer_drains_whatever_the_result 128 512 0 1
              (-4, 0) (0, 128) st Hwf) as (H1 & _ & _ & H4 & _ & _ & H7 & _).
  assert (Hp : pending st = [0x90; 60; 100]).
  { destruct (write_event_fits [0x90; 60; 100] initial_state wf_initial_state)
      as (_ & W2 & _); [| exact W2].
    cbn [initial_state event_read_index event_write_index length].
    vm_compute. discriminate. }
  split; [apply H1; cbn [fst]; unfold EAS_SUCCESS; lia |].
  assert (Ht : forwarded (trace st) = []).
  { destruct (write_event_fits [0x90; 60; 100] initial_state wf_initial_state)
      as (_ & _ & _ & _ & _ & _ & W7); [| fold st in W7; rewrite W7; reflexivity].
    cbn [initial_state event_read_index event_write_index length].
    vm_compute. discriminate. }
  rewrite Hp, Ht in H4. cbn [app] in H4.
  split; [exact H4 | rewrite H7; exact H4].
Defined.

(** ** The encoder beyond single messages *)

Section EncoderInvariants.

Lemma process_events_app (events events' : list snd_seq_event) :
  forall (running_status : Z) (st : state),
    process_events (events ++ events') running_status st
    = process_events events'
        (process_events events running_status st).1
        (process_events events running_status st).2.
Proof.
  induction events as [| event events IH]; intros running_status st;
    [reflexivity |].
  cbn [app process_events].
  destruct (process_event event running_status st) as [rs' st'].
  apply IH.
Qed.

Lemma u8_lor_high (k c : Z) : 128 <= k < 256 -> 128 <= u8 (Z.lor k c) < 256.
Proof.
  intros Hk. split; [| apply u8_range].
  unfold u8. rewrite Z.land_lor_distr_l. fold (u8 k). fold (u8 c).
  rewrite (u8_small k) by lia.
  pose proof (lor_lower k (u8 c)). pose proof (u8_range c). lia.
Qed.

(** Every encoding starts with a status byte, and a status byte has its
    high bit set: it is never 0. *)
Lemma status_and_data_status (event : snd_seq_event) (data : list Z) :
  status_and_data event = Some data ->
  exists (s : Z) (d : list Z), data = s :: d /\ 128 <= s < 256.
Proof.
  destruct event; cbn [status_and_data]; try discriminate;
    try (intros [= <-]; eexists; eexists; split; [reflexivity |];
         apply u8_lor_high; lia).
  destruct ((param >=? 0) && (param <? 32)); [| discriminate].
  intros [= <-]. eexists; eexists; split; [reflexivity |].
  apply u8_lor_high; lia.
Qed.

(** What one event may do to the state: nothing, one [write_event], or one
    message on stdout or stderr. *)
Lemma process_event_step (event : snd_seq_event) (running_status : Z)
  (st : state) :
  let st' := (process_event event running_status st).2 in
  st' = st \/
  (exists data : list Z, st' = write_event data st) \/
  (exists c : call, st' = do_call c st /\ is_message c = true).
Proof.
  destruct event; cbn [process_event snd]; auto;
    try (right; left; unfold write_running;
         destruct (negb _); cbn [snd]; eexists; reflexivity).
  - destruct ((param >=? 0) && (param <? 32)); [| auto].
    right; left; unfold write_running.
    destruct (negb _); cbn [snd]; eexists; reflexivity.
  - right; left. eexists; reflexivity.
  - right; right. unfold subscription_event.
    destruct client_name; eexists; split; reflexivity.
  - right; right. unfold subscription_event.
    destruct client_name; eexists; split; reflexivity.
  - right; right. eexists; split; reflexivity.
Qed.

End EncoderInvariants.

(** The events [process_event] has no encoding for leave the running
    status alone, so the compression goes on across them: after any
    stretch of ignored events (key pressure, NRPN, transport and real-time
    events, 14-bit controllers from 32 on) and of events that only print a
    message (subscriptions, unknown types), an event whose status byte is
    the running status is still written without it.  The ignored events
    change nothing at all; the others each add one message and leave the
    channel as it is. *)
Theorem running_status_survives_unencoded_events
  (gap : list snd_seq_event) (event : snd_seq_event) (s : Z) (d : list Z)
  (st : state) :
  Forall (fun e => is_ignored_event e = true \/ is_logged_event e = true) gap ->
  exists msgs : list call,
    (forall running_status : Z,
        process_events gap running_status st
        = (running_status, do_calls msgs st)) /\
    length msgs = length (List.filter is_logged_event gap) /\
    forallb is_message msgs = true /\
    pending (do_calls msgs st) = pending st /\
    (status_and_data event = Some (s :: d) ->
     process_events (gap ++ [event]) s st
     = (s, write_event d (do_calls msgs st))).
Proof.
  intros Hgap.
  assert (Hrun :
    exists msgs : list call,
      (forall rs, process_events gap rs st = (rs, do_calls msgs st)) /\
      length msgs = length (List.filter is_logged_event gap) /\
      forallb is_message msgs = true).
  { revert st. induction Hgap as [| e gap He _ IH]; intros st.
    - exists []. rewrite do_calls_nil. auto.
    - assert (Hstep : exists pre : list call,
                (forall rs, process_event e rs st = (rs, do_calls pre st)) /\
                length pre = length (List.filter is_logged_event [e]) /\
                forallb is_message pre = true).
      { destruct He as [He | He].
        - exists []. rewrite do_calls_nil.
          destruct e; try discriminate He; cbn [process_event]; auto.
          cbn [is_ignored_event] in He.
          destruct ((param >=? 0) && (param <? 32)); [discriminate He | auto].
        - destruct e; try discriminate He; cbn [process_event];
            try (unfold subscription_event; destruct client_name);
            eexists [_]; (split; [intros rs; reflexivity |]);
            split; reflexivity. }
      destruct Hstep as (pre & Hpre & Hlen & Hall).
      destruct (IH (do_calls pre st)) as (msgs & Hmsgs & Hlen2 & Hall2).
      exists (pre ++ msgs).
      split; [intros rs; cbn [process_events]; rewrite Hpre, Hmsgs,
                do_calls_app; reflexivity |].
      rewrite length_app, forallb_app, Hall, Hall2, Hlen, Hlen2.
      split; [| reflexivity].
      cbn [List.filter]. destruct (is_logged_event e); cbn [length]; lia. }
  destruct Hrun as (msgs & Hmsgs & Hlen & Hall).
  exists msgs. split; [exact Hmsgs |]. split; [exact Hlen |].
  split; [exact Hall |]. split; [reflexivity |].
  intros Hev. rewrite process_events_app, Hmsgs.
  cbn [fst snd process_events].
  rewrite (process_event_status_and_data _ _ _ _ Hev), write_running_spec.
  rewrite Z.eqb_refl. reflexivity.
Qed.

(** A clock tick, a 14-bit controller out of range and a subscription
    between two note-ons: the second note-on is still two bytes. *)
Lemma running_status_survives_unencoded_events_witness :
  pending
    (process_events
       [SND_SEQ_EVENT_NOTEON 0 60 100; SND_SEQ_EVENT_CLOCK;
        SND_SEQ_EVENT_CONTROL14 0 40 5; SND_SEQ_EVENT_PORT_SUBSCRIBED None;
        SND_SEQ_EVENT_NOTEON 0 64 90] 0 initial_state).2
  = [0x90; 60; 100; 64; 90].
Proof.
  set (st1 := write_event [0x90; 60; 100] initial_state).
  assert (Hgap : Forall (fun e => is_ignored_event e = true
                                  \/ is_logged_event e = true)
                   [SND_SEQ_EVENT_CLOCK; SND_SEQ_EVENT_CONTROL14 0 40 5;
                    SND_SEQ_EVENT_PORT_SUBSCRIBED None])
    by (repeat constructor; cbn; auto).
  destruct (running_status_survives_unencoded_events _
              (SND_SEQ_EVENT_NOTEON 0 64 90) 0x90 [64; 90] st1 Hgap)
    as (msgs & _ & _ & _ & Hp & H).
  change (process_events _ 0 initial_state)
    with (process_events
            ([SND_SEQ_EVENT_CLOCK; SND_SEQ_EVENT_CONTROL14 0 40 5;
              SND_SEQ_EVENT_PORT_SUBSCRIBED None]
               ++ [SND_SEQ_EVENT_NOTEON 0 64 90]) 0x90 st1).
  rewrite (H eq_refl). cbn [snd].
  assert (Hwf1 : wf st1) by (apply write_event_wf, wf_initial_state).
  assert (Hp1 : pending st1 = [0x90; 60; 100]).
  { destruct (write_event_fits [0x90; 60; 100] initial_state wf_initial_state)
      as (_ & W2 & _); [| exact W2].
    cbn [initial_state event_read_index event_write_index length].
    vm_compute. discriminate. }
  destruct (write_event_fits [64; 90] (do_calls msgs st1)) as (_ & W2 & _).
  - exact Hwf1.
  - change (event_read_index (do_calls msgs st1)) with (event_read_index st1).
    change (event_write_index (do_calls msgs st1)) with (event_write_index st1).
    rewrite free_space_pending, Hp1 by exact Hwf1. cbn [length]. lia.
  - rewrite W2, Hp, Hp1. reflexivity.
Defined.

(** A status byte always has its high bit set, so it never equals the
    running status 0 that [midi_thread_proc] starts with and that a
    system-exclusive block leaves: the first encoded event of the thread,
    and the first one after any system-exclusive block, is written with
    its status byte, whatever the running status was before the block. *)
Theorem status_byte_follows_reset (event : snd_seq_event) (data ptr : list Z)
  (running_status : Z) (st : state) :
  status_and_data event = Some data ->
  exists (s : Z) (d : list Z),
    data = s :: d /\ 128 <= s < 256 /\
    process_event event 0 st = (s, write_event (s :: d) st) /\
    process_events [SND_SEQ_EVENT_SYSEX ptr; event] running_status st
    = (s, write_events [ptr; s :: d] st).
Proof.
  intros Hev.
  destruct (status_and_data_status event data Hev) as (s & d & -> & Hs).
  exists s, d. split; [reflexivity |]. split; [exact Hs |].
  assert (H0 : forall st0, process_event event 0 st0
                           = (s, write_event (s :: d) st0)).
  { intros st0.
    rewrite (process_event_status_and_data _ _ _ _ Hev), write_running_spec.
    destruct (Z.eqb_spec 0 s); [lia | reflexivity]. }
  split; [apply H0 |].
  cbn [process_events process_event]. rewrite H0. reflexivity.
Qed.

Lemma status_byte_follows_reset_witness :
  process_events
    [SND_SEQ_EVENT_SYSEX [0xF0; 0x7F; 0xF7]; SND_SEQ_EVENT_PGMCHANGE 9 0 5]
    0xC9 initial_state
  = (0xC9, write_events [[0xF0; 0x7F; 0xF7]; [0xC9; 5]] initial_state).
Proof.
  destruct (status_byte_follows_reset (SND_SEQ_EVENT_PGMCHANGE 9 0 5)
              [0xC9; 5] [0xF0; 0x7F; 0xF7] 0xC9 initial_state eq_refl)
    as (s & d & Hsd & _ & _ & H).
  injection Hsd as <- <-. exact H.
Defined.

Section FourteenBit.

Lemma land_7f_mod (x : Z) : Z.land x 0x7f = x mod 128.
Proof. change 0x7f with (Z.ones 7). rewrite Z.land_ones by lia. reflexivity. Qed.

Lemma shiftr_7_div (x : Z) : Z.shiftr x 7 = x / 128.
Proof. rewrite Z.shiftr_div_pow2 by lia. reflexivity. Qed.

(** The two 7-bit bytes cut out of [x] hold [x] modulo 2^14. *)
Lemma decode14_split (x : Z) :
  let lsb := u8 (Z.land x 0x7f) in
  let msb := u8 (Z.land (Z.shiftr x 7) 0x7f) in
  0 <= lsb < 128 /\ 0 <= msb < 128 /\ decode14 lsb msb = x mod 16384.
Proof.
  cbv zeta. rewrite !u8_land_7f, !land_7f_mod, shiftr_7_div.
  unfold decode14. Z.div_mod_to_equations. lia.
Qed.

End FourteenBit.

(** The 14-bit quantities survive the encoding: the two data bytes that
    [process_event] writes for a pitch bend decode to the bend plus 0x2000
    (exactly, for a bend in [-8192, 8191]); those of a 14-bit controller
    decode to its value, and those of a registered parameter to its number
    and its value (exactly below 16384); a quantity outside the 14 bits
    is reduced modulo 2^14, not clamped.  All these data bytes are below
    128. *)
Theorem fourteen_bit_values_decode (channel param value running_status : Z)
  (st : state) :
  (exists s lsb msb : Z,
      process_event (SND_SEQ_EVENT_PITCHBEND channel param value)
        running_status st
      = (s, write_event (if running_status =? s then [lsb; msb]
                         else [s; lsb; msb]) st) /\
      0 <= lsb < 128 /\ 0 <= msb < 128 /\
      decode14 lsb msb = (value + 0x2000) mod 16384 /\
      (-8192 <= value <= 8191 -> decode14 lsb msb - 0x2000 = value)) /\
  (0 <= param < 32 ->
   exists s lsb msb : Z,
      process_event (SND_SEQ_EVENT_CONTROL14 channel param value)
        running_status st
      = (s, write_event (if running_status =? s
                         then [param; msb; param + 32; lsb]
                         else [s; param; msb; param + 32; lsb]) st) /\
      0 <= lsb < 128 /\ 0 <= msb < 128 /\
      decode14 lsb msb = value mod 16384 /\
      (0 <= value < 16384 -> decode14 lsb msb = value)) /\
  (exists s plsb pmsb vlsb vmsb : Z,
      process_event (SND_SEQ_EVENT_REGPARAM channel param value)
        running_status st
      = (s, write_event
              (if running_status =? s
               then [0x65; pmsb; 0x64; plsb; 0x06; vmsb; 0x26; vlsb]
               else [s; 0x65; pmsb; 0x64; plsb; 0x06; vmsb; 0x26; vlsb]) st) /\
      0 <= plsb < 128 /\ 0 <= pmsb < 128 /\
      0 <= vlsb < 128 /\ 0 <= vmsb < 128 /\
      decode14 plsb pmsb = param mod 16384 /\
      decode14 vlsb vmsb = value mod 16384 /\
      (0 <= param < 16384 -> decode14 plsb pmsb = param) /\
      (0 <= value < 16384 -> decode14 vlsb vmsb = value)).
Proof.
  split; [| split].
  - destruct (decode14_split (value + 0x2000)) as (H1 & H2 & H3).
    eexists; eexists; eexists.
    split; [cbn [process_event]; apply write_running_spec |].
    split; [exact H1 |]. split; [exact H2 |]. split; [exact H3 |].
    intros Hv. rewrite H3. rewrite Z.mod_small by lia. lia.
  - intros Hp. destruct (decode14_split value) as (H1 & H2 & H3).
    eexists; eexists; eexists. split.
    + cbn [process_event].
      destruct (Z.geb_spec param 0); [| lia].
      destruct (Z.ltb_spec param 32); [| lia].
      cbn [andb]. rewrite write_running_spec.
      rewrite (u8_small param), (u8_small (param + 32)) by lia. reflexivity.
    + split; [exact H1 |]. split; [exact H2 |]. split; [exact H3 |].
      intros Hv. rewrite H3. apply Z.mod_small. lia.
  - destruct (decode14_split value) as (V1 & V2 & V3).
    destruct (decode14_split param) as (P1 & P2 & P3).
    eexists; eexists; eexists; eexists; eexists.
    split; [cbn [process_event]; apply write_running_spec |].
    repeat (split; [assumption |]).
    split; intros H; [rewrite P3 | rewrite V3]; apply Z.mod_small; lia.
Qed.

Lemma fourteen_bit_values_decode_witness :
  (exists s lsb msb : Z,
      process_event (SND_SEQ_EVENT_CONTROL14 2 7 12345) 0 initial_state
      = (s, write_event (if 0 =? s then [7; msb; 7 + 32; lsb]
                         else [s; 7; msb; 7 + 32; lsb]) initial_state) /\
      decode14 lsb msb = 12345) /\
  (exists s lsb msb : Z,
      process_event (SND_SEQ_EVENT_PITCHBEND 0 0 (-8192)) 0 initial_state
      = (s, write_event (if 0 =? s then [lsb; msb] else [s; lsb; msb])
              initial_state) /\
      decode14 lsb msb - 0x2000 = -8192).
Proof.
  destruct (fourteen_bit_values_decode 2 7 12345 0 initial_state)
    as (_ & H & _).
  destruct (H ltac:(lia)) as (s & lsb & msb & Hrun & _ & _ & _ & Hdec).
  destruct (fourteen_bit_values_decode 0 0 (-8192) 0 initial_state)
    as ((s' & lsb' & msb' & Hrun' & _ & _ & _ & Hdec') & _).
  split.
  - exists s, lsb, msb. split; [exact Hrun | apply Hdec; lia].
  - exists s', lsb', msb'. split; [exact Hrun' | apply Hdec'; lia].
Defined.

(** ** The MIDI thread *)

Section ThreadFacts.

Lemma set_thread_scheduler_midi_init_state (priority_min : Z) (st : state) :
  midi_init_state (set_thread_scheduler priority_min st) = midi_init_state st.
Proof. unfold set_thread_scheduler. destruct (priority_min >? 0); reflexivity. Qed.

Lemma do_calls_snoc (cs : list call) (c : call) (st : state) :
  do_calls (cs ++ [c]) st = do_call c (do_calls cs st).
Proof. unfold do_calls, do_call. cbn. rewrite app_assoc. reflexivity. Qed.

Lemma replicate_snoc {A : Type} (k : nat) (x : A) :
  x :: replicate k x = replicate k x ++ [x].
Proof. induction k as [| k IH]; [reflexivity |]. cbn. rewrite IH. reflexivity. Qed.

(** As long as it reads 0 the thread sleeps, 10 ms at a time. *)
Lemma wait_sleeps (k : nat) :
  forall (tail : list (option Z)) (st : state),
    midi_init_state st = 0 ->
    wait_for_midi_initialization (replicate k None ++ tail) st
    = wait_for_midi_initialization tail
        (do_calls (replicate k (nanosleep 10000000)) st).
Proof.
  induction k as [| k IH]; intros tail st H0.
  - cbn [replicate app]. rewrite do_calls_nil. reflexivity.
  - cbn [replicate app wait_for_midi_initialization main_thread_store].
    rewrite H0. cbn [Z.eqb].
    rewrite IH by exact H0.
    rewrite <- do_calls_cons. reflexivity.
Qed.

Lemma process_events_midi_init_state (events : list snd_seq_event) :
  forall (running_status : Z) (st : state),
    midi_init_state (process_events events running_status st).2
    = midi_init_state st.
Proof.
  induction events as [| event events IH]; intros running_status st;
    [reflexivity |].
  cbn [process_events].
  pose proof (process_event_midi_init_state event running_status st) as Hkeep.
  destruct (process_event event running_status st) as [rs' st'].
  cbn [snd] in Hkeep. rewrite IH. exact Hkeep.
Qed.

(** While it reads a positive value the thread takes what
    [snd_seq_event_input] yields, skipping the failures. *)
Lemma loop_processes (inputs : list (option snd_seq_event)) :
  forall (tail : list (option Z)) (more : list (option snd_seq_event))
         (running_status : Z) (st : state),
    midi_init_state st > 0 ->
    midi_thread_loop (replicate (length inputs) None ++ tail)
      (inputs ++ more) running_status st
    = midi_thread_loop tail more
        (process_events (omap id inputs) running_status st).1
        (process_events (omap id inputs) running_status st).2.
Proof.
  induction inputs as [| input inputs IH];
    intros tail more running_status st Hpos; [reflexivity |].
  cbn [length replicate app midi_thread_loop main_thread_store].
  destruct (Z.gtb_spec (midi_init_state st) 0); [| lia].
  destruct input as [event |].
  - change (omap id (Some event :: inputs)) with (event :: omap id inputs).
    cbn [process_events].
    pose proof (process_event_midi_init_state event running_status st) as Hkeep.
    destruct (process_event event running_status st) as [rs' st'].
    cbn [snd] in Hkeep. apply IH. lia.
  - change (omap id (None :: inputs)) with (omap id inputs).
    apply IH. exact Hpos.
Qed.

End ThreadFacts.

(** [midi_thread_proc], started with [midi_init_state] at 0 as
    [start_thread] leaves it.  The thread sets its scheduler, stores 1
    through [arg] and then only sleeps, 10 ms at a time, for as long as it
    reads 0: it takes no event.  When the first other value it reads is
    negative, it returns without a call of [snd_seq_event_input].  When it
    is positive, the thread runs [process_event], from running status 0,
    on the events that [snd_seq_event_input] yields, skipping the failed
    calls, until it reads a value that is not positive; what is delivered
    after that is not processed. *)
Theorem midi_thread_waits_processes_and_stops
  (priority_min : Z) (k : nat) (v w : Z) (rest : list (option Z))
  (inputs more : list (option snd_seq_event)) (st : state) :
  midi_init_state st = 0 ->
  let waited :=
    do_calls (replicate k (nanosleep 10000000))
      (set_thread_scheduler priority_min st) in
  let processed :=
    process_events (omap id inputs) 0 (set_midi_init_state v waited) in
  midi_thread_proc priority_min (replicate k None) (inputs ++ more) st
  = (1, Waiting, waited) /\
  (v < 0 ->
   midi_thread_proc priority_min (replicate k None ++ Some v :: None :: rest)
     (inputs ++ more) st
   = (1, Returned 0, set_midi_init_state v waited)) /\
  (v > 0 -> w <= 0 ->
   midi_thread_proc priority_min
     (replicate k None ++ Some v
        :: replicate (length inputs) None ++ Some w :: rest)
     (inputs ++ more) st
   = (1, Returned processed.1, set_midi_init_state w processed.2)).
Proof.
  intros H0 waited processed.
  assert (H0' : midi_init_state (set_thread_scheduler priority_min st) = 0)
    by (rewrite set_thread_scheduler_midi_init_state; exact H0).
  unfold midi_thread_proc. split; [| split].
  - rewrite <- (app_nil_r (replicate k None)).
    rewrite (wait_sleeps k) by exact H0'. reflexivity.
  - intros Hv. rewrite (wait_sleeps k) by exact H0'. fold waited.
    cbn [wait_for_midi_initialization main_thread_store set_midi_init_state
         midi_init_state].
    destruct (Z.eqb_spec v 0); [lia |].
    cbn [midi_thread_loop main_thread_store set_midi_init_state
         midi_init_state].
    destruct (Z.gtb_spec v 0); [lia | reflexivity].
  - intros Hv Hw. rewrite (wait_sleeps k) by exact H0'. fold waited.
    cbn [wait_for_midi_initialization main_thread_store set_midi_init_state
         midi_init_state].
    destruct (Z.eqb_spec v 0); [lia |].
    rewrite loop_processes
      by (cbn [set_midi_init_state midi_init_state]; lia).
    fold processed.
    pose proof (process_events_midi_init_state (omap id inputs) 0
                  (set_midi_init_state v waited)) as Hkeep.
    fold processed in Hkeep.
    cbn [midi_thread_loop main_thread_store set_midi_init_state
         midi_init_state].
    destruct (Z.gtb_spec w 0); [lia | reflexivity].
Qed.

(** Two sleeps, then [main_loop] stores 1: a failed call, a note-on and
    another failed call are taken, [main] stores -1, and the note-on that
    comes after is not processed. *)
Lemma midi_thread_waits_processes_and_stops_witness :
  let inputs := [None; Some (SND_SEQ_EVENT_NOTEON 0 60 100); None] in
  let late := [Some (SND_SEQ_EVENT_NOTEON 0 64 90)] in
  let run :=
    midi_thread_proc 1 [None; None; Some 1; None; None; None; Some (-1)]
      (inputs ++ late) initial_state in
  run.1.1 = 1 /\
  run.1.2 = Returned 0x90 /\
  midi_init_state run.2 = -1 /\
  pending run.2 = [0x90; 60; 100] /\
  trace run.2
  = [sched_get_priority_min; sched_setscheduler 0 1;
     nanosleep 10000000; nanosleep 10000000].
Proof.
  intros inputs late run.
  destruct (midi_thread_waits_processes_and_stops 1 2 1 (-1) [] inputs late
              initial_state eq_refl) as (_ & _ & H).
  specialize (H ltac:(lia) ltac:(lia)).
  change (replicate 2 None ++ Some 1
            :: replicate (length inputs) None ++ [Some (-1)])
    with [None; None; Some 1; None; None; None; Some (-1)] in H.
  fold run in H. rewrite H. cbn [fst snd set_midi_init_state midi_init_state].
  split; [reflexivity |].
  split; [vm_compute; reflexivity |].
  split; [reflexivity |].
  split; vm_compute; reflexivity.
Defined.

(** ** Who writes what: the two sides of the channel *)

Section SingleWriter.

Variables samples_per_call bytes_per_call num_subbuffers : Z.

Lemma write_event_producer_step (event : list Z) (st : state) :
  wf st ->
  wf (write_event event st) /\
  consumer_side_kept st (write_event event st) /\
  exists appended : list Z,
    pending (write_event event st) = pending st ++ appended.
Proof.
  intros Hwf. split; [apply write_event_wf; exact Hwf |].
  destruct (Z_gt_le_dec (Z.of_nat (length event))
              (free_space (event_read_index st) (event_write_index st)))
    as [Hover | Hfit].
  - rewrite write_event_overflow by assumption.
    split; [| exists []; rewrite app_nil_r; reflexivity].
    unfold consumer_side_kept. cbn [do_call event_read_index subbuf_counter
                                    midi_init_state trace].
    rewrite forwarded_snoc_other by discriminate. auto.
  - destruct (write_event_fits event st Hwf Hfit)
      as (_ & W2 & W3 & _ & _ & _ & W7).
    split; [| exists event; exact W2].
    unfold consumer_side_kept. rewrite W3, W7, write_event_midi_init_state.
    repeat split. unfold write_event.
    destruct (Z.gtb_spec (Z.of_nat (length event))
                (free_space (event_read_index st) (event_write_index st)));
      [lia |].
    destruct (write_loop event (event_buffer st) (event_write_index st)).
    reflexivity.
Qed.

Lemma process_event_producer_step (event : snd_seq_event) (rs : Z)
  (st : state) :
  wf st ->
  wf (process_event event rs st).2 /\
  consumer_side_kept st (process_event event rs st).2 /\
  exists appended : list Z,
    pending (process_event event rs st).2 = pending st ++ appended.
Proof.
  intros Hwf.
  destruct (process_event_step event rs st)
    as [-> | [(data & ->) | (c & -> & Hc)]].
  - split; [exact Hwf |]. split; [repeat split |].
    exists []. rewrite app_nil_r. reflexivity.
  - apply write_event_producer_step. exact Hwf.
  - split; [exact Hwf |]. split.
    + unfold consumer_side_kept.
      cbn [do_call event_read_index subbuf_counter midi_init_state trace].
      rewrite forwarded_snoc_other; [auto |].
      intros bytes ->. discriminate Hc.
    + exists []. rewrite app_nil_r. reflexivity.
Qed.

Lemma process_events_producer (events : list snd_seq_event) :
  forall (rs : Z) (st : state),
    wf st ->
    wf (process_events events rs st).2 /\
    consumer_side_kept st (process_events events rs st).2 /\
    exists appended : list Z,
      pending (process_events events rs st).2 = pending st ++ appended.
Proof.
  induction events as [| event events IH]; intros rs st Hwf.
  - cbn [process_events snd]. split; [exact Hwf |].
    split; [repeat split |]. exists []. rewrite app_nil_r. reflexivity.
  - cbn [process_events].
    destruct (process_event_producer_step event rs st Hwf)
      as (Hwf1 & (K1 & K2 & K3 & K4) & (app1 & Hp1)).
    destruct (process_event event rs st) as [rs1 st1]. cbn [snd] in *.
    destruct (IH rs1 st1 Hwf1) as (Hwf2 & (L1 & L2 & L3 & L4) & (app2 & Hp2)).
    split; [exact Hwf2 |]. split.
    + unfold consumer_side_kept.
      rewrite L1, L2, L3, L4, K1, K2, K3, K4. auto.
    + exists (app1 ++ app2). rewrite Hp2, Hp1, app_assoc. reflexivity.
Qed.

End SingleWriter.

(** The producer side keeps to its half of the channel: whatever events
    [process_event] is run on, the channel invariant holds afterwards, the
    read index, the subbuffer counter and [midi_init_state] are untouched,
    nothing is handed to the rendering engine, and the bytes that were
    pending are still there, in place, with the new ones after them; at
    most 65535 bytes are ever pending. *)
Theorem producer_only_appends (events : list snd_seq_event)
  (running_status : Z) (st : state) :
  wf st ->
  let st' := (process_events events running_status st).2 in
  wf st' /\
  event_read_index st' = event_read_index st /\
  subbuf_counter st' = subbuf_counter st /\
  midi_init_state st' = midi_init_state st /\
  forwarded (trace st') = forwarded (trace st) /\
  (exists appended : list Z, pending st' = pending st ++ appended) /\
  Z.of_nat (length (pending st')) <= 65535.
Proof.
  intros Hwf st'.
  destruct (process_events_producer events running_status st Hwf)
    as (Hwf' & (K1 & K2 & K3 & K4) & Happ).
  fold st' in Hwf', K1, K2, K3, K4, Happ.
  repeat (split; [assumption |]).
  rewrite (pending_length st' Hwf').
  pose proof (Z.mod_pos_bound (event_write_index st' - event_read_index st') 65536).
  lia.
Qed.

Lemma producer_only_appends_witness :
  let st := set_event_write_index 65533 (set_event_read_index 0 initial_state) in
  let st' := (process_events
                [SND_SEQ_EVENT_NOTEON 0 60 100; SND_SEQ_EVENT_OTHER 99;
                 SND_SEQ_EVENT_NOTEON 0 64 90; SND_SEQ_EVENT_SYSEX [0xF0; 0xF7]]
                0 st).2 in
  wf st' /\ event_read_index st' = 0 /\
  Z.of_nat (length (pending st')) <= 65535.
Proof.
  intros st.
  assert (Hwf : wf st) by (apply wf_set_indices; [apply wf_initial_state | lia | lia]).
  destruct (producer_only_appends
              [SND_SEQ_EVENT_NOTEON 0 60 100; SND_SEQ_EVENT_OTHER 99;
               SND_SEQ_EVENT_NOTEON 0 64 90; SND_SEQ_EVENT_SYSEX [0xF0; 0xF7]]
              0 st Hwf) as (H1 & H2 & _ & _ & _ & _ & H7).
  intros st'. split; [exact H1 |]. split; [exact H2 | exact H7].
Defined.

Section ConsumerFacts.

Variables samples_per_call bytes_per_call num_subbuffers : Z.

Lemma stream_do_calls (calls : list call) (st : state) :
  existsb is_EAS_call calls = false ->
  stream (do_calls calls st) = stream st /\
  pending (do_calls calls st) = pending st.
Proof.
  intros Hno. split; [| reflexivity].
  unfold stream. cbn [do_calls trace]. rewrite forwarded_app.
  assert (H : forwarded calls = []).
  { induction calls as [| c calls IH]; [reflexivity |].
    cbn [existsb] in Hno. apply orb_false_elim in Hno. destruct Hno as [Hc Hcs].
    unfold forwarded in *. cbn [flat_map]. rewrite (IH Hcs).
    destruct c; try reflexivity. discriminate Hc. }
  rewrite H, app_nil_r. reflexivity.
Qed.

Lemma stream_do_call (c : call) (st : state) :
  is_EAS_call c = false -> stream (do_call c st) = stream st.
Proof.
  intros Hc. change (do_call c st) with (do_calls [c] st).
  apply stream_do_calls. cbn [existsb]. rewrite Hc. reflexivity.
Qed.

(** What the drain loop keeps, whatever the engine and the device answer:
    the producer's half of the channel, the stream of bytes, the range of
    the subbuffer counter; and it leaves the channel empty when it runs at
    least once. *)
Lemma drain_loop_keeps (render_rets : list (Z * Z)) :
  forall (writei_rets : list Z) (available_frames : Z) (st : state)
         (a : Z) (st' : state),
    drain_loop samples_per_call bytes_per_call num_subbuffers
      render_rets writei_rets available_frames st = Some (a, st') ->
    producer_side_kept st st' /\
    stream st' = stream st /\
    (wf st -> wf st') /\
    (available_frames >= u32 (3 * samples_per_call) -> pending st' = []) /\
    (available_frames < u32 (3 * samples_per_call) -> st' = st) /\
    (0 <= subbuf_counter st < num_subbuffers -> num_subbuffers < 2 ^ 32 ->
     0 <= subbuf_counter st' < num_subbuffers).
Proof.
  induction render_rets as [| render_ret render_rets IH];
    intros writei_rets available_frames st a st' Hrun.
  - simpl in Hrun.
    destruct (Z.geb_spec available_frames (u32 (3 * samples_per_call)));
      [discriminate |].
    injection Hrun as <- <-.
    split; [repeat split |]. split; [reflexivity |]. split; [auto |].
    split; [lia |]. split; auto.
  - destruct (Z.geb_spec available_frames (u32 (3 * samples_per_call)))
      as [Hge | Hlt].
    + rewrite drain_loop_cons in Hrun by lia. cbv zeta in Hrun.
      destruct (render_subbuffer_drains samples_per_call bytes_per_call
                  (subbuf_counter st) render_ret st)
        as (_ & R2 & R3 & R4 & R5 & _ & R7).
      destruct (render_subbuffer_stream samples_per_call bytes_per_call
                  (subbuf_counter st) render_ret st) as (_ & Hp1 & Hs1).
      pose proof (render_subbuffer_wf samples_per_call bytes_per_call
                    (subbuf_counter st) render_ret st) as Hwf1.
      set (r := (render_subbuffer samples_per_call bytes_per_call
                   (subbuf_counter st) render_ret st).1) in *.
      set (st1 := (render_subbuffer samples_per_call bytes_per_call
                     (subbuf_counter st) render_ret st).2) in *.
      set (st2 := if r <? 0
                  then do_call (fprintf_stderr "Error rendering audio data\n" [])
                         st1
                  else st1) in *.
      assert (H2 : producer_side_kept st st2 /\ stream st2 = stream st /\
                   pending st2 = [] /\ (wf st -> wf st2) /\
                   subbuf_counter st2 = subbuf_counter st).
      { unfold st2. destruct (r <? 0).
        - split; [unfold producer_side_kept;
                  cbn [do_call event_buffer event_write_index midi_init_state];
                  auto |].
          split; [rewrite stream_do_call by reflexivity; exact Hs1 |].
          split; [exact Hp1 |]. split; [exact Hwf1 | exact R5].
        - split; [unfold producer_side_kept; auto |].
          split; [exact Hs1 |].
          split; [exact Hp1 |]. split; [exact Hwf1 | exact R5]. }
      destruct H2 as ((K1 & K2 & K3) & Hs2 & Hp2 & Hwf2 & Hc2).
      destruct (output_subbuffer samples_per_call bytes_per_call
                  (subbuf_counter st2) writei_rets st2)
        as [[[o rets3] st3] |] eqn:Hout; [| discriminate].
      apply output_loop_calls in Hout.
      destruct Hout as (calls3 & -> & H3c & _).
      pose proof (writes_are_not_EAS_calls calls3 H3c) as Hno3.
      destruct (stream_do_calls calls3 st2 Hno3) as (Hs3 & Hp3).
      destruct (o <? 0).
      * injection Hrun as <- <-.
        split; [unfold producer_side_kept; cbn; auto |].
        split; [rewrite stream_do_call by reflexivity; rewrite Hs3; exact Hs2 |].
        split; [intros Hwf; exact (Hwf2 Hwf) |].
        split; [intros _; cbn; exact Hp2 |].
        split; [lia |]. intros Hc HN. cbn. lia.
      * apply IH in Hrun.
        destruct Hrun as ((L1 & L2 & L3) & Ls & Lwf & Lp & Lsame & Lc).
        cbn [set_subbuf_counter do_calls event_buffer event_write_index
             midi_init_state subbuf_counter] in L1, L2, L3, Lc.
        split; [unfold producer_side_kept; rewrite L1, L2, L3; auto |].
        split; [rewrite Ls; exact (eq_trans Hs3 Hs2) |].
        split; [intros Hwf; apply Lwf; exact (Hwf2 Hwf) |].
        split.
        { intros _.
          destruct (Z_ge_lt_dec (available_frames - samples_per_call)
                      (u32 (3 * samples_per_call))) as [Hge' | Hlt'].
          - exact (Lp Hge').
          - rewrite (Lsame Hlt'). exact Hp2. }
        split; [lia |]. intros Hc HN. apply Lc; [| exact HN].
        rewrite Hc2, advance_counter by assumption.
        apply Z.mod_pos_bound. lia.
    + rewrite drain_loop_stop in Hrun by lia.
      injection Hrun as <- <-.
      split; [repeat split |]. split; [reflexivity |]. split; [auto |].
      split; [lia |]. split; auto.
Qed.

Lemma tick_pacing_keeps (env : tick_env) (l : locals) (st : state) :
  let st' := (tick_pacing env l st).1.2 in
  producer_side_kept st st' /\
  event_read_index st' = event_read_index st /\
  subbuf_counter st' = subbuf_counter st /\
  stream st' = stream st /\ pending st' = pending st.
Proof.
  unfold tick_pacing, producer_side_kept, stream, pending.
  cbn [do_call midi_event_written].
  destruct (negb (midi_event_written st =? 0)).
  - cbn [is_paused]. destruct (negb (is_paused l =? 0)); cbn;
      rewrite !forwarded_app; cbn; rewrite ?app_nil_r; auto 10.
  - destruct (negb (is_paused l =? 0));
      [cbn; rewrite !forwarded_app; cbn; rewrite ?app_nil_r; auto 10 |].
    cbn [current_time last_written_time].
    destruct (tv_sec (clock_ret env) - tv_sec (last_written_time l) >? 60);
      [destruct (pause_ret env =? 0) |];
      cbn; rewrite !forwarded_app; cbn; rewrite ?app_nil_r; auto 10.
Qed.

End ConsumerFacts.

(** The consumer side keeps to its half: a pass of the loop of
    [main_loop], whatever the device and the engine answer, leaves the
    array, the write index and [midi_init_state] untouched and keeps the
    channel invariant; it loses and repeats no byte (what the engine was
    sent followed by what is pending is the same before and after); the
    pending bytes are either all still there or all forwarded; and the
    subbuffer counter stays below the number of subbuffers. *)
Theorem consumer_only_drains
  (samples_per_call bytes_per_call num_subbuffers : Z)
  (env : tick_env) (l l' : locals) (st st' : state) :
  tick samples_per_call bytes_per_call num_subbuffers env l st
  = Some (l', st') ->
  event_buffer st' = event_buffer st /\
  event_write_index st' = event_write_index st /\
  midi_init_state st' = midi_init_state st /\
  (wf st -> wf st') /\
  forwarded (trace st') ++ pending st' = forwarded (trace st) ++ pending st /\
  (pending st' = pending st \/ pending st' = []) /\
  (0 <= subbuf_counter st < num_subbuffers -> num_subbuffers < 2 ^ 32 ->
   0 <= subbuf_counter st' < num_subbuffers).
Proof.
  intros Hrun. unfold tick in Hrun.
  destruct (tick_pacing_keeps env l st) as ((K1 & K2 & K3) & K4 & K5 & K6 & K7).
  destruct (tick_pacing env l st) as [[l1 st1] go_on]. cbn [fst snd] in *.
  destruct go_on.
  - destruct (tick_render _ _ _ env st1) as [[a st2] |] eqn:Hr; [| discriminate].
    injection Hrun as <- <-. unfold tick_render in Hr.
    apply drain_loop_keeps in Hr.
    destruct Hr as ((L1 & L2 & L3) & Ls & Lwf & Lp & Lsame & Lc).
    assert (Hmid : forall st0,
              (let stx := do_call snd_pcm_avail_update
                            (if is_xrun (pcmstate_ret env)
                             then do_call snd_pcm_prepare
                                    (do_call (fprintf_stderr "Buffer underrun\n" [])
                                       (do_call snd_pcm_state st0))
                             else do_call snd_pcm_state st0) in
               event_buffer stx = event_buffer st0 /\
               event_write_index stx = event_write_index st0 /\
               event_read_index stx = event_read_index st0 /\
               midi_init_state stx = midi_init_state st0 /\
               subbuf_counter stx = subbuf_counter st0 /\
               stream stx = stream st0 /\ pending stx = pending st0)).
    { intros st0. cbv zeta. destruct (is_xrun (pcmstate_ret env));
        rewrite !stream_do_call by reflexivity; cbn; auto 10. }
    destruct (Hmid st1) as (M1 & M2 & M3 & M4 & M5 & M6 & M7).
    cbv zeta in M1, M2, M3, M4, M5, M6, M7.
    rewrite M1 in L1. rewrite M2 in L2. rewrite M4 in L3. rewrite M6 in Ls.
    rewrite M5 in Lc.
    split; [congruence |]. split; [congruence |]. split; [congruence |].
    split.
    { intros (W1 & W2 & W3). apply Lwf. unfold wf.
      rewrite M1, M2, M3, K1, K2, K4. auto. }
    split; [exact (eq_trans Ls K6) |].
    split; [| intros Hc HN; apply Lc; [rewrite K5; exact Hc | exact HN]].
    destruct (Z_ge_lt_dec (avail_ret env) (u32 (3 * samples_per_call)))
      as [Hge | Hlt].
    + right. exact (Lp Hge).
    + left. rewrite (Lsame Hlt), M7. exact K7.
  - injection Hrun as <- <-.
    split; [exact K1 |]. split; [exact K2 |]. split; [exact K3 |].
    split; [intros (W1 & W2 & W3); unfold wf; rewrite K1, K2, K4; auto |].
    split; [exact K6 |]. split; [left; exact K7 |].
    intros Hc HN. rewrite K5. exact Hc.
Qed.

Lemma consumer_only_drains_witness :
  let st := write_event [0x90; 60; 100] initial_state in
  let env := mkTickEnv (mkTimespec 5 0) 0 SND_PCM_STATE_RUNNING 384
               [(0, 128)] [128] in
  let l := mkLocals 1 (mkTimespec 0 0) (mkTimespec 0 0) CLOCK_MONOTONIC in
  exists (l' : locals) (st' : state),
    tick 128 512 4 env l st = Some (l', st') /\
    event_buffer st' = event_buffer st /\
    event_write_index st' = event_write_index st /\
    forwarded (trace st') ++ pending st' = forwarded (trace st) ++ pending st.
Proof.
  intros st env l.
  destruct (tick 128 512 4 env l st) as [[l' st'] |] eqn:Hrun.
  - exists l', st'. split; [reflexivity |].
    destruct (consumer_only_drains 128 512 4 env l l' st st' Hrun)
      as (H1 & H2 & _ & _ & H5 & _).
    repeat split; assumption.
  - exfalso.
    assert (E : option_map (fun r => is_paused r.1) (tick 128 512 4 env l st)
                = Some 0) by (vm_compute; reflexivity).
    rewrite Hrun in E. discriminate E.
Defined.

(** ** From the producer to the engine, pass after pass *)

Section PassFacts.

Variables samples_per_call bytes_per_call num_subbuffers : Z.

(** A pass that finds [midi_event_written] raised. *)
Lemma tick_pacing_flagged (env : tick_env) (l : locals) (st : state) :
  midi_event_written st <> 0 ->
  (tick_pacing env l st).2 = true /\
  is_paused (tick_pacing env l st).1.1 = 0 /\
  last_written_time (tick_pacing env l st).1.1 = clock_ret env /\
  (is_paused l <> 0 ->
   exists pre post : list call,
     trace (tick_pacing env l st).1.2 = pre ++ snd_pcm_pause 0 :: post).
Proof.
  intros Hw. unfold tick_pacing. cbn [do_call midi_event_written].
  destruct (Z.eqb_spec (midi_event_written st) 0); [contradiction |].
  cbn [negb is_paused].
  destruct (Z.eqb_spec (is_paused l) 0) as [Hp | Hp]; cbn.
  - repeat split; auto. contradiction.
  - repeat split; auto. intros _.
    exists ((trace st ++ [nanosleep 10000000]) ++
            [clock_gettime (monotonic_clock_id l)]),
           [printf "PCM playback unpaused\n" []].
    rewrite <- (app_assoc _ [snd_pcm_pause 0]). reflexivity.
Qed.

(** An active pass without event, within the idle threshold. *)
Lemma tick_pacing_quiet (env : tick_env) (l : locals) (st : state) :
  midi_event_written st = 0 -> is_paused l = 0 ->
  within_idle_threshold (last_written_time l) env ->
  (tick_pacing env l st).2 = true /\
  is_paused (tick_pacing env l st).1.1 = 0 /\
  last_written_time (tick_pacing env l st).1.1 = last_written_time l.
Proof.
  intros Hw Hp Hin. unfold within_idle_threshold in Hin.
  rewrite tick_pacing_active by assumption. cbv zeta.
  destruct (Z.gtb_spec (tv_sec (clock_ret env) - tv_sec (last_written_time l)) 60);
    [lia |].
  cbn. auto.
Qed.

(** Every pass leaves the flag down. *)
Lemma tick_pacing_lowers_the_flag (env : tick_env) (l : locals) (st : state) :
  midi_event_written (tick_pacing env l st).1.2 = 0.
Proof.
  unfold tick_pacing. cbn [do_call midi_event_written].
  destruct (Z.eqb_spec (midi_event_written st) 0) as [E | E]; cbn [negb].
  - destruct (negb (is_paused l =? 0)); [exact E |].
    cbn [current_time last_written_time].
    destruct (tv_sec (clock_ret env) - tv_sec (last_written_time l) >? 60);
      [destruct (pause_ret env =? 0) |]; exact E.
  - cbn [is_paused]. destruct (negb (is_paused l =? 0)); reflexivity.
Qed.

(** What a pass does with the bytes of the channel. *)
Lemma tick_forwards (env : tick_env) (l l' : locals) (st st' : state) :
  tick samples_per_call bytes_per_call num_subbuffers env l st
  = Some (l', st') ->
  l' = (tick_pacing env l st).1.1 /\
  midi_event_written st' = 0 /\
  (exists new : list call,
      trace st' = trace (tick_pacing env l st).1.2 ++ new) /\
  stream st' = stream st /\
  ((tick_pacing env l st).2 = true -> has_room samples_per_call env ->
   pending st' = []) /\
  (~ has_room samples_per_call env -> pending st' = pending st).
Proof.
  intros Hrun. unfold tick in Hrun.
  destruct (tick_pacing_keeps env l st) as (_ & _ & _ & K6 & K7).
  pose proof (tick_pacing_lowers_the_flag env l st) as Hflag.
  destruct (tick_pacing env l st) as [[l1 st1] go_on]. cbn [fst snd] in *.
  destruct go_on.
  - destruct (tick_render _ _ _ env st1) as [[a st2] |] eqn:Hr; [| discriminate].
    injection Hrun as <- <-.
    destruct (tick_render_calls _ _ _ env st1 a st2 Hr) as (Hw & calls & Ht & _).
    unfold tick_render in Hr. apply drain_loop_keeps in Hr.
    destruct Hr as (_ & Ls & _ & Lp & Lsame & _).
    assert (Hmid : forall st0,
              (let stx := do_call snd_pcm_avail_update
                            (if is_xrun (pcmstate_ret env)
                             then do_call snd_pcm_prepare
                                    (do_call (fprintf_stderr "Buffer underrun\n" [])
                                       (do_call snd_pcm_state st0))
                             else do_call snd_pcm_state st0) in
               stream stx = stream st0 /\ pending stx = pending st0)).
    { intros st0. cbv zeta. destruct (is_xrun (pcmstate_ret env));
        rewrite !stream_do_call by reflexivity; cbn; auto. }
    destruct (Hmid st1) as (M6 & M7). cbv zeta in M6, M7.
    split; [reflexivity |]. split; [rewrite Hw; exact Hflag |].
    split; [exists calls; exact Ht |].
    split; [rewrite Ls, M6; exact K6 |].
    split.
    + intros _ Hroom. exact (Lp Hroom).
    + intros Hno. unfold has_room in Hno.
      rewrite Lsame by lia. rewrite M7. exact K7.
  - injection Hrun as <- <-.
    split; [reflexivity |]. split; [exact Hflag |].
    split; [exists []; rewrite app_nil_r; reflexivity |].
    split; [exact K6 |].
    split; [discriminate | intros _; exact K7].
Qed.

(** Passes during which no event arrives keep the bytes: none is lost or
    repeated, and what is pending is all forwarded or all kept. *)
Lemma idle_passes_keep_the_stream
  (schedule : list (list snd_seq_event * tick_env)) :
  forall (rs rs' : Z) (l l' : locals) (st st' : state),
    idle schedule ->
    run_threads samples_per_call bytes_per_call num_subbuffers schedule rs l st
    = Some (rs', l', st') ->
    stream st' = stream st /\
    (pending st = [] -> pending st' = []) /\
    (Forall (fun slot => ~ has_room samples_per_call slot.2) schedule ->
     pending st' = pending st) /\
    (midi_event_written st = 0 -> midi_event_written st' = 0) /\
    exists new : list call, trace st' = trace st ++ new.
Proof.
  induction schedule as [| [events env] schedule IH];
    intros rs rs' l l' st st' Hidle Hrun.
  - injection Hrun as <- <- <-.
    split; [reflexivity |]. split; [auto |]. split; [auto |]. split; [auto |].
    exists []. rewrite app_nil_r. reflexivity.
  - inversion Hidle as [| ? ? Hev Hrest]; subst. cbn in Hev. subst events.
    cbn [run_threads process_events] in Hrun.
    destruct (tick samples_per_call bytes_per_call num_subbuffers env l st)
      as [[l1 st1] |] eqn:Htick; [| discriminate].
    destruct (tick_forwards env l l1 st st1 Htick)
      as (_ & F2 & (new1 & F3) & F4 & F5 & F6).
    destruct (tick_pacing_keeps env l st) as (_ & _ & _ & K6 & K7).
    assert (Hext : exists new0, trace (tick_pacing env l st).1.2 = trace st ++ new0).
    { unfold tick_pacing. cbn [do_call midi_event_written].
      destruct (negb (midi_event_written st =? 0)).
      - cbn [is_paused]. destruct (negb (is_paused l =? 0)); cbn;
          rewrite <- ?app_assoc; eexists; reflexivity.
      - destruct (negb (is_paused l =? 0));
          [cbn; eexists; reflexivity |].
        cbn [current_time last_written_time].
        destruct (tv_sec (clock_ret env) - tv_sec (last_written_time l) >? 60);
          [destruct (pause_ret env =? 0) |];
          cbn; rewrite <- ?app_assoc; eexists; reflexivity. }
    destruct Hext as (new0 & Hext).
    destruct (IH rs rs' l1 l' st1 st' Hrest Hrun)
      as (I1 & I2 & I3 & I4 & (new2 & I5)).
    assert (Hdich : pending st1 = pending st \/ pending st1 = []).
    { destruct (Z_ge_lt_dec (avail_ret env) (u32 (3 * samples_per_call)))
        as [Hge | Hlt].
      - destruct (tick_pacing env l st).2 eqn:Hgo.
        + right. apply F5; [reflexivity | exact Hge].
        + left. unfold tick in Htick.
          destruct (tick_pacing env l st) as [[lx stx] gx].
          cbn [snd fst] in *. subst gx. injection Htick as <- <-. exact K7.
      - left. apply F6. unfold has_room. lia. }
    split; [rewrite I1; exact F4 |].
    split; [intros Hp; apply I2; destruct Hdich as [-> | ->]; auto |].
    split.
    { intros Hall. inversion Hall as [| ? ? Hno Hnos]; subst.
      rewrite (I3 Hnos). apply F6. exact Hno. }
    split; [intros _; apply I4; exact F2 |].
    exists (new0 ++ new1 ++ new2).
    rewrite I5, F3, Hext, <- !app_assoc. reflexivity.
Qed.

(** An active loop, no event arriving: the first pass that finds room
    within the idle threshold empties the channel. *)
Lemma active_passes_reach_room (waiting : list tick_env) :
  forall (schedule : list (list snd_seq_event * tick_env))
         (env_k : tick_env) (after : list tick_env)
         (rs rs' : Z) (l l' : locals) (st st' : state),
    idle schedule ->
    midi_event_written st = 0 -> is_paused l = 0 ->
    map snd schedule = waiting ++ env_k :: after ->
    Forall (within_idle_threshold (last_written_time l)) waiting ->
    within_idle_threshold (last_written_time l) env_k ->
    has_room samples_per_call env_k ->
    run_threads samples_per_call bytes_per_call num_subbuffers schedule rs l st
    = Some (rs', l', st') ->
    pending st' = [].
Proof.
  induction waiting as [| env waiting IH];
    intros schedule env_k after rs rs' l l' st st' Hidle Hw Hp Hsplit
           Hin Hink Hroom Hrun;
    destruct schedule as [| [events env'] schedule]; try discriminate Hsplit;
    cbn [map app snd] in Hsplit; injection Hsplit as -> Hsplit;
    inversion Hidle as [| ? ? Hev Hrest]; subst; cbn in Hev; subst events;
    cbn [run_threads process_events] in Hrun.
  - destruct (tick samples_per_call bytes_per_call num_subbuffers env_k l st)
      as [[l1 st1] |] eqn:Htick; [| discriminate].
    destruct (tick_forwards env_k l l1 st st1 Htick) as (_ & _ & _ & _ & F5 & _).
    destruct (tick_pacing_quiet env_k l st Hw Hp Hink) as (Q1 & _).
    destruct (idle_passes_keep_the_stream schedule rs rs' l1 l' st1 st'
                Hrest Hrun) as (_ & I2 & _).
    apply I2. apply F5; assumption.
  - destruct (tick samples_per_call bytes_per_call num_subbuffers env l st)
      as [[l1 st1] |] eqn:Htick; [| discriminate].
    inversion Hin as [| ? ? Hine Hins]; subst.
    destruct (tick_forwards env l l1 st st1 Htick) as (F1 & F2 & _).
    destruct (tick_pacing_quiet env l st Hw Hp Hine) as (_ & Q2 & Q3).
    rewrite <- F1 in Q2, Q3.
    apply (IH schedule env_k after rs rs' l1 l' st1 st' Hrest F2 Q2 Hsplit).
    + rewrite Q3. exact Hins.
    + rewrite Q3. exact Hink.
    + exact Hroom.
    + exact Hrun.
Qed.

End PassFacts.

(** What the producer has enqueued reaches the engine at the first pass of
    [main_loop] that finds room in the device.  After [process_event] has
    raised [midi_event_written], and while no further event arrives: the
    first pass lowers the flag and unpauses the device if it was paused;
    no byte is lost or repeated; as long as no pass finds three periods
    free, the bytes stay pending and nothing is forwarded; and once a
    pass has found three periods free, that pass and those before it
    being not more than 60 whole seconds after the first one (so that the
    loop has not paused in between), every pending byte has been handed
    to the engine and the channel is empty. *)
Theorem events_reach_the_engine_at_the_first_pass_with_room
  (samples_per_call bytes_per_call num_subbuffers : Z)
  (events : list snd_seq_event) (env0 : tick_env)
  (rest : list (list snd_seq_event * tick_env))
  (rs rs' : Z) (l l' : locals) (st st' : state) :
  wf st ->
  let st1 := (process_events events rs st).2 in
  let passes := env0 :: map snd rest in
  midi_event_written st1 <> 0 ->
  idle rest ->
  run_threads samples_per_call bytes_per_call num_subbuffers
    ((events, env0) :: rest) rs l st = Some (rs', l', st') ->
  midi_event_written st' = 0 /\
  (is_paused l <> 0 -> In (snd_pcm_pause 0) (trace st')) /\
  forwarded (trace st') ++ pending st'
  = forwarded (trace st) ++ pending st1 /\
  (Forall (fun env => ~ has_room samples_per_call env) passes ->
   forwarded (trace st') = forwarded (trace st) /\ pending st' = pending st1) /\
  (forall (waiting : list tick_env) (env_k : tick_env) (after : list tick_env),
      passes = waiting ++ env_k :: after ->
      Forall (within_idle_threshold (clock_ret env0)) waiting ->
      within_idle_threshold (clock_ret env0) env_k ->
      has_room samples_per_call env_k ->
      forwarded (trace st') = forwarded (trace st) ++ pending st1 /\
      pending st' = []).
Proof.
  intros Hwf st1 passes Hflag Hidle Hrun.
  destruct (process_events_producer events rs st Hwf)
    as (_ & (_ & _ & _ & Hfw) & _).
  fold st1 in Hfw.
  cbn [run_threads] in Hrun.
  destruct (process_events events rs st) as [rs1 stx] eqn:Hpe.
  cbn [snd] in st1. subst st1. 
  destruct (tick samples_per_call bytes_per_call num_subbuffers env0 l stx)
    as [[l1 st2] |] eqn:Htick; [| discriminate].
  destruct (tick_forwards _ _ _ env0 l l1 stx st2 Htick)
    as (F1 & F2 & (new1 & F3) & F4 & F5 & F6).
  destruct (tick_pacing_flagged env0 l stx Hflag) as (G1 & G2 & G3 & G4).
  rewrite <- F1 in G2, G3.
  destruct (idle_passes_keep_the_stream _ _ _ rest rs1 rs' l1 l' st2 st'
              Hidle Hrun) as (I1 & I2 & I3 & I4 & (new2 & I5)).
  assert (Hstream : forwarded (trace st') ++ pending st'
                    = forwarded (trace st) ++ pending stx).
  { pose proof (eq_trans I1 F4) as Hs. rewrite !stream_eq in Hs.
    rewrite Hs, Hfw. reflexivity. }
  split; [exact (I4 F2) |].
  split.
  { intros Hp. destruct (G4 Hp) as (pre & post & Hpre).
    rewrite I5, F3, Hpre, <- !app_assoc.
    apply in_or_app. right. left. reflexivity. }
  split; [exact Hstream |].
  split.
  - intros Hall. unfold passes in Hall.
    pose proof (Forall_inv Hall) as Hno.
    pose proof (Forall_inv_tail Hall) as Hnos.
    assert (Hp : pending st' = pending stx).
    { rewrite I3; [exact (F6 Hno) |].
      rewrite Forall_map in Hnos. exact Hnos. }
    split; [| exact Hp].
    rewrite Hp in Hstream. exact (app_inv_tail _ _ _ Hstream).
  - intros waiting env_k after Hsplit Hin Hink Hroom.
    assert (Hp : pending st' = []).
    { destruct waiting as [| env waiting]; cbn [app] in Hsplit;
        unfold passes in Hsplit; injection Hsplit as <- Hsplit.
      - apply I2. apply F5; assumption.
      - pose proof (Forall_inv_tail Hin) as Hins.
        apply (active_passes_reach_room samples_per_call bytes_per_call
                 num_subbuffers waiting rest env_k after
                 rs1 rs' l1 l' st2 st' Hidle F2 G2 Hsplit).
        + rewrite G3. exact Hins.
        + rewrite G3. exact Hink.
        + exact Hroom.
        + exact Hrun. }
    split; [| exact Hp].
    rewrite Hp, app_nil_r in Hstream. exact Hstream.
Qed.

(** A note-on arrives while the loop is paused.  The pass that finds the
    flag unpauses the device but has only two periods free (256 frames):
    nothing is forwarded.  The pass after it has three and hands the
    three bytes to the engine. *)
Lemma events_reach_the_engine_at_the_first_pass_with_room_witness :
  let env0 := mkTickEnv (mkTimespec 5 0) 0 SND_PCM_STATE_RUNNING 256 [] [] in
  let env1 := mkTickEnv (mkTimespec 5 10000000) 0 SND_PCM_STATE_RUNNING 384
                [(0, 128)] [128] in
  let l := mkLocals 1 (mkTimespec 0 0) (mkTimespec 0 0) CLOCK_MONOTONIC in
  let events := [SND_SEQ_EVENT_NOTEON 0 60 100] in
  option_map (fun r => forwarded (trace r.2))
    (run_threads 128 512 4 [(events, env0)] 0 l initial_state)
  = Some [] /\
  exists (rs' : Z) (l' : locals) (st' : state),
    run_threads 128 512 4 [(events, env0); ([], env1)] 0 l initial_state
    = Some (rs', l', st') /\
    In (snd_pcm_pause 0) (trace st') /\
    forwarded (trace st') = [0x90; 60; 100] /\
    pending st' = [].
Proof.
  intros env0 env1 l events.
  split; [vm_compute; reflexivity |].
  assert (E : option_map (fun r => is_paused r.1.2)
                (run_threads 128 512 4 [(events, env0); ([], env1)] 0 l
                   initial_state)
              = Some 0) by (vm_compute; reflexivity).
  destruct (run_threads 128 512 4 [(events, env0); ([], env1)] 0 l
              initial_state) as [[[rs' l'] st'] |] eqn:Hrun;
    [| discriminate E].
  exists rs', l', st'. split; [reflexivity |].
  destruct (events_reach_the_engine_at_the_first_pass_with_room 128 512 4
              events env0 [([], env1)] 0 rs' l l' initial_state st'
              wf_initial_state)
    as (_ & H2 & _ & _ & H5).
  - vm_compute. discriminate.
  - repeat constructor.
  - exact Hrun.
  - split; [apply H2; cbn; lia |].
    destruct (H5 [env0] env1 []) as (H6 & H7).
    + reflexivity.
    + repeat constructor. unfold within_idle_threshold. cbn. lia.
    + unfold within_idle_threshold. cbn. lia.
    + unfold has_room. vm_compute. discriminate.
    + split; [| exact H7]. rewrite H6.
      assert (Hp : pending (process_events events 0 initial_state).2
                   = [0x90; 60; 100]) by (vm_compute; reflexivity).
      rewrite Hp. reflexivity.
Defined.

(** ** The drain loop and the pool of subbuffers *)

Section PoolFacts.

Variables samples_per_call bytes_per_call num_subbuffers : Z.

Lemma writes_render_into_pool (calls : list call) :
  forallb is_snd_pcm_writei calls = true ->
  Forall (renders_into_pool samples_per_call bytes_per_call num_subbuffers)
    calls.
Proof.
  induction calls as [| c calls IH]; [constructor |].
  cbn [forallb]. intros H. apply andb_prop in H. destruct H as [Hc Hcs].
  constructor; [| exact (IH Hcs)].
  destruct c; try discriminate Hc; exact I.
Qed.

Lemma spans_render_into_pool (spans : list (list Z)) :
  Forall (renders_into_pool samples_per_call bytes_per_call num_subbuffers)
    (map EAS_WriteMIDIStream spans).
Proof. induction spans; constructor; [exact I | assumption]. Qed.

Lemma drain_loop_renders_into_pool (render_rets : list (Z * Z)) :
  forall (writei_rets : list Z) (available_frames : Z) (st : state)
         (a : Z) (st' : state),
    0 <= bytes_per_call ->
    num_subbuffers * bytes_per_call <= 65536 ->
    num_subbuffers < 2 ^ 32 ->
    0 <= subbuf_counter st < num_subbuffers ->
    drain_loop samples_per_call bytes_per_call num_subbuffers
      render_rets writei_rets available_frames st = Some (a, st') ->
    exists new : list call,
      trace st' = trace st ++ new /\
      Forall (renders_into_pool samples_per_call bytes_per_call num_subbuffers)
        new.
Proof.
  induction render_rets as [| render_ret render_rets IH];
    intros writei_rets available_frames st a st' Hb Hpool HN Hc Hrun.
  - simpl in Hrun.
    destruct (available_frames >=? u32 (3 * samples_per_call)); [discriminate |].
    injection Hrun as <- <-. exists []. rewrite app_nil_r. split; constructor.
  - destruct (Z.geb_spec available_frames (u32 (3 * samples_per_call)))
      as [Hge | Hlt].
    + rewrite drain_loop_cons in Hrun by lia. cbv zeta in Hrun.
      destruct (render_subbuffer_drains samples_per_call bytes_per_call
                  (subbuf_counter st) render_ret st)
        as (R1 & _ & _ & _ & R5 & _).
      set (r := (render_subbuffer samples_per_call bytes_per_call
                   (subbuf_counter st) render_ret st).1) in *.
      set (st1 := (render_subbuffer samples_per_call bytes_per_call
                     (subbuf_counter st) render_ret st).2) in *.
      set (st2 := if r <? 0
                  then do_call (fprintf_stderr "Error rendering audio data\n" [])
                         st1
                  else st1) in *.
      assert (Hoff : renders_into_pool samples_per_call bytes_per_call
                       num_subbuffers
                       (EAS_Render (u32 (subbuf_counter st * bytes_per_call))
                          samples_per_call)).
      { assert (0 <= subbuf_counter st * bytes_per_call
                /\ subbuf_counter st * bytes_per_call + bytes_per_call
                   <= num_subbuffers * bytes_per_call) by nia.
        cbn [renders_into_pool]. rewrite u32_small by lia.
        split; [reflexivity |]. split; [eauto |]. lia. }
      assert (H2 : subbuf_counter st2 = subbuf_counter st /\
                   exists new2, trace st2 = trace st ++ new2 /\
                     Forall (renders_into_pool samples_per_call bytes_per_call
                               num_subbuffers) new2).
      { assert (Hall1 : Forall (renders_into_pool samples_per_call
                                  bytes_per_call num_subbuffers)
                          (map EAS_WriteMIDIStream (drained_spans st) ++
                           [EAS_Render (u32 (subbuf_counter st * bytes_per_call))
                              samples_per_call])).
        { apply Forall_app. split; [apply spans_render_into_pool |].
          constructor; [exact Hoff | constructor]. }
        unfold st2. destruct (r <? 0); cbn [do_call subbuf_counter trace];
          rewrite R1; (split; [exact R5 |]).
        - eexists. split; [rewrite <- (app_assoc (trace st)); reflexivity |].
          apply Forall_app. split; [exact Hall1 |].
          constructor; [exact I | constructor].
        - eexists. split; [reflexivity | exact Hall1]. }
      destruct H2 as (Hc2 & new2 & Ht2 & Hall2).
      destruct (output_subbuffer samples_per_call bytes_per_call
                  (subbuf_counter st2) writei_rets st2)
        as [[[o rets3] st3] |] eqn:Hout; [| discriminate].
      apply output_loop_calls in Hout.
      destruct Hout as (calls3 & -> & H3c & _).
      apply writes_render_into_pool in H3c.
      destruct (o <? 0).
      * injection Hrun as <- <-.
        exists (new2 ++ calls3 ++ [fprintf_stderr "Error writing audio data\n" []]).
        cbn [do_call do_calls trace]. rewrite Ht2, <- !app_assoc.
        split; [reflexivity |].
        repeat (apply Forall_app; split); try assumption.
        repeat constructor.
      * apply IH in Hrun; try assumption.
        -- destruct Hrun as (new4 & Ht4 & Hall4).
           exists (new2 ++ calls3 ++ new4).
           rewrite Ht4. cbn [set_subbuf_counter do_calls trace].
           rewrite Ht2, <- !app_assoc. split; [reflexivity |].
           repeat (apply Forall_app; split); assumption.
        -- cbn [set_subbuf_counter do_calls subbuf_counter].
           rewrite Hc2, advance_counter by assumption.
           apply Z.mod_pos_bound. lia.
    + rewrite drain_loop_stop in Hrun by lia.
      injection Hrun as <- <-. exists []. rewrite app_nil_r. split; constructor.
Qed.

End PoolFacts.

(** Rendering never leaves the staging buffer: when the pool of
    [num_subbuffers] slots of [bytes_per_call] bytes fits in the 65536
    bytes of [midi_buffer] and [subbuf_counter] starts below
    [num_subbuffers], every [EAS_Render] call of the drain loop, whatever
    the engine and the device answer and however often it runs, asks for
    one period at the start of a slot of the pool, and [subbuf_counter]
    is below [num_subbuffers] again afterwards. *)
Theorem rendering_stays_in_the_pool
  (samples_per_call bytes_per_call num_subbuffers : Z)
  (render_rets : list (Z * Z)) (writei_rets : list Z)
  (available_frames a : Z) (st st' : state) :
  0 <= bytes_per_call ->
  num_subbuffers * bytes_per_call <= 65536 ->
  num_subbuffers < 2 ^ 32 ->
  0 <= subbuf_counter st < num_subbuffers ->
  drain_loop samples_per_call bytes_per_call num_subbuffers
    render_rets writei_rets available_frames st = Some (a, st') ->
  (exists new : list call,
      trace st' = trace st ++ new /\
      Forall (renders_into_pool samples_per_call bytes_per_call num_subbuffers)
        new) /\
  0 <= subbuf_counter st' < num_subbuffers.
Proof.
  intros Hb Hpool HN Hc Hrun. split.
  - apply (drain_loop_renders_into_pool samples_per_call bytes_per_call
             num_subbuffers render_rets writei_rets available_frames st a st');
      assumption.
  - apply drain_loop_keeps in Hrun.
    destruct Hrun as (_ & _ & _ & _ & _ & Lc). apply Lc; assumption.
Qed.

(** Five rounds over a pool of four slots: the counter wraps from slot 3
    to slot 0. *)
Lemma rendering_stays_in_the_pool_witness :
  let st := set_subbuf_counter 2 initial_state in
  exists (a : Z) (st' : state),
    drain_loop 128 512 4 (replicate 5 (0, 128)) (replicate 5 128) 896 st
    = Some (a, st') /\
    List.filter is_EAS_call (trace st')
    = [EAS_Render 1024 128; EAS_Render 1536 128; EAS_Render 0 128;
       EAS_Render 512 128; EAS_Render 1024 128] /\
    0 <= subbuf_counter st' < 4.
Proof.
  intros st.
  assert (E : option_map (fun r => List.filter is_EAS_call (trace r.2))
                (drain_loop 128 512 4 (replicate 5 (0, 128)) (replicate 5 128)
                   896 st)
              = Some [EAS_Render 1024 128; EAS_Render 1536 128; EAS_Render 0 128;
                      EAS_Render 512 128; EAS_Render 1024 128])
    by (vm_compute; reflexivity).
  destruct (drain_loop 128 512 4 (replicate 5 (0, 128)) (replicate 5 128) 896 st)
    as [[a st'] |] eqn:Hrun; [| discriminate E].
  exists a, st'. split; [reflexivity |].
  injection E as E. split; [exact E |].
  refine (proj2 (rendering_stays_in_the_pool 128 512 4 _ _ 896 a st st'
                   _ _ _ _ Hrun)); cbn; lia.
Defined.

(** 700 frames available, periods of 128: three rounds (700, 572 and 444
    are at least 384; 316 is not), and the counter goes from 0 to 3. *)
Lemma drain_loop_accepting_witness :
  exists st' : state,
    drain_loop 128 512 4 (replicate 3 (EAS_SUCCESS, 128) ++ [])
      (replicate 3 128 ++ []) 700 initial_state
    = Some (700 - 3 * 128, st') /\
    subbuf_counter st' = 3.
Proof.
  destruct (drain_loop_accepting 128 512 4 3 [] [] 700 initial_state)
    as (st' & Hrun & Hc); try (cbn; lia).
  exists st'. split; [exact Hrun | exact Hc].
Defined.

(** ** The frames of a period: [output_subbuffer] *)

Section PeriodFacts.

Lemma writei_calls_length (ws : list Z) :
  forall remaining buf_ptr : Z,
    length (writei_calls ws remaining buf_ptr) = length ws.
Proof.
  induction ws as [| w ws IH]; intros remaining buf_ptr; [reflexivity |].
  cbn [writei_calls length]. rewrite IH. reflexivity.
Qed.

(** Each request ends where the period ends; the pieces accepted add up
    to what was asked, or to less when the device ends with an error. *)
Lemma writei_calls_tile (ws : list Z) (remaining result : Z) :
  device_writes ws remaining result ->
  forall samples_per_call base buf_ptr : Z,
    0 <= remaining <= samples_per_call ->
    buf_ptr + 4 * remaining = base + 4 * samples_per_call ->
    Forall (completes_period samples_per_call base)
      (writei_calls ws remaining buf_ptr) /\
    (result = 0 -> sum_frames ws = remaining) /\
    (result = -1 ->
     exists (taken : list Z) (error : Z),
       ws = taken ++ [error] /\ error < 0 /\
       Forall (fun w => 0 <= w) taken /\
       sum_frames taken < remaining).
Proof.
  induction 1 as [| w remaining Hne Hw | w ws remaining result Hne Hw Hdev IH];
    intros samples_per_call base buf_ptr Hrange Hend.
  - split; [constructor |]. split; [reflexivity | discriminate].
  - split; [| split; [lia |]].
    + constructor; [| constructor]. cbn [completes_period]. lia.
    + intros _. exists [], w. cbn [app sum_frames fold_right].
      split; [reflexivity |]. split; [exact Hw |].
      split; [constructor | lia].
  - destruct (IH samples_per_call base (buf_ptr + Z.shiftl w 2))
      as (I1 & I2 & I3).
    + lia.
    + rewrite Z.shiftl_mul_pow2 by lia. change (2 ^ 2) with 4. lia.
    + split; [| split].
      * cbn [writei_calls]. constructor; [| exact I1].
        cbn [completes_period]. lia.
      * intros Hr. unfold sum_frames in *. cbn [fold_right].
        rewrite (I2 Hr). lia.
      * intros Hr. destruct (I3 Hr) as (taken & error & -> & He & Hall & Hsum).
        exists (w :: taken), error.
        split; [reflexivity |]. split; [exact He |].
        split; [constructor; [lia | exact Hall] |].
        unfold sum_frames in *. cbn [fold_right]. lia.
Qed.

End PeriodFacts.

(** [output_subbuffer] and a device that takes a period in pieces, none
    larger than what is asked: every call of [snd_pcm_writei] asks for
    all the frames still missing, at the byte where they start, so that
    each request ends exactly where the period ends, 4 bytes a frame
    after the start of the slot; the function returns 0 when the pieces
    taken add up to the period, and -1 at the first error, with less
    than a period taken. *)
Theorem output_subbuffer_tiles_the_period
  (samples_per_call bytes_per_call num : Z) (ws rest : list Z) (result : Z)
  (st : state) :
  0 <= samples_per_call < 2 ^ 32 ->
  device_writes ws samples_per_call result ->
  let base := u32 (num * bytes_per_call) in
  let calls := writei_calls ws samples_per_call base in
  output_subbuffer samples_per_call bytes_per_call num (ws ++ rest) st
  = Some (result, rest, do_calls calls st) /\
  length calls = length ws /\
  Forall (completes_period samples_per_call base) calls /\
  (result = 0 -> sum_frames ws = samples_per_call) /\
  (result = -1 ->
   exists (taken : list Z) (error : Z),
     ws = taken ++ [error] /\ error < 0 /\
     Forall (fun w => 0 <= w) taken /\
     sum_frames taken < samples_per_call).
Proof.
  intros Hrange Hdev base calls.
  split.
  { unfold output_subbuffer. apply output_loop_device_writes; [exact Hdev | lia]. }
  split; [apply writei_calls_length |].
  apply (writei_calls_tile ws samples_per_call result Hdev
           samples_per_call base base); lia.
Qed.

(** A period of 128 frames taken as 100, 0 and 28 frames, slot 3 of 512
    bytes: the requests are for 128, 28 and 28 frames, at bytes 1536, 1936
    and 1936. *)
Lemma output_subbuffer_tiles_the_period_witness :
  option_map (fun r => (r.1.1, r.1.2, trace r.2))
    (output_subbuffer 128 512 3 [100; 0; 28; 128] initial_state)
  = Some (0, [128],
          [snd_pcm_writei 1536 128; snd_pcm_writei 1936 28;
           snd_pcm_writei 1936 28]) /\
  sum_frames [100; 0; 28] = 128.
Proof.
  assert (Hdev : device_writes [100; 0; 28] 128 0).
  { apply device_writes_partial; [lia | lia |].
    apply (device_writes_partial 0 [28] 28 0); [lia | lia |].
    apply (device_writes_partial 28 [] 28 0); [lia | lia |].
    apply device_writes_done. }
  destruct (output_subbuffer_tiles_the_period 128 512 3 [100; 0; 28] [128] 0
              initial_state ltac:(lia) Hdev) as (H1 & _ & _ & H4 & _).
  change ([100; 0; 28] ++ [128]) with [100; 0; 28; 128] in H1.
  rewrite H1. split; [| exact (H4 eq_refl)].
  cbn [option_map fst snd do_calls trace initial_state app].
  vm_compute. reflexivity.
Defined.

(** ** Reading the DLS file: [dls_read_at] *)

Section DlsFacts.

Lemma span_length_in (buf : list Z) (i n : Z) :
  0 <= i -> 0 <= n -> i + n <= Z.of_nat (length buf) ->
  Z.of_nat (length (span buf i n)) = n.
Proof.
  intros Hi Hn Hin. unfold span.
  rewrite length_take, length_drop. lia.
Qed.

Lemma span_app (buf : list Z) (i n m : Z) :
  0 <= i -> 0 <= n -> 0 <= m ->
  span buf i (n + m) = span buf i n ++ span buf (i + n) m.
Proof.
  intros Hi Hn Hm. unfold span.
  rewrite !Z2Nat.inj_add by lia.
  rewrite <- drop_drop.
  generalize (drop (Z.to_nat i) buf) as l. generalize (Z.to_nat n) as k.
  induction k as [| k IH]; intros l; [reflexivity |].
  destruct l as [| x l]; [cbn; rewrite !take_nil; reflexivity |].
  cbn [Nat.add take drop app]. rewrite IH. reflexivity.
Qed.

(** What a call with a size that is not negative returns. *)
Lemma dls_read_at_spec (handle : dls_file_handle_t) (offset size : Z) :
  0 <= size ->
  dls_read_at handle offset size
  = if (offset <? 0) || (offset >=? dls_size handle) then Some ([], 0)
    else Some (span (dls_address handle) offset
                 (Z.min size (dls_size handle - offset)),
               Z.min size (dls_size handle - offset)).
Proof.
  intros Hsize. unfold dls_read_at.
  destruct ((offset <? 0) || (offset >=? dls_size handle)) eqn:Hout;
    [reflexivity |].
  apply orb_false_elim in Hout. destruct Hout as [Hlo Hhi].
  destruct (Z.gtb_spec size (dls_size handle - offset)).
  - rewrite Z.min_r by lia.
    destruct (Z.ltb_spec (dls_size handle - offset) 0); [lia | reflexivity].
  - rewrite Z.min_l by lia.
    destruct (Z.ltb_spec size 0); [lia | reflexivity].
Qed.

End DlsFacts.

(** [dls_read_at] never reads outside the mapped file: for a size that is
    not negative it returns the number of bytes it has copied, at most
    [size], all of them bytes of the file from [offset] on; it copies
    nothing for an offset that is negative or at or past the end, and
    stops at the end of the file otherwise.  The upper side only is
    guarded: with an offset inside the file a negative size reaches
    [memcpy] as it is. *)
Theorem dls_read_at_stays_in_the_file (handle : dls_file_handle_t)
  (offset size : Z) :
  dls_mapped handle ->
  (0 <= size ->
   exists (bytes : list Z) (n : Z),
     dls_read_at handle offset size = Some (bytes, n) /\
     Z.of_nat (length bytes) = n /\
     0 <= n <= size /\
     (offset < 0 \/ dls_size handle <= offset -> n = 0) /\
     (0 <= offset < dls_size handle ->
      n = Z.min size (dls_size handle - offset) /\
      offset + n <= dls_get_size handle /\
      forall i : nat,
        (i < Z.to_nat n)%nat ->
        bytes !! i = dls_address handle !! (Z.to_nat offset + i)%nat)) /\
  (size < 0 -> 0 <= offset < dls_size handle ->
   dls_read_at handle offset size = None).
Proof.
  intros Hmap. unfold dls_mapped in Hmap. split.
  - intros Hsize. rewrite dls_read_at_spec by exact Hsize.
    destruct ((offset <? 0) || (offset >=? dls_size handle)) eqn:Hout.
    + exists [], 0. split; [reflexivity |]. split; [reflexivity |].
      split; [lia |]. split; [reflexivity |].
      apply orb_prop in Hout. destruct Hout as [H | H]; lia.
    + apply orb_false_elim in Hout. destruct Hout as [Hlo Hhi].
      eexists. eexists. split; [reflexivity |].
      split; [apply span_length_in; lia |].
      split; [lia |]. split; [lia |]. intros _.
      split; [reflexivity |]. split; [unfold dls_get_size; lia |].
      intros i Hi. unfold span.
      rewrite lookup_take_lt by exact Hi. apply lookup_drop.
  - intros Hneg Hin. unfold dls_read_at.
    destruct (Z.ltb_spec offset 0); [lia |].
    destruct (Z.geb_spec offset (dls_size handle)); [lia |].
    cbn [orb].
    destruct (Z.gtb_spec size (dls_size handle - offset)); [lia |].
    destruct (Z.ltb_spec size 0); [reflexivity | lia].
Qed.

(** A file of five bytes: a read of four bytes at offset 3 returns the
    last two. *)
Lemma dls_read_at_stays_in_the_file_witness :
  dls_read_at (mkDlsHandle [82; 73; 70; 70; 9] 5) 3 4 = Some ([70; 9], 2).
Proof.
  destruct (dls_read_at_stays_in_the_file (mkDlsHandle [82; 73; 70; 70; 9] 5)
              3 4 eq_refl) as (H & _).
  destruct (H ltac:(lia)) as (bytes & n & Hrun & _).
  rewrite Hrun. vm_compute in Hrun. exact (eq_sym Hrun).
Defined.

(** Reads compose: a read of [a] bytes followed by a read of [b] bytes
    where the first one stopped copies what one read of [a + b] bytes
    copies, and the two counts add up; reading piece by piece until 0 is
    returned therefore yields the file from [offset] to its end. *)
Theorem dls_reads_compose (handle : dls_file_handle_t) (offset a b : Z) :
  dls_mapped handle -> 0 <= offset -> 0 <= a -> 0 <= b ->
  exists (bytes1 bytes2 : list Z) (n1 n2 : Z),
    dls_read_at handle offset a = Some (bytes1, n1) /\
    dls_read_at handle (offset + n1) b = Some (bytes2, n2) /\
    dls_read_at handle offset (a + b) = Some (bytes1 ++ bytes2, n1 + n2) /\
    (n1 + n2 < a + b -> offset + n1 + n2 >= dls_get_size handle).
Proof.
  intros Hmap Hoff Ha Hb. unfold dls_mapped in Hmap. unfold dls_get_size.
  rewrite !dls_read_at_spec by lia.
  destruct (Z.ltb_spec offset 0); [lia |].
  destruct (Z.geb_spec offset (dls_size handle)) as [Hout | Hin]; cbn [orb].
  - exists [], [], 0, 0. rewrite Z.add_0_r.
    rewrite dls_read_at_spec by lia.
    destruct (Z.ltb_spec offset 0); [lia |].
    destruct (Z.geb_spec offset (dls_size handle)); [| lia]. cbn [orb].
    split; [reflexivity |]. split; [reflexivity |].
    split; [reflexivity | lia].
  - set (n1 := Z.min a (dls_size handle - offset)).
    assert (Hn1 : 0 <= n1 <= dls_size handle - offset) by (unfold n1; lia).
    destruct (Z_lt_le_dec (offset + n1) (dls_size handle)) as [Hmore | Hend].
    + set (n2 := Z.min b (dls_size handle - (offset + n1))).
      exists (span (dls_address handle) offset n1),
             (span (dls_address handle) (offset + n1) n2), n1, n2.
      rewrite dls_read_at_spec by lia.
      destruct (Z.ltb_spec (offset + n1) 0); [lia |].
      destruct (Z.geb_spec (offset + n1) (dls_size handle)); [lia |].
      cbn [orb]. fold n2.
      split; [reflexivity |]. split; [reflexivity |].
      assert (E : Z.min (a + b) (dls_size handle - offset) = n1 + n2)
        by (unfold n1, n2 in *; lia).
      rewrite E. split; [| unfold n1, n2 in *; lia].
      rewrite span_app by (unfold n2; lia). reflexivity.
    + exists (span (dls_address handle) offset n1), [], n1, 0.
      rewrite dls_read_at_spec by lia.
      destruct (Z.ltb_spec (offset + n1) 0); [lia |].
      destruct (Z.geb_spec (offset + n1) (dls_size handle)); [| lia].
      cbn [orb].
      split; [reflexivity |]. split; [reflexivity |].
      rewrite app_nil_r, Z.add_0_r.
      assert (E : Z.min (a + b) (dls_size handle - offset) = n1)
        by (unfold n1 in *; lia).
      rewrite E. split; [reflexivity | lia].
Qed.

(** The five bytes read as three and then four. *)
Lemma dls_reads_compose_witness :
  let handle := mkDlsHandle [82; 73; 70; 70; 9] 5 in
  dls_read_at handle 0 3 = Some ([82; 73; 70], 3) /\
  dls_read_at handle 3 4 = Some ([70; 9], 2) /\
  dls_read_at handle 0 7 = Some ([82; 73; 70; 70; 9], 5).
Proof.
  intros handle.
  destruct (dls_reads_compose handle 0 3 4 eq_refl) as
    (bytes1 & bytes2 & n1 & n2 & H1 & H2 & H3 & _); [lia | lia | lia |].
  assert (E1 : dls_read_at handle 0 3 = Some ([82; 73; 70], 3))
    by (vm_compute; reflexivity).
  rewrite E1 in H1. injection H1 as <- <-.
  assert (E2 : dls_read_at handle (0 + 3) 4 = Some ([70; 9], 2))
    by (vm_compute; reflexivity).
  rewrite E2 in H2. injection H2 as <- <-.
  split; [exact E1 |]. split; [exact E2 |]. exact H3.
Defined.

(** ** The command line: [read_arguments] *)

Section ArgumentFacts.

Variable atoi : string -> Z.
Variable argv : list string.



End ArgumentFacts.



(** ** The geometry of the staging buffer: [start_synth] *)

Section GeometryFacts.

Lemma u32_range (x : Z) : 0 <= u32 x < 2 ^ 32.
Proof. unfold u32. apply Z.mod_pos_bound. lia. Qed.

Lemma u64_small (x : Z) : 0 <= x < 2 ^ 64 -> u64 x = x.
Proof. intros H. unfold u64. apply Z.mod_small. exact H. Qed.

(** The quotient of line 962 fits the [unsigned int] it is stored in. *)
Lemma subbuffer_quotient (frequency samples_per_call : Z) :
  0 <= frequency < 2 ^ 32 -> 0 < samples_per_call ->
  let q := (4096 * frequency) / (11025 * samples_per_call) in
  0 <= q < 2 ^ 32 /\ 11025 * (q * samples_per_call) <= 4096 * frequency.
Proof.
  intros Hf Hs q.
  assert (Hq0 : 0 <= q) by (apply Z.div_pos; lia).
  pose proof (Z.mul_div_le (4096 * frequency) (11025 * samples_per_call)
                ltac:(lia)) as Hle.
  fold q in Hle. split; [| lia]. split; [exact Hq0 |]. nia.
Qed.

End GeometryFacts.

(** The geometry [start_synth] accepts fits [midi_buffer]: there are at
    least 4 subbuffers, each of at most 16384 bytes, and together they
    take at most the 65536 bytes of the buffer; they hold at most
    4096/11025 of a second of sound; the product [samples_per_call *
    num_subbuffers] that [set_hw_params] asks the device for does not
    wrap.  Hence, from the counter 0 that [start_synth] sets, every
    [EAS_Render] call of the inner loop of [main_loop] writes a slot
    that lies within [midi_buffer]. *)
Theorem start_synth_geometry_fits_midi_buffer (sizeof_EAS_PCM : Z)
  (eas_config : S_EAS_LIB_CONFIG) (g : geometry) :
  start_synth_geometry sizeof_EAS_PCM eas_config = Some (Supported g) ->
  let samples_per_call := geo_samples_per_call g in
  let bytes_per_call := geo_bytes_per_call g in
  let num_subbuffers := geo_num_subbuffers g in
  4 <= num_subbuffers <= 65536 /\
  0 < bytes_per_call <= 16384 /\
  num_subbuffers * bytes_per_call <= 65536 /\
  0 < samples_per_call < 2 ^ 32 /\
  11025 * (num_subbuffers * samples_per_call) <= 4096 * geo_frequency g /\
  hw_buffer_size g = samples_per_call * num_subbuffers /\
  (forall (render_rets : list (Z * Z)) (writei_rets : list Z)
          (available_frames a : Z) (st st' : state),
      subbuf_counter st = 0 ->
      drain_loop samples_per_call bytes_per_call num_subbuffers
        render_rets writei_rets available_frames st = Some (a, st') ->
      exists new : list call,
        trace st' = trace st ++ new /\
        Forall (renders_into_pool samples_per_call bytes_per_call
                  num_subbuffers) new).
Proof.
  unfold start_synth_geometry.
  set (num_channels := u32 (numChannels eas_config)).
  set (frequency := u32 (sampleRate eas_config)).
  set (spc := u32 (mixBufferSize eas_config)).
  set (bpc := u32 (u64 (u32 (spc * num_channels) * sizeof_EAS_PCM))).
  set (q := (4096 * frequency) / (11025 * spc)).
  pose proof (u32_range (sampleRate eas_config)) as Hf. fold frequency in Hf.
  pose proof (u32_range (mixBufferSize eas_config)) as Hs. fold spc in Hs.
  pose proof (u32_range (u64 (u32 (spc * num_channels) * sizeof_EAS_PCM)))
    as Hb. fold bpc in Hb.
  destruct (Z.eqb_spec (11025 * spc) 0) as [| Hs0]; [discriminate |].
  destruct (Z.eqb_spec bpc 0) as [| Hb0]; [discriminate |].
  destruct (subbuffer_quotient frequency spc Hf ltac:(lia)) as (Hq & Hdur).
  fold q in Hq, Hdur.
  rewrite (u32_small q) by exact Hq.
  set (c := 65536 / bpc).
  assert (Hc : 0 <= c /\ c * bpc <= 65536 /\ c <= 65536).
  { pose proof (Z.mul_div_le 65536 bpc ltac:(lia)) as Hle. fold c in Hle.
    assert (0 <= c) by (apply Z.div_pos; lia). nia. }
  set (n := if q >? c then c else q).
  assert (Hn : n <= q /\ n <= c) by (unfold n; destruct (Z.gtb_spec q c); lia).
  destruct (Z.ltb_spec n 4) as [| Hn4]; [discriminate |].
  intros [= <-].
  cbn [geo_samples_per_call geo_bytes_per_call geo_num_subbuffers
       geo_frequency].
  assert (Hpool : n * bpc <= 65536) by nia.
  assert (Hframes : 11025 * (n * spc) <= 4096 * frequency) by nia.
  split; [lia |]. split; [nia |]. split; [exact Hpool |]. split; [lia |].
  split; [exact Hframes |]. split.
  - unfold hw_buffer_size.
    cbn [geo_samples_per_call geo_num_subbuffers].
    assert (0 <= spc * n < 2 ^ 32) by nia.
    rewrite u32_small by assumption. apply u64_small. lia.
  - intros render_rets writei_rets available_frames a st st' Hcounter Hrun.
    apply (drain_loop_renders_into_pool spc bpc n render_rets writei_rets
             available_frames st a st'); try lia.
    exact Hrun.
Qed.

(** Two channels of 16-bit samples at 22050 Hz, periods of 128 frames:
    512 bytes a period, 64 subbuffers, half of [midi_buffer]. *)
Lemma start_synth_geometry_fits_midi_buffer_witness :
  let g := mkGeometry 2 22050 128 512 64 in
  start_synth_geometry 2 (mkEasConfig 2 22050 128) = Some (Supported g) /\
  geo_num_subbuffers g * geo_bytes_per_call g <= 65536 /\
  hw_buffer_size g = 128 * 64.
Proof.
  intros g.
  assert (Hrun : start_synth_geometry 2 (mkEasConfig 2 22050 128)
                 = Some (Supported g)) by (vm_compute; reflexivity).
  destruct (start_synth_geometry_fits_midi_buffer 2 _ g Hrun)
    as (_ & _ & H3 & _ & _ & H6 & _).
  split; [exact Hrun |]. split; [exact H3 | exact H6].
Defined.

(** ** Giving up root: [drop_privileges] *)

(** [drop_privileges] never sets the identity of root: every [setgid] and
    [setuid] it calls is given an id between 1 and 2^32 - 1.  When the
    process is not root it does nothing and returns 0.  When an identity
    cannot be determined (results -1 to -4) nothing is changed.  The
    group is set first and the user only once [setgid] has succeeded;
    the result is 0, for root, exactly when both calls have been made and
    have succeeded, and only then is the directory changed and the
    environment touched. *)
Theorem drop_privileges_sets_no_root_identity
  (strtoll : string -> Z * Z) (run_user_dir : Z -> string)
  (env : privileges_env) :
  let r := (drop_privileges strtoll run_user_dir env).1 in
  let calls := (drop_privileges strtoll run_user_dir env).2 in
  -6 <= r <= 0 /\
  Forall sets_no_root_identity calls /\
  (u32 (getuid_ret env) <> 0 -> r = 0 /\ calls = []) /\
  (-5 < r < 0 -> calls = []) /\
  (r = -5 -> setgid_ret env <> 0 /\ exists gid : Z, calls = [setgid gid]) /\
  (r = -6 ->
   setgid_ret env = 0 /\ setuid_ret env <> 0 /\
   exists gid uid : Z, calls = [setgid gid; setuid uid]) /\
  (u32 (getuid_ret env) = 0 -> r = 0 ->
   setgid_ret env = 0 /\ setuid_ret env = 0 /\
   exists (gid uid : Z) (rest : list sys_call),
     calls = setgid gid :: setuid uid :: print_dropped :: chdir "/" :: rest /\
     existsb is_setuid rest = false /\ existsb is_setgid rest = false).
Proof.
  intros r calls. unfold r, calls, drop_privileges. clear r calls.
  destruct (Z.eqb_spec (u32 (getuid_ret env)) 0) as [Hroot | Hroot];
    cbn [negb];
    [| cbn [fst snd]; repeat split; try lia; try constructor;
       try (intros; lia); intros; contradiction].
  assert (Hnone : forall error : Z, -5 < error < 0 ->
            let r := error in
            let calls : list sys_call := [] in
            -6 <= r <= 0 /\
            Forall sets_no_root_identity calls /\
            (u32 (getuid_ret env) <> 0 -> r = 0 /\ calls = []) /\
            (-5 < r < 0 -> calls = []) /\
            (r = -5 -> setgid_ret env <> 0 /\ exists gid : Z, calls = [setgid gid]) /\
            (r = -6 ->
             setgid_ret env = 0 /\ setuid_ret env <> 0 /\
             exists gid uid : Z, calls = [setgid gid; setuid uid]) /\
            (u32 (getuid_ret env) = 0 -> r = 0 ->
             setgid_ret env = 0 /\ setuid_ret env = 0 /\
             exists (gid uid : Z) (rest : list sys_call),
               calls = setgid gid :: setuid uid :: print_dropped :: chdir "/" :: rest /\
               existsb is_setuid rest = false /\ existsb is_setgid rest = false)).
  { intros error Herr. cbv zeta.
    repeat split; try lia; try constructor; intros; lia. }
  assert (Henv : forall uid : Z,
            existsb is_setuid (define_environment run_user_dir env uid) = false /\
            existsb is_setgid (define_environment run_user_dir env uid) = false /\
            Forall sets_no_root_identity (define_environment run_user_dir env uid)).
  { intros uid. unfold define_environment.
    destruct (unset_or_empty (XDG_RUNTIME_DIR env)); [| repeat constructor].
    destruct (stat env (run_user_dir uid)) as [statbuf |]; [| repeat constructor].
    destruct (is_dir statbuf && (st_uid statbuf =? uid)); [| repeat constructor].
    destruct (unset_or_empty (XDG_CONFIG_HOME env)); [| repeat constructor].
    destruct (getpwuid env uid); repeat constructor. }
  assert (Hset : forall gid uid : Z, 0 < gid < 2 ^ 32 -> 0 < uid < 2 ^ 32 ->
            let run : Z * list sys_call :=
              if negb (setgid_ret env =? 0) then (-5, [setgid gid])
              else if negb (setuid_ret env =? 0)
                   then (-6, [setgid gid; setuid uid])
              else (0, [setgid gid; setuid uid; print_dropped; chdir "/"]
                         ++ define_environment run_user_dir env uid) in
            -6 <= run.1 <= 0 /\
            Forall sets_no_root_identity run.2 /\
            (u32 (getuid_ret env) <> 0 -> run.1 = 0 /\ run.2 = []) /\
            (-5 < run.1 < 0 -> run.2 = []) /\
            (run.1 = -5 ->
             setgid_ret env <> 0 /\ exists gid : Z, run.2 = [setgid gid]) /\
            (run.1 = -6 ->
             setgid_ret env = 0 /\ setuid_ret env <> 0 /\
             exists gid uid : Z, run.2 = [setgid gid; setuid uid]) /\
            (u32 (getuid_ret env) = 0 -> run.1 = 0 ->
             setgid_ret env = 0 /\ setuid_ret env = 0 /\
             exists (gid uid : Z) (rest : list sys_call),
               run.2 = setgid gid :: setuid uid :: print_dropped :: chdir "/" :: rest /\
               existsb is_setuid rest = false /\ existsb is_setgid rest = false)).
  { intros gid uid Hgid Huid. cbv zeta.
    destruct (Henv uid) as (E1 & E2 & E3).
    destruct (Z.eqb_spec (setgid_ret env) 0) as [Hg | Hg]; cbn [negb];
      [destruct (Z.eqb_spec (setuid_ret env) 0) as [Hu | Hu]; cbn [negb] |];
      cbn [fst snd app].
    - split; [lia |].
      split; [repeat (constructor; [cbn; auto |]); exact E3 |].
      split; [intros; contradiction |]. split; [lia |]. split; [lia |].
      split; [lia |]. intros _ _. split; [exact Hg |]. split; [exact Hu |].
      exists gid, uid, (define_environment run_user_dir env uid). auto.
    - split; [lia |].
      split; [repeat (constructor; [cbn; auto |]); constructor |].
      split; [intros; contradiction |]. split; [lia |]. split; [lia |].
      split; [| lia]. intros _. split; [exact Hg |]. split; [exact Hu |].
      exists gid, uid. reflexivity.
    - split; [lia |].
      split; [repeat (constructor; [cbn; auto |]); constructor |].
      split; [intros; contradiction |]. split; [lia |].
      split; [| split; lia]. intros _. split; [exact Hg |].
      exists gid. reflexivity. }
  destruct (match SUDO_UID env with
            | Some sudo_id => Some sudo_id
            | None => PKEXEC_UID env
            end) as [sudo_id |]; [| apply (Hnone (-1)); lia].
  destruct (strtoll sudo_id) as [llid errno].
  destruct (Z.eqb_spec errno 0) as [He | He]; cbn [negb orb];
    [| apply (Hnone (-2)); lia].
  destruct (Z.eqb_spec (u32 llid) 0) as [Hu0 | Hu0]; cbn [orb];
    [apply (Hnone (-2)); lia |].
  destruct (Z.eqb_spec llid (u32 llid)) as [Hfit | Hfit]; cbn [negb];
    [| apply (Hnone (-2)); lia].
  assert (Huid : 0 < u32 llid < 2 ^ 32).
  { pose proof (Z.mod_pos_bound llid (2 ^ 32) ltac:(lia)) as Hb.
    unfold u32 in *. lia. }
  assert (Hrange : forall x : Z, u32 x <> 0 -> 0 < u32 x < 2 ^ 32).
  { intros x Hx. pose proof (Z.mod_pos_bound x (2 ^ 32) ltac:(lia)) as Hb.
    unfold u32 in *. lia. }
  destruct (Z.eqb_spec (u32 (getgid_ret env)) 0) as [Hg0 | Hg0].
  - destruct (SUDO_GID env) as [sudo_gid |].
    + destruct (strtoll sudo_gid) as [llgid errno'].
      destruct (Z.eqb_spec errno' 0) as [He' | He']; cbn [negb orb];
        [| apply (Hnone (-4)); lia].
      destruct (Z.eqb_spec (u32 llgid) 0) as [Hgz | Hgz]; cbn [orb];
        [apply (Hnone (-4)); lia |].
      destruct (Z.eqb_spec llgid (u32 llgid)) as [Hgfit | Hgfit]; cbn [negb];
        [| apply (Hnone (-4)); lia].
      apply (Hset (u32 llgid) (u32 llid)); auto.
    + destruct (getpwuid env (u32 llid)) as [passwdbuf |].
      * destruct (Z.eqb_spec (u32 (pw_gid passwdbuf)) 0) as [Hpz | Hpz];
          [apply (Hnone (-3)); lia |].
        apply (Hset (u32 (pw_gid passwdbuf)) (u32 llid)); auto.
      * rewrite Hg0. cbn [Z.eqb]. apply (Hnone (-3)); lia.
  - apply (Hset (u32 (getgid_ret env)) (u32 llid)); auto.
Qed.

(** Root through sudo, user 1000 of group 1000: both identities are set,
    the group first, and [XDG_RUNTIME_DIR] is defined. *)
Lemma drop_privileges_sets_no_root_identity_witness :
  let strtoll (s : string) := (atoi_digits s, 0) in
  let run_user_dir (uid : Z) := "/run/user/1000"%string in
  let env :=
    mkPrivilegesEnv 0 (Some "1000"%string) None 0 (Some "1000"%string)
      (fun _ => None) 0 0 None None
      (fun _ => Some (mkStat true 1000)) in
  drop_privileges strtoll run_user_dir env
  = (0, [setgid 1000; setuid 1000; print_dropped; chdir "/";
         setenv "XDG_RUNTIME_DIR" "/run/user/1000"]) /\
  Forall sets_no_root_identity (drop_privileges strtoll run_user_dir env).2.
Proof.
  intros strtoll run_user_dir env.
  split; [vm_compute; reflexivity |].
  exact (proj1 (proj2 (drop_privileges_sets_no_root_identity strtoll
                         run_user_dir env))).
Defined.

(** ** Start-up and shutdown: [main] *)

(** [main] undoes what it has started.  It enters [main_loop] exactly
    when [read_arguments] has returned and no start-up call has failed,
    and then shuts nothing down.  Otherwise it exits with status 1 from
    [usage], before any call, or with the status of the one start-up
    call that has failed, which is the last one it makes; by then it has
    called the shutdown functions of the start-up calls that had
    succeeded, each once, in the reverse order of the start-up; and
    when the MIDI thread had been started it has stored -1 into
    [midi_init_state] before the first of them. *)
Theorem main_undoes_what_it_started (parsed : parse_result) (env : main_env) :
  let result := (main parsed env).1 in
  let calls := (main parsed env).2 in
  (result = In_main_loop <->
   parsed <> Usage /\ List.filter has_failed calls = []) /\
  (result = In_main_loop ->
   List.filter is_shutdown_or_stop calls = [] /\
   List.last calls stop_synth = main_loop) /\
  (forall status : Z,
      result = Exits status ->
      List.filter is_shutdown calls = rev (omap shutdown_of calls) /\
      (if existsb thread_started calls
       then List.filter is_shutdown_or_stop calls
            = store_midi_init_state (-1) :: List.filter is_shutdown calls
       else List.filter is_shutdown_or_stop calls
            = List.filter is_shutdown calls) /\
      ((status = 1 /\ parsed = Usage /\ calls = []) \/
       (exists failed : main_call,
           List.filter has_failed calls = [failed] /\
           List.last (List.filter is_startup calls) failed = failed /\
           status = status_of failed))).
Proof.
  intros result calls. unfold result, calls, main. clear result calls.
  destruct parsed as [s |];
    [| cbn; split; [split; [discriminate | intros [H _]; contradiction] |];
       split; [discriminate |]; intros status [= <-]; auto 10].
  destruct (start_synth_ret env <? 0) eqn:E1;
    destruct (daemonize s =? 0) eqn:Ed;
    destruct (run_as_daemon_ret env <? 0) eqn:E2;
    destruct (start_thread_ret env <? 0) eqn:E3;
    destruct (open_pcm_output_ret env <? 0) eqn:E4;
    destruct (open_midi_port_ret env <? 0) eqn:E5;
    cbn [negb andb];
    cbn [fst snd app List.filter has_failed returned is_shutdown
         is_shutdown_or_stop is_startup omap list_omap shutdown_of rev
         existsb thread_started List.last orb negb];
    rewrite ?E1, ?E2, ?E3, ?E4, ?E5;
    cbn [fst snd app List.filter has_failed returned is_shutdown
         is_shutdown_or_stop is_startup omap list_omap shutdown_of rev
         existsb thread_started List.last orb negb option_bind
         from_option];
    (split;
     [split;
      [first [discriminate | intros _; split; [discriminate | reflexivity]]
      | intros [_ H]; first [discriminate H | reflexivity]] |]);
    (split; [first [discriminate | intros _; split; reflexivity] |]);
    intros status Hst;
    first [discriminate Hst
          | injection Hst as <-;
            split; [reflexivity |]; split; [reflexivity |];
            right; eexists; split; [reflexivity |]; split; reflexivity].
Qed.

(** The sequencer port cannot be opened: the thread is told to stop, the
    PCM device is closed, the synthesizer is stopped, and the status is
    6. *)
Lemma main_undoes_what_it_started_witness :
  let run := main (Parsed default_settings) (mkMainEnv 0 0 0 0 (-1)) in
  run.1 = Exits 6 /\
  run.2 = [start_synth 0; start_thread 0; open_pcm_output 0;
           open_midi_port (-1); store_midi_init_state (-1);
           close_pcm_output; stop_synth] /\
  List.filter is_shutdown run.2 = rev (omap shutdown_of run.2).
Proof.
  intros run.
  assert (Hrun : run.1 = Exits 6) by (vm_compute; reflexivity).
  split; [exact Hrun |]. split; [vm_compute; reflexivity |].
  destruct (main_undoes_what_it_started (Parsed default_settings)
              (mkMainEnv 0 0 0 0 (-1))) as (_ & _ & H).
  destruct (H 6 Hrun) as (H1 & _). exact H1.
Defined.
